(** * umap-apps, median_calculation: the random-vector shooting program

    A shallow embedding of [src/median_calculation/cube.hpp] and
    [src/median_calculation/run_random_vector.cpp], and the properties of
    the metadata loaders, the cube accessors, the statistics accumulator
    [vector_info], the shooting loop and the CSV writer.

    Numbers are modelled as the program has them: [float] and [double] are
    IEEE 754 binary32 and binary64 values ([spec_float], with the
    operations of the standard library's executable specification, rounding
    to nearest even), [size_t] and [unsigned long] are integers modulo
    2^64, and a [size_t] narrowed to [int] is read as a 32-bit two's
    complement integer. The calls that can end the process return an
    [outcome]. The parallel region of [shoot_vector] is a set of threads
    that take their steps in the order given by a schedule; the read and
    the write of an update of a shared variable are separate steps. *)

From Stdlib Require Import ZArith List Ascii String Bool Lia.
From Stdlib Require Import Floats.SpecFloat.
From stdpp Require Import list.
Import ListNotations.

Local Open Scope Z_scope.

(** ** Floating-point numbers *)

Module Fp.

(** The two floating-point types of the program. *)
Inductive fp_type := Float32 | Float64.

Definition prec (t : fp_type) : Z :=
  match t with Float32 => 24 | Float64 => 53 end.

Definition emax (t : fp_type) : Z :=
  match t with Float32 => 128 | Float64 => 1024 end.

Definition add (t : fp_type) := SFadd (prec t) (emax t).
Definition sub (t : fp_type) := SFsub (prec t) (emax t).
Definition mul (t : fp_type) := SFmul (prec t) (emax t).
Definition div (t : fp_type) := SFdiv (prec t) (emax t).
Definition sqrt (t : fp_type) := SFsqrt (prec t) (emax t).

(** Conversion of an integer to a floating-point type (rounds when the
    integer has more significant bits than the mantissa). *)
Definition of_Z (t : fp_type) (z : Z) : spec_float :=
  binary_normalize (prec t) (emax t) z 0 false.

(** Conversion between floating-point types: exact from [float] to
    [double], the identity on a value already in the target format. *)
Definition convert (t : fp_type) (x : spec_float) : spec_float :=
  match x with
  | S754_finite s m e => binary_round (prec t) (emax t) s m e
  | _ => x
  end.

(** The value is NaN: the comparison [x != x]. *)
Definition is_nan (x : spec_float) : bool :=
  match x with S754_nan => true | _ => false end.

(** [std::round] on a [double]: to the nearest integer, halfway cases
    away from zero; the result is again a [double]. *)
Definition round (x : spec_float) : spec_float :=
  match x with
  | S754_finite s m e =>
      if 0 <=? e then x
      else
        let d := 2 ^ (- e) in
        let q := Zpos m / d in
        let r := Zpos m mod d in
        let q' := if d <=? 2 * r then q + 1 else q in
        binary_normalize (prec Float64) (emax Float64) (cond_Zopp s q') 0 s
  | _ => x
  end.

(** The integer obtained by discarding the fractional part; [None] on
    infinities and NaN. *)
Definition trunc (x : spec_float) : option Z :=
  match x with
  | S754_zero _ => Some 0
  | S754_finite s m e =>
      Some (cond_Zopp s (if 0 <=? e then Zpos m * 2 ^ e
                         else Zpos m / 2 ^ (- e)))
  | _ => None
  end.

(** The integer value of an integral float; [None] when the float is not
    an integer. *)
Definition to_Z_exact (x : spec_float) : option Z :=
  match x with
  | S754_zero _ => Some 0
  | S754_finite s m e =>
      if 0 <=? e then Some (cond_Zopp s (Zpos m * 2 ^ e))
      else if Zpos m mod 2 ^ (- e) =? 0
           then Some (cond_Zopp s (Zpos m / 2 ^ (- e)))
           else None
  | _ => None
  end.

End Fp.

Definition double : Type := spec_float.
Definition dadd : double -> double -> double := Fp.add Fp.Float64.
Definition dsub : double -> double -> double := Fp.sub Fp.Float64.
Definition dmul : double -> double -> double := Fp.mul Fp.Float64.
Definition ddiv : double -> double -> double := Fp.div Fp.Float64.
Definition dsqrt : double -> double := Fp.sqrt Fp.Float64.
Definition d_of_Z : Z -> double := Fp.of_Z Fp.Float64.
Definition to_double : spec_float -> double := Fp.convert Fp.Float64.

(** ** run_random_vector.cpp: the statistics accumulator *)

(** [using pixel_type = float]. *)
Definition pixel_type : Fp.fp_type := Fp.Float32.

(** What [iterator.snr_info()] returns at one step of the walk:
    [std::tuple<pixel_type, int, double>], the pixel value (NaN when the
    step has no data), the number of pixels and the exposure time. *)
Definition snr_info : Type := spec_float * Z * spec_float.

(** The local variables of [vector_info]. *)
Record vi_state := {
  total_signal : spec_float;   (* value_type *)
  total_exposure : spec_float; (* declared, never updated *)
  total_B : spec_float;
  total_R : spec_float;
  total_D : spec_float;
  total_time : spec_float;
  frame_num : Z                (* int, one more per frame hit *)
}.

(** Modelled from the spec: [is_nan] of utility.hpp, a header that is not
    among the sources. It tells whether a pixel value is the not-a-value
    marker, which is NaN. *)
Definition is_nan (value : spec_float) : bool := Fp.is_nan value.

(** [double dark_noise = 0.417]: the double nearest to 417/1000, which is
    what the correctly rounded quotient of the two integers is. *)
Definition dark_noise : spec_float := ddiv (d_of_Z 417) (d_of_Z 1000).

(** [double readout_noise = 7]. *)
Definition readout_noise : spec_float := d_of_Z 7.

(** [pow(x, 2)] is the correctly rounded square. *)
Definition pow2 (x : spec_float) : spec_float := dmul x x.

Section VectorInfo.

(** [iterator_type::value_type], the type the signal is summed in. *)
Variable value_type : Fp.fp_type.

Definition vi_init : vi_state :=
  {| total_signal := Fp.of_Z value_type 0;
     total_exposure := d_of_Z 0;
     total_B := d_of_Z 0;
     total_R := d_of_Z 0;
     total_D := d_of_Z 0;
     total_time := d_of_Z 0;
     frame_num := 0 |}.

(** One turn of the loop of [vector_info]. *)
Definition vi_body (st : vi_state) (info : snr_info) : vi_state :=
  let '(pixel, num_pixels, exp_time) := info in
  let value := Fp.convert value_type pixel in
  if is_nan value then st
  else
    let B := to_double (Fp.div value_type value (Fp.of_Z value_type 3)) in
    let n := d_of_Z num_pixels in
    {| total_signal := Fp.add value_type (total_signal st) value;
       total_exposure := total_exposure st;
       total_B := dadd (total_B st) (dmul B n);
       total_R := dadd (total_R st) (ddiv (dmul n (pow2 readout_noise)) exp_time);
       total_D := dadd (total_D st) (dmul dark_noise n);
       total_time := dadd (total_time st) exp_time;
       frame_num := frame_num st + 1 |}.

(** The value of [SNR] computed after the loop. *)
Definition vi_snr (st : vi_state) : spec_float :=
  let ts := to_double (total_signal st) in
  ddiv (dmul ts (dsqrt (total_time st)))
       (dsqrt (dadd (dadd (dadd ts (total_B st)) (total_D st)) (total_R st))).

(** [vector_info(begin, end)] on the sequence of steps the iterator
    range produces: [<SNR, weighted sum, number of frames intersected>]. *)
Definition vector_info (steps : list snr_info) : spec_float * spec_float * Z :=
  match steps with
  | [] => (d_of_Z 0, Fp.of_Z value_type 0, 0)
  | _ =>
      let st := fold_left vi_body steps vi_init in
      (vi_snr st, total_signal st, frame_num st)
  end.

End VectorInfo.

(** ** How a call can end *)

(** A call returns a value, or the process is terminated: by [std::abort]
    after a message on [std::cerr], by a failed [assert], or the call
    leaves the behaviour the language defines. *)
Inductive outcome (A : Type) : Type :=
  | Returned (a : A)
  | Aborted (stderr : string)
  | AssertionFailed (expr : string)
  | Undefined (what : string).

Arguments Returned {A} a.
Arguments Aborted {A} stderr.
Arguments AssertionFailed {A} expr.
Arguments Undefined {A} what.

#[global] Instance outcome_ret : MRet outcome := fun A a => Returned a.

#[global] Instance outcome_bind : MBind outcome := fun A B f m =>
  match m with
  | Returned a => f a
  | Aborted s => Aborted s
  | AssertionFailed e => AssertionFailed e
  | Undefined w => Undefined w
  end.

(** [assert(b)] of <cassert>. *)
Definition assert (b : bool) (expr : string) : outcome unit :=
  if b then Returned tt else AssertionFailed expr.

(** ** Machine integers *)

(** Arithmetic on [size_t] and [unsigned long] is modulo 2^64. *)
Definition wrap64 (z : Z) : Z := z mod 2 ^ 64.

(** Narrowing to [int]: modulo 2^32, read as two's complement. *)
Definition to_int (z : Z) : Z := (z + 2 ^ 31) mod 2 ^ 32 - 2 ^ 31.

(** [v.size()] of a [std::vector]. *)
Definition vsize {A : Type} (v : list A) : Z := Z.of_nat (length v).

(** [v[k]] of a [std::vector], for an unsigned index [k]. *)
Definition at_index {A : Type} (v : list A) (k : Z) : outcome A :=
  match v !! Z.to_nat k with
  | Some a => Returned a
  | None => Undefined "vector index out of range"
  end.

(** Conversion of a [double] to [size_t]. The fractional part is discarded.
    A value in [0, 2^64) converts to itself. The language leaves the other
    values undefined; for a negative value above -2^63 the 64-bit
    conversion instruction the program is compiled to yields the two's
    complement pattern of the signed result, which read as [size_t] is the
    value plus 2^64. Infinities, NaN and the remaining values are left
    [Undefined]. *)
Definition double_to_size_t (x : double) : outcome Z :=
  match Fp.trunc x with
  | Some z =>
      if (- 2 ^ 63 <? z) && (z <? 2 ^ 64) then Returned (wrap64 z)
      else Undefined "double to size_t out of range"
  | None => Undefined "double to size_t of a non-finite value"
  end.

(** ** Text written to a stream *)

(** What is written to a stream, one token for each [<<]. *)
Inductive token :=
  | Tstring (s : string)
  | Tchar (c : Ascii.ascii)
  | Tlonglong (z : Z)
  | Tsize (z : Z)
  | Tint (z : Z)
  | Tdouble (d : double)
  | Tendl.

Definition comma : token := Tchar ","%char.
Definition newline : token := Tchar "010"%char.

(** ** cube.hpp *)

Module Cube.

(** [utility::umap_fits_file::umap_fits_cube<pixel_type>], the pixel
    store behind the cube. Its header is not part of these sources; the
    cube only uses the three operations below. *)
Record umap_fits_cube := {
  index_in_cube : Z -> Z -> Z -> Z;
  u_get_pixel_value : Z -> Z -> Z -> spec_float;
  u_get_rnd_coord : Z -> Z * Z * Z
}.

Record cube := {
  m_size_x : Z;
  m_size_y : Z;
  m_size_k : Z;
  u_cube : umap_fits_cube;
  m_timestamp_list : list Z;              (* std::vector<unsigned long> *)
  m_exposuretime_list : list double;
  m_psf_list : list double;
  m_ra_dec_list : list (list double);
  m_noise_list : list double
}.

(** The constructor with the metadata lists: stores its arguments, then
    checks the five assertions in order. [image_data] is the pixel store
    that the member [u_cube] refers to. *)
Definition make (size_x size_y size_k : Z) (image_data : umap_fits_cube)
    (timestamp_list : list Z) (exposuretime_list psf_list : list double)
    (ra_dec_list : list (list double)) (noise_list : list double)
    : outcome cube :=
  let c := {| m_size_x := size_x;
              m_size_y := size_y;
              m_size_k := size_k;
              u_cube := image_data;
              m_timestamp_list := timestamp_list;
              m_exposuretime_list := exposuretime_list;
              m_psf_list := psf_list;
              m_ra_dec_list := ra_dec_list;
              m_noise_list := noise_list |} in
  assert (m_size_k c <=? vsize (m_timestamp_list c))
         "m_size_k <= m_timestamp_list.size()" ;;
  assert (m_size_k c <=? vsize (m_exposuretime_list c))
         "m_size_k <= m_exposuretime_list.size()" ;;
  assert (m_size_k c <=? vsize (m_psf_list c))
         "m_size_k <= m_psf_list.size()" ;;
  assert (m_size_k c <=? vsize (m_ra_dec_list c))
         "m_size_k <= m_ra_dec_list.size()" ;;
  assert (m_size_k c <=? vsize (m_noise_list c))
         "m_size_k <= m_noise_list.size()" ;;
  mret c.

Definition out_of_range (c : cube) (x y k : Z) : bool :=
  index_in_cube (u_cube c) x y k =? -1.

(** [get_pixel_value(x, y, k)]: the line written to [std::cout], with
    the three [ssize_t] coordinates as signed integers, and the value
    read. *)
Definition get_pixel_value (c : cube) (x y k : Z) : list token * spec_float :=
  ([ Tstring ("cube::gpv" ++ String "009"%char EmptyString);
     Tstring "k:"; Tlonglong k; Tstring " x:"; Tlonglong x;
     Tstring " y:"; Tlonglong y; Tendl ],
   u_get_pixel_value (u_cube c) x y k).

Definition size (c : cube) : Z * Z * Z :=
  (m_size_x c, m_size_y c, m_size_k c).

Definition cube_size (c : cube) : Z :=
  wrap64 (wrap64 (m_size_x c * m_size_y c) * m_size_k c).

Definition timestamp (c : cube) (k : Z) : outcome Z :=
  assert (k <? vsize (m_timestamp_list c)) "k < m_timestamp_list.size()" ;;
  at_index (m_timestamp_list c) k.

Definition exposuretime (c : cube) (k : Z) : outcome double :=
  assert (k <? vsize (m_exposuretime_list c))
         "k < this->m_exposuretime_list.size()" ;;
  at_index (m_exposuretime_list c) k.

Definition psf (c : cube) (k : Z) : outcome double :=
  assert (k <? vsize (m_psf_list c)) "k < this->m_psf_list.size()" ;;
  at_index (m_psf_list c) k.

Definition ra_dec (c : cube) (k : Z) : outcome (list double) :=
  assert (k <? vsize (m_ra_dec_list c)) "k < m_ra_dec_list.size()" ;;
  at_index (m_ra_dec_list c) k.

Definition noise (c : cube) (k : Z) : outcome double :=
  assert (k <? vsize (m_noise_list c)) "k < m_noise_list.size()" ;;
  at_index (m_noise_list c) k.

(** The position on frame 0 that [get_rnd_coord] computes along one
    axis, before it is stored in a [size_t]. *)
Definition back_projection (p0 : Z) (slope : double) (time_offset : double)
    : double :=
  Fp.round (dsub (d_of_Z p0) (dmul slope time_offset)).

Definition get_rnd_coord (c : cube) (index : Z) (x_slope y_slope : double)
    : outcome (Z * Z * Z) :=
  let intercept := u_get_rnd_coord (u_cube c) index in
  let k := snd intercept in
  tk ← timestamp c k;
  t0 ← timestamp c 0;
  let time_offset := d_of_Z (wrap64 (tk - t0)) in
  x ← double_to_size_t (back_projection (fst (fst intercept)) x_slope time_offset);
  y ← double_to_size_t (back_projection (snd (fst intercept)) y_slope time_offset);
  mret (x, y, 0).

End Cube.

(** ** run_random_vector.cpp: the world around the program *)

(** The environment variables and the files of a run. A file that can be
    opened is the sequence of results of the successive extractions
    [ifs >> value]: [Some v] when a number is read, [None] when the
    extraction fails. *)
Record os_env := {
  getenv : string -> option string;
  ifstream : string -> option (list (option double));
  (** [std::stoll]; [None] when it throws *)
  stoll : string -> option Z;
  (** [PerFits_alloc_cube]: element size, the three sizes and the pixel
      store; [None] for a null pointer *)
  PerFits_alloc_cube : string -> option (Z * Z * Z * Z * Cube.umap_fits_cube)
}.

(** [vector_xy] of vector.hpp, as the program initialises and reads it. *)
Record vector_xy := {
  x_slope : double;
  x_intercept : double;
  y_slope : double;
  y_intercept : double
}.

(** The library and repository code the shooting loop calls and whose
    source is outside these files: the random engine and the integer
    distribution of <random>, the two slope distributions, the iterator
    over a cube along a vector, the clock, and the constructor of the cube
    that [main] calls. *)
Class Platform := {
  rnd_engine : Type;
  mt19937 : Z -> rnd_engine;
  (** [std::uniform_int_distribution<int> d(a, b)] applied to an engine *)
  uniform_int_distribution : Z -> Z -> rnd_engine -> Z * rnd_engine;
  beta_state : Type;
  beta_distribution : Z -> Z -> beta_state;
  beta_call : beta_state -> list double * beta_state;
  custom_state : Type;
  (** the constructor from a file name, which may end the process *)
  custom_distribution : string -> outcome custom_state;
  custom_call : custom_state -> list double * custom_state;
  (** [cube_iterator_with_vector<pixel_type>::value_type] *)
  iterator_value_type : Fp.fp_type;
  (** the steps from [begin(cube, vector, 0.0)] to [end(cube, vector)] *)
  cube_iterator_with_vector : Cube.cube -> vector_xy -> list snr_info;
  (** [utility::elapsed_time_sec(start)] measured around draw [i] *)
  elapsed_time_sec : nat -> double;
  (** the seven-argument constructor used by [main] *)
  cube_of_main : Z -> Z -> Z -> Cube.umap_fits_cube ->
                 list double -> list double -> list double -> Cube.cube
}.

(** ** run_random_vector.cpp: loading *)

Definition default_num_random_vector : Z := 100000.

Definition map_fits (E : os_env) (filename : string)
    : outcome (Z * Z * Z * Cube.umap_fits_cube) :=
  match PerFits_alloc_cube E filename with
  | None => Aborted "Failed to allocate memory for cube"
  | Some (byte_per_element, size_x, size_y, size_k, image_data) =>
      if negb (4 =? byte_per_element) then Aborted "Pixel type is not float"
      else Returned (size_x, size_y, size_k, image_data)
  end.

Definition get_num_vectors (E : os_env) : outcome Z :=
  match getenv E "NUM_VECTORS" with
  | Some buf =>
      match stoll E buf with
      | Some n => Returned (wrap64 n)
      | None => Aborted "terminate called after throwing an exception"
      end
  | None => Returned default_num_random_vector
  end.

(** The loop [for (double v; ifs >> v;) list.emplace_back(v)]: it ends at
    the first extraction that fails. *)
Fixpoint extract_all (contents : list (option double)) : list double :=
  match contents with
  | Some v :: rest => v :: extract_all rest
  | _ => []
  end.

(** The body shared by the three readers, which differ in the name of the
    environment variable and in the value given to frame [i] when the
    variable is not set. *)
Definition read_list (E : os_env) (variable : string)
    (default : Z -> double) (size_k : Z) : outcome (list double) :=
  match getenv E variable with
  | Some file_name =>
      match ifstream E file_name with
      | None => Aborted ("Cannot open " ++ file_name)
      | Some contents =>
          let values := extract_all contents in
          if negb (vsize values =? size_k)
          then Aborted ("#of lines in " ++ file_name
                        ++ " is not the same as #of fits files")
          else Returned values
      end
  | None =>
      Returned (map (fun i : nat => default (Z.of_nat i)) (seq 0 (Z.to_nat size_k)))
  end.

Definition read_timestamp (E : os_env) (size_k : Z) : outcome (list double) :=
  read_list E "TIMESTAMP_FILE" (fun i => dmul (d_of_Z i) (d_of_Z 1)) size_k.

Definition read_exposuretime (E : os_env) (size_k : Z) : outcome (list double) :=
  read_list E "EXPOSURETIME_FILE" (fun _ => d_of_Z 40) size_k.

Definition read_psf (E : os_env) (size_k : Z) : outcome (list double) :=
  read_list E "PSF_FILE" (fun _ => d_of_Z 1) size_k.

(** ** run_random_vector.cpp: names and block scopes in [shoot_vector] *)

(** An object that can be called for a pair of slopes. *)
Inductive slope_object `{Platform} : Type :=
  | BetaObject (st : beta_state)
  | CustomObject (st : custom_state).

(** The declarations in force, innermost block first. *)
Definition scopes `{Platform} : Type := list (list (string * slope_object)).

Definition enter_block `{Platform} (sc : scopes) : scopes := [] :: sc.

Definition leave_block `{Platform} (sc : scopes) : scopes := tail sc.

Definition declare `{Platform} (name : string) (obj : slope_object)
    (sc : scopes) : scopes :=
  match sc with
  | block :: outer => ((name, obj) :: block) :: outer
  | [] => [[(name, obj)]]
  end.

Fixpoint find_in_block `{Platform} (name : string)
    (block : list (string * slope_object)) : option slope_object :=
  match block with
  | [] => None
  | (n, obj) :: rest =>
      if String.eqb n name then Some obj else find_in_block name rest
  end.

(** Name lookup: the innermost enclosing declaration. *)
Fixpoint lookup_name `{Platform} (name : string) (sc : scopes)
    : option slope_object :=
  match sc with
  | [] => None
  | block :: outer =>
      match find_in_block name block with
      | Some obj => Some obj
      | None => lookup_name name outer
      end
  end.

(** The declarations of lines 224 to 227, in the block of the parallel
    region: [beta_distribution slope_distribution(3, 2);] and then, when
    SLOPE_PDF_FILE is set, the statement controlled by the [if],
    [custom_distribution slope_distribution(slope_filename);]. A
    declaration that is the whole substatement of an [if] is in a block of
    its own, which ends with that statement. The result is the set of
    declarations in force where the loop starts. *)
Definition declare_slope_distribution `{Platform} (E : os_env)
    : outcome scopes :=
  let sc := declare "slope_distribution"
                    (BetaObject (beta_distribution 3 2)) (enter_block []) in
  match getenv E "SLOPE_PDF_FILE" with
  | Some slope_filename =>
      st ← custom_distribution slope_filename;
      mret (leave_block
              (declare "slope_distribution" (CustomObject st) (enter_block sc)))
  | None => mret sc
  end.

(** [slope_distribution()]: the call operator of the object. *)
Definition call_slope `{Platform} (obj : slope_object)
    : list double * slope_object :=
  match obj with
  | BetaObject st => (fst (beta_call st), BetaObject (snd (beta_call st)))
  | CustomObject st => (fst (custom_call st), CustomObject (snd (custom_call st)))
  end.

(** ** run_random_vector.cpp: the shooting loop *)

(** An element of [result]: [VECTOR_XY, SNR, SUM, NUMBER OF FRAMES]. *)
Definition result_row : Type := vector_xy * double * double * Z.

(** A value-initialised element. *)
Definition empty_row : result_row :=
  ({| x_slope := d_of_Z 0; x_intercept := d_of_Z 0;
      y_slope := d_of_Z 0; y_intercept := d_of_Z 0 |}, d_of_Z 0, d_of_Z 0, 0).

(** What the threads of the parallel region share: both variables are
    declared before the region. *)
Record shared := {
  total_execution_time : double;
  result : list result_row
}.

(** What a thread owns: its engine, the slope distribution its loop body
    names, the iterations of the loop it still has to run, and, between the
    read and the write of [total_execution_time += ...], the sum it is
    about to write. *)
Record worker `{Platform} := {
  w_engine : rnd_engine;
  w_slope_distribution : slope_object;
  w_iterations : list nat;
  w_pending_sum : option double
}.

(** The upper bound given to a start distribution:
    [std::get<0>(cube.size()) - 1] is computed in [size_t] and passed as
    an [int]. *)
Definition start_upper_bound (size : Z) : Z := to_int (wrap64 (size - 1)).

Section ShootVector.

Context `{Platform}.

Variable cube : Cube.cube.

(** The start of the parallel region for thread [thread_num], which is
    to run the iterations [iterations]. *)
Definition worker_start (E : os_env) (thread_num : Z) (iterations : list nat)
    : outcome worker :=
  sc ← declare_slope_distribution E;
  match lookup_name "slope_distribution" sc with
  | Some obj =>
      mret {| w_engine := mt19937 (123 + thread_num);
              w_slope_distribution := obj;
              w_iterations := iterations;
              w_pending_sum := None |}
  | None => Undefined "slope_distribution is not declared"
  end.

(** The body of the loop for index [i], up to and including the read of
    [total_execution_time] by the [+=] that ends it: the new state of the
    thread, the row stored in [result[i]], and the sum that remains to be
    written back. *)
Definition loop_body (w : worker) (sh : shared) (i : nat)
    : worker * shared :=
  let drawn := call_slope (w_slope_distribution w) in
  let slopes := fst drawn in
  let x_slope := nth 0 slopes (d_of_Z 0) in
  let y_slope := nth 1 slopes (d_of_Z 0) in
  let x_start :=
    uniform_int_distribution 0 (start_upper_bound (fst (fst (Cube.size cube))))
                             (w_engine w) in
  let y_start :=
    uniform_int_distribution 0 (start_upper_bound (snd (fst (Cube.size cube))))
                             (snd x_start) in
  let current_vector :=
    {| x_slope := x_slope; x_intercept := d_of_Z (fst x_start);
       y_slope := y_slope; y_intercept := d_of_Z (fst y_start) |} in
  let v_info :=
    vector_info iterator_value_type
                (cube_iterator_with_vector cube current_vector) in
  let row : result_row :=
    (current_vector, fst (fst v_info), to_double (snd (fst v_info)), snd v_info) in
  ({| w_engine := snd y_start;
      w_slope_distribution := snd drawn;
      w_iterations := tail (w_iterations w);
      w_pending_sum :=
        Some (dadd (total_execution_time sh) (elapsed_time_sec i)) |},
   {| total_execution_time := total_execution_time sh;
      result := <[i := row]> (result sh) |}).

(** One step of thread [t]: the write that completes a pending
    [+=], or else the next iteration of its share of the loop. A thread
    with nothing left does nothing. *)
Definition thread_step (st : shared * list worker) (t : nat)
    : shared * list worker :=
  let '(sh, ws) := st in
  match ws !! t with
  | None => st
  | Some w =>
      match w_pending_sum w with
      | Some sum =>
          ({| total_execution_time := sum; result := result sh |},
           <[t := {| w_engine := w_engine w;
                     w_slope_distribution := w_slope_distribution w;
                     w_iterations := w_iterations w;
                     w_pending_sum := None |}]> ws)
      | None =>
          match w_iterations w with
          | [] => st
          | i :: _ =>
              let next := loop_body w sh i in
              (snd next, <[t := fst next]> ws)
          end
      end
  end.

(** A thread is done when it has no iteration and no write left. *)
Definition worker_done (w : worker) : bool :=
  match w_iterations w, w_pending_sum w with
  | [], None => true
  | _, _ => false
  end.

(** The threads of the region, numbered from 0; thread [t] is given the
    iterations [nth t chunks]. *)
Fixpoint start_workers (E : os_env) (thread_num : Z) (chunks : list (list nat))
    : outcome (list worker) :=
  match chunks with
  | [] => mret []
  | iterations :: rest =>
      w ← worker_start E thread_num iterations;
      ws ← start_workers E (thread_num + 1) rest;
      mret (w :: ws)
  end.

(** [shoot_vector(cube, num_random_vector)] run by [length chunks]
    threads that share out the loop as [chunks] says and take their steps
    in the order [schedule]. *)
Definition shoot_vector (E : os_env) (num_random_vector : Z)
    (chunks : list (list nat)) (schedule : list nat)
    : outcome (double * list result_row) :=
  ws ← start_workers E 0 chunks;
  let sh := {| total_execution_time := d_of_Z 0;
               result := replicate (Z.to_nat num_random_vector) empty_row |} in
  let final := fst (fold_left thread_step schedule (sh, ws)) in
  mret (total_execution_time final, result final).

(** The final states of the threads under a schedule, to tell whether
    the schedule runs the region to its end. *)
Definition region_done (E : os_env) (num_random_vector : Z)
    (chunks : list (list nat)) (schedule : list nat) : bool :=
  match start_workers E 0 chunks with
  | Returned ws =>
      let sh := {| total_execution_time := d_of_Z 0;
                   result := replicate (Z.to_nat num_random_vector) empty_row |} in
      forallb worker_done (snd (fold_left thread_step schedule (sh, ws)))
  | _ => false
  end.

(** The build without OpenMP: one thread runs the whole loop. The
    counter [i] of the loop is an [int] compared with the [size_t] number
    of vectors: from 2^31 vectors on, [++i] overflows after the iteration
    2^31 - 1, which the language leaves undefined. The allocation of the
    result vector is taken to succeed. *)
Definition shoot_vector_serial (E : os_env) (num_random_vector : Z)
    : outcome (double * list result_row) :=
  if 2 ^ 31 <=? num_random_vector
  then Undefined "signed overflow of the loop counter"
  else
    let n := Z.to_nat num_random_vector in
    shoot_vector E num_random_vector [seq 0 n] (replicate (2 * n) 0%nat).

End ShootVector.

(** ** run_random_vector.cpp: the output *)

Definition csv_header : string :=
  "ID,X_INTERCEPT,Y_INTERCEPT,X_SLOPE,Y_SLOPE,SNR,SUM,NUMBER_OF_FRAMES_HIT"
  ++ String "010"%char EmptyString.

(** The body of the loop of [write_tocsv] for one row. *)
Definition write_row (id : Z) (row : result_row) : list token :=
  let '(v, snr, sum, frames) := row in
  [ Tlonglong id; comma;
    Tdouble (x_intercept v); comma;
    Tdouble (y_intercept v); comma;
    Tdouble (x_slope v); comma;
    Tdouble (y_slope v); comma;
    Tdouble snr; comma;
    Tdouble sum; comma;
    Tint frames; comma;
    newline ].

(** [write_tocsv(result)]: what is written to vector_output.csv. The
    loop carries the stream and the counter [id]. *)
Definition write_tocsv (result : list result_row) : list token :=
  fst (fold_left
         (fun (st : list token * Z) (row : result_row) =>
            (fst st ++ write_row (snd st) row, snd st + 1))
         result ([Tstring csv_header], 0)).

(** ** run_random_vector.cpp: [main] *)

(** The three metadata arguments of the constructor call in [main]; the
    language does not fix the order in which they are evaluated. *)
Inductive metadata_arg := ArgTimestamp | ArgExposuretime | ArgPsf.

Record metadata := {
  md_timestamp : option (list double);
  md_exposuretime : option (list double);
  md_psf : option (list double)
}.

Definition eval_arg (E : os_env) (size_k : Z) (md : metadata)
    (a : metadata_arg) : outcome metadata :=
  match a with
  | ArgTimestamp =>
      l ← read_timestamp E size_k;
      mret {| md_timestamp := Some l;
              md_exposuretime := md_exposuretime md; md_psf := md_psf md |}
  | ArgExposuretime =>
      l ← read_exposuretime E size_k;
      mret {| md_timestamp := md_timestamp md;
              md_exposuretime := Some l; md_psf := md_psf md |}
  | ArgPsf =>
      l ← read_psf E size_k;
      mret {| md_timestamp := md_timestamp md;
              md_exposuretime := md_exposuretime md; md_psf := Some l |}
  end.

Fixpoint eval_args (E : os_env) (size_k : Z) (order : list metadata_arg)
    (md : metadata) : outcome metadata :=
  match order with
  | [] => mret md
  | a :: rest => md' ← eval_arg E size_k md a; eval_args E size_k rest md'
  end.

(** [main], for the file name given on the command line, an evaluation
    order of the metadata arguments, and threads as in [shoot_vector]. It
    returns what its own statement writes to [std::cout] after the
    vectors are shot, and what [write_tocsv] sends to the stream of
    vector_output.csv. The lines that [cube::get_pixel_value] writes to
    [std::cout] while the vectors are shot come before the former and are
    not part of it: the pixels a walk reads are decided by the iterator,
    which is not among the sources. The stream of [write_tocsv] is not
    checked: when the file cannot be opened, what is sent to it is
    dropped. *)
Definition main `{Platform} (E : os_env) (filename : string)
    (order : list metadata_arg) (chunks : list (list nat)) (schedule : list nat)
    : outcome (list token * list token) :=
  '(size_x, size_y, size_k, image_data) ← map_fits E filename;
  md ← eval_args E size_k order
          {| md_timestamp := None; md_exposuretime := None; md_psf := None |};
  match md_timestamp md, md_exposuretime md, md_psf md with
  | Some ts, Some ex, Some ps =>
      let cube := cube_of_main size_x size_y size_k image_data ts ex ps in
      num_random_vector ← get_num_vectors E;
      r ← shoot_vector cube E num_random_vector chunks schedule;
      mret ([ Tstring "#of vectors = "; Tsize num_random_vector;
              Tstring (String "010"%char "execution time (sec) = ");
              Tdouble (fst r);
              Tstring (String "010"%char "vectors/sec = ");
              Tdouble (ddiv (d_of_Z num_random_vector) (fst r)); Tendl ],
            write_tocsv (snd r))
  | _, _, _ => Undefined "a constructor argument was not evaluated"
  end.

(** ** Reading the model back *)

(** The values of the ID column of a written file: the [long long]
    tokens, in order. *)
Definition csv_ids (out : list token) : list Z :=
  omap (fun t => match t with Tlonglong z => Some z | _ => None end) out.

(** The number of rows after the header: one for each line end written. *)
Definition is_newline (t : token) : bool :=
  match t with Tchar c => Ascii.eqb c "010"%char | _ => false end.

Definition csv_rows (out : list token) : nat :=
  length (List.filter is_newline out).

(** ** The contract of the standard library *)

(** [std::uniform_int_distribution<int>(a, b)] produces values in the
    closed range from [a] to [b]. *)
Class PlatformSpec `{Platform} := {
  uniform_int_range : forall (a b : Z) (g : rnd_engine),
    a <= b -> a <= fst (uniform_int_distribution a b g) <= b
}.

(** ** Names for the statements *)

(** The environment variable and the reader behind each metadata
    argument. *)
Definition arg_variable (a : metadata_arg) : string :=
  match a with
  | ArgTimestamp => "TIMESTAMP_FILE"
  | ArgExposuretime => "EXPOSURETIME_FILE"
  | ArgPsf => "PSF_FILE"
  end.

Definition read_arg (E : os_env) (size_k : Z) (a : metadata_arg)
    : outcome (list double) :=
  match a with
  | ArgTimestamp => read_timestamp E size_k
  | ArgExposuretime => read_exposuretime E size_k
  | ArgPsf => read_psf E size_k
  end.

(** The same run with SLOPE_PDF_FILE not set. *)
Definition without_slope_file (E : os_env) : os_env :=
  {| getenv := fun name =>
       if String.eqb name "SLOPE_PDF_FILE" then None else getenv E name;
     ifstream := ifstream E;
     stoll := stoll E;
     PerFits_alloc_cube := PerFits_alloc_cube E |}.

(** The start positions of a stored vector are integers [xi] and [yi] of
    the pixel grid, converted to [double]: the intercepts are
    integer-valued, with these values. *)
Definition starts_on_grid (size_x size_y : Z) (row : result_row) : Prop :=
  exists xi yi : Z,
    0 <= xi < size_x /\ 0 <= yi < size_y
    /\ x_intercept (fst (fst (fst row))) = d_of_Z xi
    /\ y_intercept (fst (fst (fst row))) = d_of_Z yi
    /\ Fp.to_Z_exact (x_intercept (fst (fst (fst row)))) = Some xi
    /\ Fp.to_Z_exact (y_intercept (fst (fst (fst row)))) = Some yi.

(** ** The accumulation rule, said directly *)

(** The rule of the statistics accumulator as a sum over the data steps:
    each total is the left-to-right sum, from zero, of one term for each
    step that has data. [vector_info] is compared with it below. *)
Section AccumulationRule.

Variable value_type : Fp.fp_type.

(** The value of a step, in the type it is summed in. *)
Definition step_value (info : snr_info) : spec_float :=
  Fp.convert value_type (fst (fst info)).

Definition step_pixels (info : snr_info) : Z := snd (fst info).

Definition step_exposure (info : snr_info) : double := snd info.

(** A step has data when the value the iterator gives is a number, not
    NaN. *)
Definition has_data (info : snr_info) : bool :=
  negb (Fp.is_nan (fst (fst info))).

Definition data_steps (steps : list snr_info) : list snr_info :=
  List.filter has_data steps.

Definition sum_of (plus : spec_float -> spec_float -> spec_float)
    (term : snr_info -> spec_float) (from : spec_float)
    (steps : list snr_info) : spec_float :=
  fold_left (fun acc info => plus acc (term info)) steps from.

(** [(v / 3) * n] *)
Definition B_term (info : snr_info) : double :=
  dmul (to_double (Fp.div value_type (step_value info) (Fp.of_Z value_type 3)))
       (d_of_Z (step_pixels info)).

(** [n * 7^2 / e] *)
Definition R_term (info : snr_info) : double :=
  ddiv (dmul (d_of_Z (step_pixels info)) (d_of_Z 49)) (step_exposure info).

(** [0.417 * n], with 0.417 the [double] nearest to 417/1000, which the
    correctly rounded quotient of the two integers is. *)
Definition D_term (info : snr_info) : double :=
  dmul (ddiv (d_of_Z 417) (d_of_Z 1000)) (d_of_Z (step_pixels info)).

(** [signal * sqrt(exposure) / sqrt(signal + B + D + R)] *)
Definition snr_formula (signal exposure B D R : double) : double :=
  ddiv (dmul signal (dsqrt exposure))
       (dsqrt (dadd (dadd (dadd signal B) D) R)).

Definition accumulated (steps : list snr_info) : spec_float * spec_float * Z :=
  let ds := data_steps steps in
  let signal := sum_of (Fp.add value_type) step_value (Fp.of_Z value_type 0) ds in
  (snr_formula (to_double signal)
               (sum_of dadd step_exposure (d_of_Z 0) ds)
               (sum_of dadd B_term (d_of_Z 0) ds)
               (sum_of dadd D_term (d_of_Z 0) ds)
               (sum_of dadd R_term (d_of_Z 0) ds),
   signal,
   Z.of_nat (length ds)).

End AccumulationRule.

(** ** A small instance to run the model on *)

Module Sample.

Definition f32 (z : Z) : spec_float := Fp.of_Z Fp.Float32 z.

(** A store of 4 x 4 x 3 pixels, all of value 10, with flat index
    [x + 4 y + 16 k]. *)
Definition store : Cube.umap_fits_cube :=
  {| Cube.index_in_cube := fun x y k =>
       if (0 <=? x) && (x <? 4) && (0 <=? y) && (y <? 4) && (0 <=? k) && (k <? 3)
       then x + 4 * y + 16 * k else -1;
     Cube.u_get_pixel_value := fun _ _ _ => f32 10;
     Cube.u_get_rnd_coord := fun i => (i mod 4, (i / 4) mod 4, i / 16) |}.

Definition timestamps : list Z := [100; 200; 300].
Definition exposures : list double := replicate 3 (d_of_Z 40).
Definition psfs : list double := replicate 3 (d_of_Z 1).
Definition ra_decs : list (list double) := replicate 3 [d_of_Z 0; d_of_Z 0].
Definition noises : list double := replicate 3 (d_of_Z 1).

Definition the_cube : Cube.cube :=
  {| Cube.m_size_x := 4; Cube.m_size_y := 4; Cube.m_size_k := 3;
     Cube.u_cube := store;
     Cube.m_timestamp_list := timestamps;
     Cube.m_exposuretime_list := exposures;
     Cube.m_psf_list := psfs;
     Cube.m_ra_dec_list := ra_decs;
     Cube.m_noise_list := noises |}.

(** Three steps with data: value 10, one pixel, 40 seconds. *)
Definition three_frames : list snr_info :=
  replicate 3 (f32 10, 1, d_of_Z 40).

Definition no_data_step : snr_info := (S754_nan, 1, d_of_Z 40).

(** 1/100 and 1/400 pixels per time unit. *)
Definition slope_100 : double := ddiv (d_of_Z 1) (d_of_Z 100).
Definition slope_400 : double := ddiv (d_of_Z 1) (d_of_Z 400).

(** A platform: a linear congruential engine, a distribution that
    reduces the engine's state into the range, slope distributions that
    return fixed pairs (1 and 2 for the beta object, 7 and 8 for the
    object made from a file), a walk that finds data on every frame, and a
    clock that measures [i + 1] seconds for draw [i]. *)
#[export] Instance platform : Platform :=
  {| rnd_engine := Z;
     mt19937 := fun seed => seed;
     uniform_int_distribution := fun a b g =>
       (a + g mod (b - a + 1), (g * 1103515245 + 12345) mod 2 ^ 31);
     beta_state := unit;
     beta_distribution := fun _ _ => tt;
     beta_call := fun st => ([d_of_Z 1; d_of_Z 2], st);
     custom_state := string;
     custom_distribution := fun file => Returned file;
     custom_call := fun st => ([d_of_Z 7; d_of_Z 8], st);
     iterator_value_type := Fp.Float32;
     cube_iterator_with_vector := fun c v =>
       replicate (Z.to_nat (Cube.m_size_k c)) (f32 10, 1, d_of_Z 40);
     elapsed_time_sec := fun i => d_of_Z (Z.of_nat i + 1);
     cube_of_main := fun sx sy sk img ts ex ps =>
       {| Cube.m_size_x := sx; Cube.m_size_y := sy; Cube.m_size_k := sk;
          Cube.u_cube := img;
          Cube.m_timestamp_list := omap Fp.trunc ts;
          Cube.m_exposuretime_list := ex;
          Cube.m_psf_list := ps;
          Cube.m_ra_dec_list := [];
          Cube.m_noise_list := [] |} |}.

(** The distribution object made from [slopes.txt]. *)
Definition loaded_slopes : @custom_state platform := "slopes.txt"%string.

(** A run with SLOPE_PDF_FILE set to [slopes.txt], and a timestamp file
    of two values. *)
Definition env_with_slope_file : os_env :=
  {| getenv := fun name =>
       if String.eqb name "SLOPE_PDF_FILE" then Some "slopes.txt"%string
       else if String.eqb name "TIMESTAMP_FILE" then Some "times.txt"%string
       else None;
     ifstream := fun name =>
       if String.eqb name "times.txt" then Some [Some (d_of_Z 0); Some (d_of_Z 1)]
       else None;
     stoll := fun _ => Some 2;
     PerFits_alloc_cube := fun _ => Some (4, 4, 4, 3, store) |}.

(** A run with no environment variable set. *)
Definition env_default : os_env :=
  {| getenv := fun _ => None;
     ifstream := fun _ => None;
     stoll := fun _ => None;
     PerFits_alloc_cube := fun _ => Some (4, 4, 4, 3, store) |}.

End Sample.

Import Sample.

(** ** Further names for the statements *)

(** A number: a zero or a finite value, not an infinity and not NaN. *)
Definition is_number (x : spec_float) : bool :=
  match x with
  | S754_zero _ | S754_finite _ _ _ => true
  | _ => false
  end.

(** A zero of either sign. *)
Definition is_zero (x : spec_float) : bool :=
  match x with S754_zero _ => true | _ => false end.

(** The message of a reader whose file does not have one value for each
    frame. *)
Definition count_message (file_name : string) : string :=
  "#of lines in " ++ file_name ++ " is not the same as #of fits files".

(** ** The rows a run is expected to store *)

Section ExpectedRows.

Context `{Platform}.

Variable cube : Cube.cube.

(** What one turn of the loop of [shoot_vector] makes of the engine and
    of the slope distribution of its thread: the row it stores, and the
    engine and the distribution it leaves. *)
Definition draw (g : rnd_engine) (d : slope_object)
    : result_row * (rnd_engine * slope_object) :=
  let drawn := call_slope d in
  let slopes := fst drawn in
  let x_start :=
    uniform_int_distribution 0 (start_upper_bound (fst (fst (Cube.size cube)))) g in
  let y_start :=
    uniform_int_distribution 0 (start_upper_bound (snd (fst (Cube.size cube))))
                             (snd x_start) in
  let current_vector :=
    {| x_slope := nth 0 slopes (d_of_Z 0); x_intercept := d_of_Z (fst x_start);
       y_slope := nth 1 slopes (d_of_Z 0); y_intercept := d_of_Z (fst y_start) |} in
  let v_info :=
    vector_info iterator_value_type
                (cube_iterator_with_vector cube current_vector) in
  ((current_vector, fst (fst v_info), to_double (snd (fst v_info)), snd v_info),
   (snd y_start, snd drawn)).

(** The rows a thread stores when it runs the iterations [iterations] one
    after the other, each with the index it is stored at. *)
Fixpoint thread_rows (g : rnd_engine) (d : slope_object) (iterations : list nat)
    : list (nat * result_row) :=
  match iterations with
  | [] => []
  | i :: rest =>
      (i, fst (draw g d))
      :: thread_rows (fst (snd (draw g d))) (snd (snd (draw g d))) rest
  end.

(** Storing rows at their indices, in order. *)
Definition store_rows (rows : list (nat * result_row))
    (result : list result_row) : list result_row :=
  fold_left (fun acc ir => <[fst ir := snd ir]> acc) rows result.

(** The result vector when the threads run one after the other, each
    from its own seed and with the beta distribution: thread 0 first, then
    thread 1, and so on. *)
Definition expected_rows (num_random_vector : Z) (chunks : list (list nat))
    : list result_row :=
  store_rows
    (concat (imap (fun (t : nat) (iterations : list nat) =>
                     thread_rows (mt19937 (123 + Z.of_nat t))
                                 (BetaObject (beta_distribution 3 2)) iterations)
                  chunks))
    (replicate (Z.to_nat num_random_vector) empty_row).

(** The rows the threads of a state have still to store. *)
Definition remaining_rows (ws : list worker) : list (nat * result_row) :=
  concat (map (fun w => thread_rows (w_engine w) (w_slope_distribution w)
                                    (w_iterations w)) ws).

(** What a state amounts to: the result vector once every thread has
    stored the rows it has still to store. *)
Definition completed (st : shared * list worker) : list result_row :=
  store_rows (remaining_rows (snd st)) (result (fst st)).

End ExpectedRows.

(** ** Programs that end by [exit] *)

(** How a run of one of the benchmark programs stands: it goes on with a
    state, it has called [exit] with a status, or it has left the
    behaviour the language defines. *)
Inductive run (S : Type) : Type :=
  | Done (s : S)
  | Exited (status : Z) (s : S)
  | Crashed (what : string) (s : S).

Arguments Done {S} s.
Arguments Exited {S} status s.
Arguments Crashed {S} what s.

(** The state a run has reached. *)
Definition reached {S : Type} (r : run S) : S :=
  match r with
  | Done s => s
  | Exited _ s => s
  | Crashed _ s => s
  end.

(** A loop whose body can end the process: the iterations in [order] are
    run one after the other until one of them does not go on. *)
Fixpoint run_loop {S I : Type} (body : S -> I -> run S) (order : list I) (s : S)
    : run S :=
  match order with
  | [] => Done s
  | x :: rest =>
      match body s x with
      | Done s' => run_loop body rest s'
      | stopped => stopped
      end
  end.

(** ** pfbenchmark/nvmebenchmark.cpp *)

Module Nvme.

(** The bytes of an unsigned integer in memory, least significant first,
    and the integer that bytes in memory stand for. *)
Fixpoint encode_le (n : nat) (v : Z) : list Z :=
  match n with
  | O => []
  | S n' => v mod 256 :: encode_le n' (v / 256)
  end.

Fixpoint decode_le (bytes : list Z) : Z :=
  match bytes with
  | [] => 0
  | b :: rest => b + 256 * decode_le rest
  end.

(** [*ptr = v] for a [uint64_t* ptr] at the start of a buffer, and
    [*ptr]. *)
Definition store_u64 (v : Z) (buf : list Z) : list Z :=
  encode_le 8 v ++ drop 8 buf.

Definition load_u64 (buf : list Z) : Z := decode_le (take 8 buf).

(** A file: its size and the byte at each offset. *)
Record file := {
  f_size : Z;
  f_byte : Z -> Z
}.

(** The file that [open] with [O_CREAT] makes when there is none. *)
Definition empty_file : file := {| f_size := 0; f_byte := fun _ => 0 |}.

(** The byte read at an offset: the bytes past the end of what was written
    and inside the size are zero. *)
Definition byte_at (f : file) (k : Z) : Z :=
  if (0 <=? k) && (k <? f_size f) then f_byte f k else 0.

(** [pwrite(fd, buf, length buf, off)] when it succeeds: the bytes of the
    buffer are in the file from [off] on, and the file is as long as
    needed; writing no byte changes nothing. *)
Definition pwrite (buf : list Z) (off : Z) (f : file) : file :=
  match buf with
  | [] => f
  | _ =>
      {| f_size := Z.max (f_size f) (off + vsize buf);
         f_byte := fun k =>
           if (off <=? k) && (k <? off + vsize buf)
           then nth (Z.to_nat (k - off)) buf 0
           else byte_at f k |}
  end.

(** [pread(fd, buf, n, off)] when it succeeds: the bytes read, which are
    fewer than [n] when the file ends before. *)
Definition pread (n off : Z) (f : file) : list Z :=
  map (byte_at f) (seqZ off (Z.min n (f_size f - off))).

(** [posix_fallocate(fd, 0, len)] when it succeeds. *)
Definition fallocate (len : Z) (f : file) : file :=
  {| f_size := Z.max (f_size f) len; f_byte := byte_at f |}.

(** What the system refuses: whether [open] fails although the file is
    there or can be made, the offsets at which a write or a read fails,
    and the sizes that cannot be allocated. A write or a read that does
    not fail is taken to transfer all the bytes asked for that the file
    has. *)
Record device := {
  open_error : bool;
  write_error : Z -> bool;
  read_error : Z -> bool;
  fallocate_error : Z -> bool
}.

(** The state of a run: the file behind [fd], the page buffer of each
    thread ([tmppagebuf]), and what was written to [std::cout] and by
    [perror] and [std::cerr]. *)
Record state := {
  st_file : file;
  st_bufs : list (list Z);
  st_out : list token;
  st_err : list (list token)
}.

Definition set_buf (t : nat) (buf : list Z) (st : state) : state :=
  {| st_file := st_file st; st_bufs := <[t := buf]> (st_bufs st);
     st_out := st_out st; st_err := st_err st |}.

Definition set_file (f : file) (st : state) : state :=
  {| st_file := f; st_bufs := st_bufs st;
     st_out := st_out st; st_err := st_err st |}.

Definition print (tokens : list token) (st : state) : state :=
  {| st_file := st_file st; st_bufs := st_bufs st;
     st_out := st_out st ++ tokens; st_err := st_err st |}.

(** [perror(msg)]: the message, given as what is printed before the
    text of the error. *)
Definition perror (msg : list token) (st : state) : state :=
  {| st_file := st_file st; st_bufs := st_bufs st;
     st_out := st_out st; st_err := st_err st ++ [msg] |}.

(** [i * pagesize / sizeof(uint64_t)] in [uint64_t]. *)
Definition page_word (pagesize i : Z) : Z := wrap64 (i * pagesize) / 8.

(** An offset passed as [off_t]: a value from 2^63 on is negative there,
    and the call fails. *)
Definition bad_offset (off : Z) : bool := 2 ^ 63 <=? off.

Section Pages.

Variable dev : device.
Variable pagesize : Z.

(** The body of the loop of [do_write_pages] for index [i], run by
    thread [t]. *)
Definition write_page (st : state) (ti : nat * Z) : run state :=
  let t := fst ti in
  let i := snd ti in
  match st_bufs st !! t with
  | None => Crashed "no buffer for this thread" st
  | Some buf =>
      if (vsize buf <? 8) || (vsize buf <? pagesize)
      then Crashed "access past the end of the buffer" st
      else
        let buf' := store_u64 (page_word pagesize i) buf in
        let st1 := set_buf t buf' st in
        let off := wrap64 (i * pagesize) in
        if bad_offset off || write_error dev off
        then Exited 1 (perror [Tstring "pwrite"] st1)
        else Done (set_file (pwrite (take (Z.to_nat pagesize) buf') off (st_file st1))
                            st1)
  end.

(** The body of the loop of [do_read_pages]. *)
Definition read_page (st : state) (ti : nat * Z) : run state :=
  let t := fst ti in
  let i := snd ti in
  match st_bufs st !! t with
  | None => Crashed "no buffer for this thread" st
  | Some buf =>
      let off := wrap64 (i * pagesize) in
      if bad_offset off || read_error dev off
      then Exited 1 (perror [Tstring "pread"] st)
      else if (vsize buf <? 8) || (vsize buf <? pagesize)
      then Crashed "access past the end of the buffer" st
      else
        let data := pread pagesize off (st_file st) in
        let buf' := data ++ drop (length data) buf in
        let st1 := set_buf t buf' st in
        if negb (load_u64 buf' =? page_word pagesize i)
        then Exited 1 (print [Tsize i; Tstring " "; Tsize (load_u64 buf');
                              Tstring " != "; Tsize (page_word pagesize i);
                              newline] st1)
        else Done st1
  end.

(** [do_write_pages(pages)] and [do_read_pages(pages)]: the iterations
    of the parallel loop, each with the thread that runs it, in the order
    in which they happen. When an iteration calls [exit], the run is
    given with the state that the thread which calls it has reached: what
    the other threads still read and print until the process has ended is
    not part of it. *)
Definition do_write_pages (order : list (nat * Z)) (st : state) : run state :=
  run_loop write_page order st.

Definition do_read_pages (order : list (nat * Z)) (st : state) : run state :=
  run_loop read_page order st.

End Pages.

(** [order] runs each of the iterations 0, ..., pages-1 once, on threads
    that have a buffer. *)
Definition loop_order (pages : Z) (threads : nat) (order : list (nat * Z)) : Prop :=
  map snd order ≡ₚ seqZ 0 pages
  /\ Forall (fun ti => (fst ti < threads)%nat) order.

(** The options of a run that the programs use ([umt_optstruct_t], filled
    by [umt_getoptions]). The header that declares them is not among the
    sources; the two numbers are taken as unsigned 64-bit fields. *)
Record options := {
  filename : string;
  numpages : Z;
  numthreads : Z
}.

(** What [posix_memalign] does for one thread: it reports a failure, it
    reports success and leaves a null pointer, or it gives a buffer, with
    the bytes the buffer happens to hold. *)
Inductive allocation : Type :=
  | Refused
  | Null
  | Buffer (bytes : list Z).

(** The rest of what a run depends on: the page size that
    [umt_getpagesize] returns, what [posix_memalign] does for each thread,
    the nanoseconds measured around the loop, and the order of the
    iterations of the parallel loop. *)
Record surroundings := {
  page_size : Z;
  memalign : nat -> allocation;
  elapsed_ns : Z;
  iterations : list (nat * Z)
}.

(** What a program leaves: the file named by the options, if there is
    one, and what it wrote. *)
Record system := {
  sys_file : option file;
  sys_out : list token;
  sys_err : list (list token)
}.

Definition opened (f : file) (bufs : list (list Z)) (sys : system) : state :=
  {| st_file := f; st_bufs := bufs; st_out := sys_out sys; st_err := sys_err sys |}.

Definition closed (st : state) : system :=
  {| sys_file := Some (st_file st); sys_out := st_out st; sys_err := st_err st |}.

Definition complain (msg : list token) (sys : system) : system :=
  {| sys_file := sys_file sys; sys_out := sys_out sys;
     sys_err := sys_err sys ++ [msg] |}.

(** The line a program prints after its loop. *)
Definition report (what : string) (opts : options) (sur : surroundings)
    : list token :=
  [ Tstring "nvme,"; Tstring "yes,"; Tstring what; Tsize (numthreads opts);
    Tstring ","; Tint 0; Tstring ",";
    Tsize (wrap64 (elapsed_ns sur) / numpages opts); newline ].

(** What follows the loop in [read_pages] and in [write_pages]: the report
    with the time for one page, an integer division by the number of
    pages, then [close] and [return 0]. *)
Definition finish (what : string) (opts : options) (sur : surroundings)
    (loop : run state) : run system :=
  match loop with
  | Done st =>
      if numpages opts =? 0 then Crashed "division by zero" (closed st)
      else Done (closed (print (report what opts sur) st))
  | Exited status st => Exited status (closed st)
  | Crashed what st => Crashed what (closed st)
  end.

Section Programs.

Variable dev : device.
Variable opts : options.
Variable sur : surroundings.

Definition read_pages (bufs : list (list Z)) (sys : system) : run system :=
  match (if open_error dev then None else sys_file sys) with
  | None => Exited 1 (complain [Tstring ("open failed" ++ String "010"%char "")] sys)
  | Some f =>
      finish "read," opts sur
             (do_read_pages dev (page_size sur) (iterations sur) (opened f bufs sys))
  end.

(** [posix_fallocate(fd, 0, len)] fails for a length that is not
    positive as an [off_t], and when the space cannot be allocated. *)
Definition fallocate_fails (len : Z) : bool :=
  (len =? 0) || bad_offset len || fallocate_error dev len.

Definition write_pages (bufs : list (list Z)) (sys : system) : run system :=
  (* unlink, then open with O_CREAT *)
  if open_error dev
  then Exited 1 (complain [Tstring ("open failed" ++ String "010"%char "")]
                          {| sys_file := None; sys_out := sys_out sys;
                             sys_err := sys_err sys |})
  else
    let len := wrap64 (numpages opts * page_size sur) in
    if fallocate_fails len
    then Exited 1 (complain [Tstring "Failed to pre-allocate "; Tsize len;
                             Tstring " bytes in "; Tstring (filename opts);
                             Tstring ": "]
                            {| sys_file := Some empty_file; sys_out := sys_out sys;
                               sys_err := sys_err sys |})
    else
      finish "write," opts sur
             (do_write_pages dev (page_size sur) (iterations sur)
                             (opened (fallocate len empty_file) bufs sys)).

(** The loop of [main] that allocates one buffer for each thread: the
    buffers, or the message of the first allocation that does not give
    one. *)
Fixpoint allocate (n : nat) (i : nat) : list (list Z) + list token :=
  match n with
  | O => inl []
  | S n' =>
      match memalign sur i with
      | Refused =>
          inr [Tstring ("ERROR: posix_memalign: failed" ++ String "010"%char "")]
      | Null =>
          inr [Tstring "Unable to allocate "; Tsize (page_size sur);
               Tstring (" bytes for temporary buffer" ++ String "010"%char "")]
      | Buffer buf =>
          match allocate n' (S i) with
          | inl bufs => inl (buf :: bufs)
          | inr msg => inr msg
          end
      end
  end.

(** [main], for the name the program is called by. *)
Definition main (argv0 : string) (sys : system) : run system :=
  match allocate (Z.to_nat (numthreads opts)) 0 with
  | inr msg => Exited 1 (complain msg sys)
  | inl bufs =>
      if String.eqb argv0 "nvmebenchmark-write" then write_pages bufs sys
      else if String.eqb argv0 "nvmebenchmark-read" then read_pages bufs sys
      else Done sys
  end.

End Programs.

End Nvme.

(** ** Names for the statements about the page benchmark *)

(** The integer in the first eight bytes of page [i] of a file. *)
Definition first_word (pagesize : Z) (f : Nvme.file) (i : Z) : Z :=
  Nvme.decode_le (map (Nvme.byte_at f) (seqZ (i * pagesize) 8)).

(** Page [i] is in the file and starts with the word the benchmark writes
    there. *)
Definition page_written (pagesize : Z) (f : Nvme.file) (i : Z) : Prop :=
  (i + 1) * pagesize <= Nvme.f_size f
  /\ first_word pagesize f i = Nvme.page_word pagesize i.

(** There is a buffer of at least one page for each thread. *)
Definition buffers_fit (pagesize : Z) (threads : nat) (bufs : list (list Z)) : Prop :=
  length bufs = threads /\ Forall (fun buf => pagesize <= vsize buf) bufs.

(** The system refuses nothing. *)
Definition no_error (dev : Nvme.device) : Prop :=
  Nvme.open_error dev = false
  /\ forall off, Nvme.write_error dev off = false
               /\ Nvme.read_error dev off = false
               /\ Nvme.fallocate_error dev off = false.

(** Each of the first [threads] allocations gives a buffer of one page. *)
Definition buffers_given (sur : Nvme.surroundings) (threads : nat) : Prop :=
  forall i, (i < threads)%nat ->
    exists buf, Nvme.memalign sur i = Nvme.Buffer buf
                /\ vsize buf = Nvme.page_size sur.

(** Every page of [0, pages) of the file starts with its word. *)
Definition pages_marked (pagesize pages : Z) (f : Nvme.file) : Prop :=
  forall j, 0 <= j < pages -> first_word pagesize f j = Nvme.page_word pagesize j.

(** ** A small run of the page benchmark *)

Module PageSample.

(** A system that refuses nothing. *)
Definition quiet : Nvme.device :=
  {| Nvme.open_error := false;
     Nvme.write_error := fun _ => false;
     Nvme.read_error := fun _ => false;
     Nvme.fallocate_error := fun _ => false |}.

(** Three pages on two threads. *)
Definition three_pages : Nvme.options :=
  {| Nvme.filename := "pages"; Nvme.numpages := 3; Nvme.numthreads := 2 |}.

(** No page. *)
Definition no_pages : Nvme.options :=
  {| Nvme.filename := "pages"; Nvme.numpages := 0; Nvme.numthreads := 2 |}.

(** Pages of sixteen bytes; the writing run goes through the pages in
    order, the reading run does not, and the buffers of the two runs do
    not hold the same bytes at the start. *)
Definition writing : Nvme.surroundings :=
  {| Nvme.page_size := 16;
     Nvme.memalign := fun _ => Nvme.Buffer (repeat 0 16);
     Nvme.elapsed_ns := 3000;
     Nvme.iterations := [(0%nat, 0); (1%nat, 1); (0%nat, 2)] |}.

Definition reading : Nvme.surroundings :=
  {| Nvme.page_size := 16;
     Nvme.memalign := fun _ => Nvme.Buffer (repeat 255 16);
     Nvme.elapsed_ns := 1500;
     Nvme.iterations := [(1%nat, 2); (0%nat, 0); (1%nat, 1)] |}.

Definition idle : Nvme.surroundings :=
  {| Nvme.page_size := 16;
     Nvme.memalign := fun _ => Nvme.Buffer (repeat 0 16);
     Nvme.elapsed_ns := 10;
     Nvme.iterations := [] |}.

Definition two_buffers : list (list Z) := [repeat 255 16; repeat 255 16].

(** Before the first run there is no file and nothing was printed. *)
Definition nothing : Nvme.system :=
  {| Nvme.sys_file := None; Nvme.sys_out := []; Nvme.sys_err := [] |}.

(** A file of three pages of zero bytes: page 0 starts with its word, the
    other two do not. *)
Definition zeros : Nvme.file := Nvme.fallocate 48 Nvme.empty_file.

Definition with_zeros : Nvme.system :=
  {| Nvme.sys_file := Some zeros; Nvme.sys_out := []; Nvme.sys_err := [] |}.

Definition reading_state : Nvme.state := Nvme.opened zeros two_buffers with_zeros.

End PageSample.

(** ** libumaptest/mmap.cpp *)

Module Umt.

(** The constants of the system headers that the function names.
    [O_LARGEFILE] is [None] where the headers do not define it. *)
Record constants := {
  O_RDWR : Z;
  O_DIRECT : Z;
  O_CREAT : Z;
  O_LARGEFILE : option Z;
  S_IRUSR : Z;
  S_IWUSR : Z;
  PROT_READ : Z;
  PROT_WRITE : Z;
  MAP_PRIVATE : Z;
  MAP_ANONYMOUS : Z;
  MAP_NORESERVE : Z;
  MAP_SHARED : Z
}.

(** [MAP_FAILED] is [(void* )-1]. *)
Definition MAP_FAILED : Z := -1.

(** The options that the function reads ([umt_optstruct_t]); the three
    numbers are tested for being zero or not. *)
Record umt_optstruct_t := {
  fn : string;
  iodirect : Z;
  noinit : Z;
  usemmap : Z
}.

Definition nonzero (v : Z) : bool := negb (v =? 0).

(** What the system decides: whether [open] fails although the file is
    there or can be made, the descriptor it returns otherwise, whether
    [fstat] fails, the sizes that cannot be allocated, and what [mmap]
    returns for a length, a protection, flags and a descriptor. *)
Record kernel := {
  open_refused : bool;
  descriptor : Z;
  fstat_refused : bool;
  fallocate_refused : Z -> bool;
  mapping : Z -> Z -> Z -> Z -> Z
}.

(** The state around a call: the file named [testops.fn], if there is
    one, what was written to the standard error stream, and the two
    variables that the function sets through its reference parameters. *)
Record state := {
  s_file : option Nvme.file;
  s_err : list (list token);
  s_fd : Z;
  s_region : Z
}.

Definition set_fd (fd : Z) (f : option Nvme.file) (st : state) : state :=
  {| s_file := f; s_err := s_err st; s_fd := fd; s_region := s_region st |}.

Definition set_file (f : option Nvme.file) (st : state) : state :=
  {| s_file := f; s_err := s_err st; s_fd := s_fd st; s_region := s_region st |}.

Definition set_region (region : Z) (st : state) : state :=
  {| s_file := s_file st; s_err := s_err st; s_fd := s_fd st; s_region := region |}.

(** [perror(msg)] and a line written to [cerr]: the message, given as what
    is printed before the text of the error. *)
Definition complain (msg : list token) (st : state) : state :=
  {| s_file := s_file st; s_err := s_err st ++ [msg];
     s_fd := s_fd st; s_region := s_region st |}.

(** The options of [open] have all the bits of [flag]. *)
Definition has_flag (flag options : Z) : bool := Z.land options flag =? flag.

(** [open(path, options, mode)]: the descriptor, -1 for a failure, and the
    file afterwards. A file that is not there is made, empty, when the
    options have [O_CREAT], and the call fails otherwise. *)
Definition open (c : constants) (k : kernel) (options : Z)
    (f : option Nvme.file) : Z * option Nvme.file :=
  if open_refused k then (-1, f)
  else
    match f with
    | Some _ => (descriptor k, f)
    | None =>
        if has_flag (O_CREAT c) options
        then (descriptor k, Some Nvme.empty_file)
        else (-1, None)
    end.

(** [fstat(fd, &sbuf)]: [sbuf.st_size], or nothing when the call fails. *)
Definition fstat (k : kernel) (f : option Nvme.file) : option Z :=
  match f with
  | None => None
  | Some f => if fstat_refused k then None else Some (Nvme.f_size f)
  end.

(** [posix_fallocate(fd, 0, len)]: the file afterwards, or nothing when
    the call does not return 0, as it does for a length that is not
    positive as an [off_t]. *)
Definition posix_fallocate (k : kernel) (len : Z) (f : option Nvme.file)
    : option Nvme.file :=
  match f with
  | None => None
  | Some f =>
      if (len =? 0) || Nvme.bad_offset len || fallocate_refused k len
      then None
      else Some (Nvme.fallocate len f)
  end.

Section OpenAndMap.

Variable c : constants.
Variable k : kernel.

(** The options that the function passes to [open]. *)
Definition open_options (testops : umt_optstruct_t) : Z :=
  let open_options := O_RDWR c in
  let open_options :=
    if nonzero (iodirect testops) then Z.lor open_options (O_DIRECT c)
    else open_options in
  let open_options :=
    if negb (nonzero (noinit testops)) then Z.lor open_options (O_CREAT c)
    else open_options in
  match O_LARGEFILE c with
  | Some large => Z.lor open_options large
  | None => open_options
  end.

(** The flags and the descriptor that the function passes to [mmap]. *)
Definition map_arguments (testops : umt_optstruct_t) (fd : Z) : Z * Z :=
  if negb (nonzero (usemmap testops))
  then (Z.lor (Z.lor (MAP_PRIVATE c) (MAP_ANONYMOUS c)) (MAP_NORESERVE c), -1)
  else (MAP_SHARED c, fd).

(** From [posix_fallocate] to the end of the function. *)
Definition allocate_and_map (testops : umt_optstruct_t) (numbytes : Z)
    (st : state) : run state :=
  match posix_fallocate k numbytes (s_file st) with
  | None => Exited (-1) (complain [Tstring "posix_fallocate"] st)
  | Some f =>
      let st := set_file (Some f) st in
      let prot := Z.lor (PROT_READ c) (PROT_WRITE c) in
      let '(flags, my_fd) := map_arguments testops (s_fd st) in
      let st := set_region (mapping k numbytes prot flags my_fd) st in
      if s_region st =? MAP_FAILED
      then Exited (-1) (complain [Tstring "mmap"] st)
      else Done st
  end.

(** [umt_openandmap(testops, numbytes, fd, region)]. *)
Definition umt_openandmap (testops : umt_optstruct_t) (numbytes : Z)
    (st : state) : run state :=
  let '(fd, f) := open c k (open_options testops) (s_file st) in
  let st := set_fd fd f st in
  if s_fd st =? -1 then Exited (-1) (complain [Tstring "open"] st)
  else if nonzero (noinit testops)
  then
    match fstat k (s_file st) with
    | None => Exited (-1) (complain [Tstring "fstat"] st)
    | Some st_size =>
        if wrap64 st_size <? numbytes
        then Exited (-1)
               (complain [Tstring (fn testops);
                          Tstring " file is not large enough.  ";
                          Tlonglong st_size; Tstring " < size requested ";
                          Tsize numbytes; Tendl] st)
        else allocate_and_map testops numbytes st
    end
  else allocate_and_map testops numbytes st.

End OpenAndMap.

End Umt.

(** ** Names for the statements about the mapping of a file *)

(** No other flag of [open] shares a bit with [O_CREAT], which has one. *)
Definition creat_is_apart (c : Umt.constants) : Prop :=
  Umt.O_CREAT c <> 0
  /\ Z.land (Umt.O_RDWR c) (Umt.O_CREAT c) = 0
  /\ Z.land (Umt.O_DIRECT c) (Umt.O_CREAT c) = 0
  /\ match Umt.O_LARGEFILE c with
     | Some large => Z.land large (Umt.O_CREAT c) = 0
     | None => True
     end.

(** Two files have the same size and the same bytes. *)
Definition same_content (f g : Nvme.file) : Prop :=
  Nvme.f_size f = Nvme.f_size g
  /\ forall k, Nvme.byte_at f k = Nvme.byte_at g k.

(** A file is as it was: it is not made where there was none, and it has
    the size and the bytes it had. *)
Definition file_kept (before after : option Nvme.file) : Prop :=
  match before, after with
  | None, None => True
  | Some f, Some g => same_content f g
  | _, _ => False
  end.

(** The system refuses nothing. *)
Definition willing (k : Umt.kernel) : Prop :=
  Umt.open_refused k = false
  /\ Umt.descriptor k <> -1
  /\ Umt.fstat_refused k = false
  /\ (forall len, Umt.fallocate_refused k len = false)
  /\ forall len prot flags fd, Umt.mapping k len prot flags fd <> Umt.MAP_FAILED.

(** ** A small mapping *)

Module MapSample.

(** The constants of Linux on x86-64. *)
Definition linux : Umt.constants :=
  {| Umt.O_RDWR := 2; Umt.O_DIRECT := 16384; Umt.O_CREAT := 64;
     Umt.O_LARGEFILE := Some 0;
     Umt.S_IRUSR := 256; Umt.S_IWUSR := 128;
     Umt.PROT_READ := 1; Umt.PROT_WRITE := 2;
     Umt.MAP_PRIVATE := 2; Umt.MAP_ANONYMOUS := 32; Umt.MAP_NORESERVE := 16384;
     Umt.MAP_SHARED := 1 |}.

(** A system that refuses nothing: descriptor 3, and a mapping at an
    address that is not [MAP_FAILED]. *)
Definition easy : Umt.kernel :=
  {| Umt.open_refused := false; Umt.descriptor := 3;
     Umt.fstat_refused := false; Umt.fallocate_refused := fun _ => false;
     Umt.mapping := fun _ _ _ _ => 4096 |}.

Definition fresh : Umt.umt_optstruct_t :=
  {| Umt.fn := "data"; Umt.iodirect := 0; Umt.noinit := 0; Umt.usemmap := 1 |}.

Definition reuse : Umt.umt_optstruct_t :=
  {| Umt.fn := "data"; Umt.iodirect := 1; Umt.noinit := 1; Umt.usemmap := 0 |}.

(** No file, and a file of 48 bytes. *)
Definition no_file : Umt.state :=
  {| Umt.s_file := None; Umt.s_err := []; Umt.s_fd := 0; Umt.s_region := 0 |}.

Definition small_file : Umt.state :=
  {| Umt.s_file := Some PageSample.zeros; Umt.s_err := [];
     Umt.s_fd := 0; Umt.s_region := 0 |}.

End MapSample.

(** * Properties *)

(** ** The outcome monad *)

Lemma bind_returned {A B : Type} (m : outcome A) (f : A -> outcome B) (b : B) :
  m ≫= f = Returned b -> exists a, m = Returned a /\ f a = Returned b.
Proof.
  destruct m as [a| | |]; simpl; intros Hb; try discriminate.
  exists a. split; [reflexivity | exact Hb].
Qed.

Lemma assert_true (b : bool) (expr : string) :
  b = true -> assert b expr = Returned tt.
Proof. intros ->. reflexivity. Qed.

Lemma assert_returned (b : bool) (expr : string) (u : unit) :
  assert b expr = Returned u -> b = true.
Proof. destruct b; [reflexivity | discriminate]. Qed.

(** ** Checks of the model on the sample *)

(** [dark_noise] is the double nearest to 0.417: its distance to 417/1000
    is at most half a unit of its last place. *)
Lemma dark_noise_nearest :
  dark_noise = S754_finite false 7512004178453987 (-54)
  /\ 2 * Z.abs (7512004178453987 * 1000 - 417 * 2 ^ 54) <= 1000.
Proof. split; [vm_compute; reflexivity | vm_compute; discriminate]. Qed.

(** [std::round]: halfway cases go away from zero, and the sign of a
    result that is zero is kept. *)
Lemma round_halfway :
  Fp.round (ddiv (d_of_Z 5) (d_of_Z 2)) = d_of_Z 3
  /\ Fp.round (ddiv (d_of_Z (-5)) (d_of_Z 2)) = d_of_Z (-3)
  /\ Fp.round (ddiv (d_of_Z 1) (d_of_Z 2)) = d_of_Z 1
  /\ Fp.round (ddiv (d_of_Z 49) (d_of_Z 100)) = d_of_Z 0
  /\ Fp.round (ddiv (d_of_Z (-1)) (d_of_Z 3)) = S754_zero true.
Proof. repeat split; vm_compute; reflexivity. Qed.

(** The build without OpenMP: three draws measured 1, 2 and 3 seconds
    add up to 6 seconds, and three rows are stored. *)
Lemma shoot_vector_serial_sample :
  exists rows,
    shoot_vector_serial the_cube env_default 3 = Returned (d_of_Z 6, rows)
    /\ length rows = 3%nat.
Proof. eexists. split; [vm_compute; reflexivity | reflexivity]. Qed.

(** ** Integers in a [double] *)

Lemma digits2_pos_size (m : positive) : digits2_pos m = Pos.size m.
Proof. induction m as [m IH | m IH |]; simpl; congruence. Qed.

Lemma digits2_pos_bound (m : positive) (n : Z) :
  Z.pos m < 2 ^ n -> 0 <= n -> Z.pos (digits2_pos m) <= n.
Proof.
  intros Hm Hn. rewrite digits2_pos_size.
  pose proof (Pos.size_le m) as Hle.
  apply Pos2Z.pos_le_pos in Hle. rewrite Pos2Z.inj_pow in Hle.
  change (Z.pos m~0) with (2 * Z.pos m) in Hle.
  apply Z.lt_succ_r. apply (Z.pow_lt_mono_r_iff 2); [lia | lia |].
  rewrite Z.pow_succ_r by lia. change (Z.pos 2) with 2 in Hle. lia.
Qed.

Lemma iter_xO_value (m p : positive) :
  Z.pos (Pos.iter xO m p) = Z.pos m * 2 ^ Z.pos p.
Proof.
  rewrite (Pos.iter_swap_gen _ _ Z.pos xO (Z.mul 2)) by reflexivity.
  rewrite <- Z.shiftl_mul_pow2 by lia. reflexivity.
Qed.

Lemma digits2_pos_iter_xO (m p : positive) :
  digits2_pos (Pos.iter xO m p) = (digits2_pos m + p)%positive.
Proof.
  rewrite (Pos.iter_swap_gen _ _ digits2_pos xO Pos.succ) by reflexivity.
  induction p as [| p IH] using Pos.peano_ind.
  - simpl. lia.
  - rewrite Pos.iter_succ, IH. lia.
Qed.

(** A mantissa of 53 bits with an exponent in range is not shifted. *)
Lemma shr_fexp_normal (mz : positive) (ez : Z) :
  Z.pos (digits2_pos mz) = 53 -> -1074 <= ez ->
  shr_fexp 53 1024 (Z.pos mz) ez loc_Exact
  = ({| shr_m := Z.pos mz; shr_r := false; shr_s := false |}, ez).
Proof.
  intros Hd He. unfold shr_fexp.
  replace (fexp 53 1024 (Zdigits2 (Z.pos mz) + ez) - ez) with 0
    by (unfold fexp, emin, Zdigits2; lia).
  reflexivity.
Qed.

Lemma binary_round_aux_normal (s : bool) (mz : positive) (ez : Z) :
  Z.pos (digits2_pos mz) = 53 -> -1074 <= ez <= 971 ->
  binary_round_aux 53 1024 s (Z.pos mz) ez loc_Exact = S754_finite s mz ez.
Proof.
  intros Hd He. unfold binary_round_aux.
  rewrite (shr_fexp_normal mz ez Hd) by lia.
  cbn [shr_m loc_of_shr_record round_nearest_even].
  rewrite (shr_fexp_normal mz ez Hd) by lia.
  cbn [shr_m].
  replace (ez <=? 1024 - 53) with true by (symmetry; apply Z.leb_le; lia).
  reflexivity.
Qed.

(** An integer below 2^53 is normalised by a shift to the left: no bit is
    lost. *)
Lemma binary_round_integer (s : bool) (m : positive) :
  Z.pos m < 2 ^ 53 ->
  exists (mz : positive) (ez : Z),
    binary_round 53 1024 s m 0 = S754_finite s mz ez
    /\ ez <= 0 /\ Z.pos mz = Z.pos m * 2 ^ (- ez).
Proof.
  intros Hm.
  pose proof (digits2_pos_bound m 53 Hm ltac:(lia)) as Hd.
  unfold binary_round.
  replace (fexp 53 1024 (Z.pos (digits2_pos m) + 0)) with (Z.pos (digits2_pos m) - 53)
    by (unfold fexp, emin; lia).
  unfold shl_align.
  destruct (Z.pos (digits2_pos m) - 53 - 0) as [| p | p] eqn:Hp; try lia.
  - exists m, 0. split; [| split; [lia | simpl; lia]].
    apply binary_round_aux_normal; lia.
  - exists (Pos.iter xO m p), (Z.pos (digits2_pos m) - 53).
    split; [| split; [lia |]].
    + apply binary_round_aux_normal; [| lia].
      rewrite digits2_pos_iter_xO. lia.
    + rewrite iter_xO_value. f_equal. f_equal. lia.
Qed.

(** The conversion of an integer of less than 54 bits to [double] is
    exact. *)
Lemma d_of_Z_exact (z : Z) :
  - 2 ^ 53 < z < 2 ^ 53 -> Fp.to_Z_exact (d_of_Z z) = Some z.
Proof.
  intros Hz. unfold d_of_Z, Fp.of_Z, binary_normalize.
  change (Fp.prec Fp.Float64) with 53. change (Fp.emax Fp.Float64) with 1024.
  destruct z as [| m | m]; [reflexivity | |].
  - destruct (binary_round_integer false m ltac:(lia)) as (mz & ez & -> & He & Hmz).
    unfold Fp.to_Z_exact. rewrite Hmz.
    destruct (0 <=? ez) eqn:H0.
    + apply Z.leb_le in H0. replace ez with 0 by lia. simpl. f_equal. lia.
    + rewrite Z.mod_mul by lia. rewrite Z.div_mul by lia. reflexivity.
  - destruct (binary_round_integer true m ltac:(lia)) as (mz & ez & -> & He & Hmz).
    unfold Fp.to_Z_exact. rewrite Hmz.
    destruct (0 <=? ez) eqn:H0.
    + apply Z.leb_le in H0. replace ez with 0 by lia. simpl. f_equal. lia.
    + rewrite Z.mod_mul by lia. rewrite Z.div_mul by lia. reflexivity.
Qed.

(** ** Conversions keep numbers numbers *)

Section RoundingNeverNaN.

Variable prec emax : Z.

Lemma shr_1_nonneg (mrs : shr_record) :
  0 <= shr_m mrs -> 0 <= shr_m (shr_1 mrs).
Proof.
  destruct mrs as [m r s]. destruct m as [| p | p]; try destruct p; simpl; lia.
Qed.

Lemma iter_shr_1_nonneg (n : positive) : forall mrs : shr_record,
  0 <= shr_m mrs -> 0 <= shr_m (SpecFloat.iter_pos shr_1 n mrs).
Proof.
  induction n as [n IH | n IH |]; intros mrs Hm; simpl.
  - apply IH, IH, shr_1_nonneg, Hm.
  - apply IH, IH, Hm.
  - apply shr_1_nonneg, Hm.
Qed.

Lemma shr_fexp_nonneg (m e : Z) (l : location) :
  0 <= m -> 0 <= shr_m (fst (shr_fexp prec emax m e l)).
Proof.
  intros Hm. unfold shr_fexp, shr.
  assert (H0 : 0 <= shr_m (shr_record_of_loc m l))
    by (destruct l as [| []]; exact Hm).
  destruct (fexp prec emax (Zdigits2 m + e) - e) as [| p | p]; cbn [fst];
    [exact H0 | apply iter_shr_1_nonneg, H0 | exact H0].
Qed.

Lemma round_nearest_even_nonneg (m : Z) (l : location) :
  0 <= m -> 0 <= round_nearest_even m l.
Proof.
  intros Hm. unfold round_nearest_even.
  destruct l as [| []]; try destruct (Z.even m); lia.
Qed.

Lemma binary_round_aux_not_nan (sx : bool) (mx ex : Z) (lx : location) :
  0 <= mx -> binary_round_aux prec emax sx mx ex lx <> S754_nan.
Proof.
  intros Hm. unfold binary_round_aux.
  pose proof (shr_fexp_nonneg mx ex lx Hm) as H1.
  destruct (shr_fexp prec emax mx ex lx) as [mrs' e']. cbn [fst] in H1.
  pose proof (shr_fexp_nonneg _ e' loc_Exact
                (round_nearest_even_nonneg _ (loc_of_shr_record mrs') H1)) as H2.
  destruct (shr_fexp prec emax _ e' loc_Exact) as [mrs'' e'']. cbn [fst] in H2.
  destruct (shr_m mrs'') as [| p | p]; [discriminate | | lia].
  destruct (e'' <=? emax - prec); discriminate.
Qed.

Lemma binary_round_not_nan (s : bool) (m : positive) (e : Z) :
  binary_round prec emax s m e <> S754_nan.
Proof.
  unfold binary_round.
  destruct (shl_align m e _) as [mz ez].
  apply binary_round_aux_not_nan. lia.
Qed.

End RoundingNeverNaN.

(** A conversion between the floating-point types gives NaN for NaN
    only. *)
Lemma convert_is_nan (t : Fp.fp_type) (x : spec_float) :
  Fp.is_nan (Fp.convert t x) = Fp.is_nan x.
Proof.
  destruct x as [s | s | | s m e]; try reflexivity.
  unfold Fp.convert.
  pose proof (binary_round_not_nan (Fp.prec t) (Fp.emax t) s m e) as Hn.
  destruct (binary_round (Fp.prec t) (Fp.emax t) s m e); simpl; congruence.
Qed.

(** ** The statistics accumulator *)

Lemma pow2_readout_noise : pow2 readout_noise = d_of_Z 49.
Proof. vm_compute. reflexivity. Qed.

Section VectorInfoProps.

Variable value_type : Fp.fp_type.

Lemma vi_body_no_data (st : vi_state) (info : snr_info) :
  has_data info = false -> vi_body value_type st info = st.
Proof.
  destruct info as [[pixel n] e]. unfold has_data, vi_body.
  cbn [fst snd]. unfold is_nan. rewrite convert_is_nan.
  destruct (Fp.is_nan pixel); [reflexivity | discriminate].
Qed.

Lemma vi_body_data (st : vi_state) (info : snr_info) :
  has_data info = true ->
  vi_body value_type st info =
    {| total_signal := Fp.add value_type (total_signal st) (step_value value_type info);
       total_exposure := total_exposure st;
       total_B := dadd (total_B st) (B_term value_type info);
       total_R := dadd (total_R st) (R_term info);
       total_D := dadd (total_D st) (D_term info);
       total_time := dadd (total_time st) (step_exposure info);
       frame_num := frame_num st + 1 |}.
Proof.
  destruct info as [[pixel n] e].
  unfold has_data, step_value, vi_body, B_term, R_term, D_term,
    step_value, step_pixels, step_exposure. cbn [fst snd].
  unfold is_nan. rewrite convert_is_nan.
  destruct (Fp.is_nan pixel); [discriminate |].
  intros _. rewrite pow2_readout_noise. reflexivity.
Qed.

(** The loop, from any state: every total moves by the sum of its terms
    over the data steps. *)
Lemma vi_loop (steps : list snr_info) : forall st : vi_state,
  fold_left (vi_body value_type) steps st =
    let ds := data_steps steps in
    {| total_signal := sum_of (Fp.add value_type) (step_value value_type) (total_signal st) ds;
       total_exposure := total_exposure st;
       total_B := sum_of dadd (B_term value_type) (total_B st) ds;
       total_R := sum_of dadd R_term (total_R st) ds;
       total_D := sum_of dadd D_term (total_D st) ds;
       total_time := sum_of dadd step_exposure (total_time st) ds;
       frame_num := frame_num st + Z.of_nat (length ds) |}.
Proof.
  induction steps as [| info rest IH]; intros st.
  - simpl. rewrite Z.add_0_r. destruct st; reflexivity.
  - cbn [fold_left]. rewrite IH. unfold data_steps. cbn [List.filter].
    destruct (has_data info) eqn:Hd.
    + rewrite (vi_body_data _ _ Hd). cbn [length sum_of fold_left].
      cbv zeta. unfold sum_of. simpl total_signal. simpl total_B.
      simpl total_R. simpl total_D. simpl total_time. simpl total_exposure.
      simpl frame_num. f_equal. lia.
    + rewrite (vi_body_no_data _ _ Hd). reflexivity.
Qed.

Lemma vector_info_nonempty (steps : list snr_info) :
  steps <> [] -> vector_info value_type steps = accumulated value_type steps.
Proof.
  intros Hne. destruct steps as [| info rest]; [congruence |].
  unfold vector_info. rewrite vi_loop. reflexivity.
Qed.

Lemma data_steps_none (steps : list snr_info) :
  Forall (fun info => has_data info = false) steps ->
  data_steps steps = [].
Proof.
  induction 1 as [| info rest Hd _ IH]; [reflexivity |].
  unfold data_steps in *. cbn [List.filter]. rewrite Hd. exact IH.
Qed.

End VectorInfoProps.

(** C2, as amended. When no step of the sequence has data, [vector_info]
    returns a sum of 0 and 0 frames hit. The SNR is 0 only for the empty
    sequence, where the function returns before the loop; for a sequence
    that is not empty the quotient 0 * sqrt(0) / sqrt(0) is computed, and
    it is NaN. *)
Theorem vector_info_no_data (value_type : Fp.fp_type) (steps : list snr_info) :
  Forall (fun info => has_data info = false) steps ->
  vector_info value_type steps =
    (match steps with [] => S754_zero false | _ => S754_nan end,
     S754_zero false, 0).
Proof.
  intros Hnone. destruct steps as [| info rest] eqn:Hsteps.
  - destruct value_type; reflexivity.
  - rewrite <- Hsteps in *. rewrite vector_info_nonempty by (subst; discriminate).
    unfold accumulated. rewrite (data_steps_none _ Hnone).
    destruct value_type; vm_compute; reflexivity.
Qed.

Lemma vector_info_no_data_witness :
  Forall (fun info => has_data info = false)
         [no_data_step; no_data_step]
  /\ vector_info Fp.Float32 [no_data_step; no_data_step]
     = (S754_nan, S754_zero false, 0).
Proof.
  split.
  - repeat constructor.
  - apply (vector_info_no_data Fp.Float32 [no_data_step; no_data_step]).
    repeat constructor.
Defined.

(** C2 as stated fails: a sequence of one step without data is a sequence
    in which no data step occurs, and the SNR returned for it is NaN, not
    0. *)
Lemma vector_info_no_data_counterexample :
  Forall (fun info => has_data info = false) [no_data_step]
  /\ vector_info Fp.Float32 [no_data_step] <> (d_of_Z 0, Fp.of_Z Fp.Float32 0, 0).
Proof.
  split.
  - repeat constructor.
  - vm_compute. discriminate.
Qed.

(** C3. On a sequence with at least one data step, [vector_info] passes
    over the steps without data and returns the totals of the accumulation
    rule over the data steps: the sum of the values [v], the number of
    data steps, and [signal * sqrt(exposure) / sqrt(signal + B + D + R)]
    where [B], [D], [R] and [exposure] are the sums, from 0 and in the
    order of the steps, of [(v/3) * n], [0.417 * n], [n * 49 / e] and [e].
    The constant of the [D] term is the [double] nearest to 417/1000. *)
Theorem vector_info_accumulates (value_type : Fp.fp_type) (steps : list snr_info) :
  Exists (fun info => has_data info = true) steps ->
  let ds := List.filter has_data steps in
  let v info := Fp.convert value_type (fst (fst info)) in
  let n info := d_of_Z (snd (fst info)) in
  let e info := snd info in
  let total plus term zero :=
    fold_left (fun acc info => plus acc (term info)) ds zero in
  let signal := total (Fp.add value_type) v (Fp.of_Z value_type 0) in
  let exposure := total dadd e (d_of_Z 0) in
  let B :=
    total dadd
          (fun info =>
             dmul (to_double (Fp.div value_type (v info) (Fp.of_Z value_type 3)))
                  (n info))
          (d_of_Z 0) in
  let D :=
    total dadd (fun info => dmul (ddiv (d_of_Z 417) (d_of_Z 1000)) (n info))
          (d_of_Z 0) in
  let R :=
    total dadd (fun info => ddiv (dmul (n info) (d_of_Z 49)) (e info))
          (d_of_Z 0) in
  vector_info value_type steps
  = (ddiv (dmul (to_double signal) (dsqrt exposure))
          (dsqrt (dadd (dadd (dadd (to_double signal) B) D) R)),
     signal,
     Z.of_nat (length ds))
  /\ ddiv (d_of_Z 417) (d_of_Z 1000) = S754_finite false 7512004178453987 (-54)
  /\ 2 * Z.abs (7512004178453987 * 1000 - 417 * 2 ^ 54) <= 1000.
Proof.
  intros Hex. cbv zeta. split.
  - rewrite vector_info_nonempty by (intros ->; inversion Hex). reflexivity.
  - split; [vm_compute; reflexivity | vm_compute; discriminate].
Qed.

(** Three data steps of value 10, one pixel and exposure 40: the sum is
    30, three frames are hit, and the SNR is the closed form with 10/3,
    0.417 and 49/40 added three times each. *)
Lemma vector_info_three_frames :
  Exists (fun info => has_data info = true) three_frames
  /\ vector_info Fp.Float32 three_frames =
       (let B := to_double (Fp.div Fp.Float32 (f32 10) (f32 3)) in
        let D := ddiv (d_of_Z 417) (d_of_Z 1000) in
        let R := ddiv (d_of_Z 49) (d_of_Z 40) in
        let sum3 x := dadd (dadd (dadd (d_of_Z 0) x) x) x in
        ddiv (dmul (d_of_Z 30) (dsqrt (d_of_Z 120)))
             (dsqrt (dadd (dadd (dadd (d_of_Z 30) (sum3 B)) (sum3 D)) (sum3 R))),
        f32 30, 3).
Proof.
  assert (Hex : Exists (fun info => has_data info = true) three_frames)
    by (left; reflexivity).
  split; [exact Hex |].
  rewrite (proj1 (vector_info_accumulates Fp.Float32 three_frames Hex)).
  vm_compute. reflexivity.
Defined.

(** ** The cube *)

Lemma at_index_lookup {A : Type} (v : list A) (k : Z) :
  0 <= k < vsize v ->
  exists a, v !! Z.to_nat k = Some a /\ at_index v k = Returned a.
Proof.
  intros Hk. unfold vsize in Hk.
  destruct (v !! Z.to_nat k) as [a |] eqn:Hl.
  - exists a. split; [reflexivity |]. unfold at_index. rewrite Hl. reflexivity.
  - apply lookup_ge_None in Hl. lia.
Qed.

(** An accessor of the cube on an index below the size of its list. *)
Lemma checked_access {A : Type} (v : list A) (k : Z) (expr : string) :
  0 <= k < vsize v ->
  exists a, v !! Z.to_nat k = Some a
            /\ (assert (k <? vsize v) expr ;; at_index v k) = Returned a.
Proof.
  intros Hk. destruct (at_index_lookup v k Hk) as (a & Hl & Ha).
  exists a. split; [exact Hl |].
  rewrite assert_true by (apply Z.ltb_lt; lia). exact Ha.
Qed.

(** What the constructor establishes. *)
Lemma make_returned sx sy sk img ts ex ps rd ns (c : Cube.cube) :
  Cube.make sx sy sk img ts ex ps rd ns = Returned c ->
  c = {| Cube.m_size_x := sx; Cube.m_size_y := sy; Cube.m_size_k := sk;
         Cube.u_cube := img;
         Cube.m_timestamp_list := ts; Cube.m_exposuretime_list := ex;
         Cube.m_psf_list := ps; Cube.m_ra_dec_list := rd;
         Cube.m_noise_list := ns |}
  /\ sk <= vsize ts /\ sk <= vsize ex /\ sk <= vsize ps
  /\ sk <= vsize rd /\ sk <= vsize ns.
Proof.
  unfold Cube.make. cbn [Cube.m_size_k Cube.m_timestamp_list
    Cube.m_exposuretime_list Cube.m_psf_list Cube.m_ra_dec_list
    Cube.m_noise_list].
  intros H.
  repeat match type of H with
  | (assert ?b ?e ≫= _) = Returned _ =>
      let Hb := fresh "Hb" in
      destruct b eqn:Hb; [cbn [assert mbind outcome_bind] in H | discriminate H]
  end.
  injection H as <-.
  repeat match goal with Hb : (_ <=? _) = true |- _ => apply Z.leb_le in Hb end.
  repeat split; assumption.
Qed.

(** C5. In a cube built by the constructor with the metadata lists, the
    accessors [timestamp], [exposuretime], [psf] and [noise] on a frame
    index below [size_k] pass their assertion and return the element of
    that index of the list given to the constructor. *)
Theorem accessors_within_frames sx sy sk img ts ex ps rd ns (c : Cube.cube) (k : Z) :
  Cube.make sx sy sk img ts ex ps rd ns = Returned c ->
  0 <= k < sk ->
  exists (t : Z) (e p n : double),
    ts !! Z.to_nat k = Some t /\ ex !! Z.to_nat k = Some e
    /\ ps !! Z.to_nat k = Some p /\ ns !! Z.to_nat k = Some n
    /\ Cube.timestamp c k = Returned t
    /\ Cube.exposuretime c k = Returned e
    /\ Cube.psf c k = Returned p
    /\ Cube.noise c k = Returned n.
Proof.
  intros Hmake Hk.
  destruct (make_returned _ _ _ _ _ _ _ _ _ _ Hmake)
    as (-> & Hts & Hex & Hps & _ & Hns).
  unfold Cube.timestamp, Cube.exposuretime, Cube.psf, Cube.noise.
  cbn [Cube.m_timestamp_list Cube.m_exposuretime_list Cube.m_psf_list
       Cube.m_noise_list].
  destruct (checked_access ts k "k < m_timestamp_list.size()") as (t & Ht & Hat);
    [lia |].
  destruct (checked_access ex k "k < this->m_exposuretime_list.size()")
    as (e & He & Hae); [lia |].
  destruct (checked_access ps k "k < this->m_psf_list.size()") as (p & Hp & Hap);
    [lia |].
  destruct (checked_access ns k "k < m_noise_list.size()") as (n & Hn & Han);
    [lia |].
  exists t, e, p, n. repeat split; assumption.
Qed.

Lemma accessors_within_frames_witness :
  Cube.make 4 4 3 store timestamps exposures psfs ra_decs noises = Returned the_cube
  /\ Cube.timestamp the_cube 2 = Returned 300
  /\ Cube.exposuretime the_cube 2 = Returned (d_of_Z 40).
Proof.
  assert (Hmake : Cube.make 4 4 3 store timestamps exposures psfs ra_decs noises
                  = Returned the_cube) by reflexivity.
  split; [exact Hmake |].
  destruct (accessors_within_frames 4 4 3 store timestamps exposures psfs
              ra_decs noises the_cube 2 Hmake ltac:(lia))
    as (t & e & p & n & Ht & He & _ & _ & Hat & Hae & _).
  injection Ht as <-. injection He as <-.
  split; assumption.
Defined.

(** ** Conversion to [size_t] *)

Lemma to_Z_exact_trunc (v : spec_float) (n : Z) :
  Fp.to_Z_exact v = Some n -> Fp.trunc v = Some n.
Proof.
  destruct v as [s | s | | s m e]; simpl; try congruence.
  destruct (0 <=? e); [congruence |].
  destruct (Z.pos m mod 2 ^ (- e) =? 0); congruence.
Qed.

Lemma double_to_size_t_in_range (v : spec_float) (n : Z) :
  Fp.to_Z_exact v = Some n -> 0 <= n < 2 ^ 64 ->
  double_to_size_t v = Returned n.
Proof.
  intros Hv Hn. unfold double_to_size_t. rewrite (to_Z_exact_trunc _ _ Hv).
  replace (- 2 ^ 63 <? n) with true by (symmetry; apply Z.ltb_lt; lia).
  replace (n <? 2 ^ 64) with true by (symmetry; apply Z.ltb_lt; lia).
  cbn [andb]. unfold wrap64. rewrite Z.mod_small by lia. reflexivity.
Qed.

Lemma double_to_size_t_negative (v : spec_float) (n x : Z) :
  Fp.to_Z_exact v = Some n -> - 2 ^ 63 < n < 0 ->
  double_to_size_t v = Returned x -> x = 2 ^ 64 + n.
Proof.
  intros Hv Hn. unfold double_to_size_t. rewrite (to_Z_exact_trunc _ _ Hv).
  replace (- 2 ^ 63 <? n) with true by (symmetry; apply Z.ltb_lt; lia).
  replace (n <? 2 ^ 64) with true by (symmetry; apply Z.ltb_lt; lia).
  cbn [andb]. unfold wrap64. intros [= <-].
  rewrite <- (Z.mod_add n 1 (2 ^ 64)) by lia.
  rewrite Z.mod_small by lia. lia.
Qed.

(** The two timestamps [get_rnd_coord] reads, and what it computes from
    them. *)
Lemma get_rnd_coord_unfold sx sy sk img ts ex ps rd ns (c : Cube.cube)
    (index : Z) (xs ys : double) :
  Cube.make sx sy sk img ts ex ps rd ns = Returned c ->
  0 <= snd (Cube.u_get_rnd_coord img index) < sk ->
  exists tk t0 : Z,
    ts !! Z.to_nat (snd (Cube.u_get_rnd_coord img index)) = Some tk
    /\ ts !! 0%nat = Some t0
    /\ Cube.get_rnd_coord c index xs ys =
         (let time_offset := d_of_Z (wrap64 (tk - t0)) in
          let x0 := fst (fst (Cube.u_get_rnd_coord img index)) in
          let y0 := snd (fst (Cube.u_get_rnd_coord img index)) in
          x ← double_to_size_t (Cube.back_projection x0 xs time_offset);
          y ← double_to_size_t (Cube.back_projection y0 ys time_offset);
          mret (x, y, 0)).
Proof.
  intros Hmake Hk.
  destruct (make_returned _ _ _ _ _ _ _ _ _ _ Hmake) as (-> & Hts & _).
  unfold Cube.get_rnd_coord, Cube.timestamp.
  cbn [Cube.u_cube Cube.m_timestamp_list].
  destruct (checked_access ts (snd (Cube.u_get_rnd_coord img index))
              "k < m_timestamp_list.size()") as (tk & Htk & Hak); [lia |].
  destruct (checked_access ts 0 "k < m_timestamp_list.size()")
    as (t0 & Ht0 & Ha0); [lia |].
  exists tk, t0. split; [exact Htk |]. split; [exact Ht0 |].
  rewrite Hak. cbn [mbind outcome_bind]. rewrite Ha0. reflexivity.
Qed.

(** C6, as amended. When the pixel store resolves the index to
    [(x0, y0, k)] with [k] a frame of the cube, and the two rounded
    positions [round(p0 - slope * time_offset)] are in the range of
    [size_t], [get_rnd_coord] returns exactly these two integers with
    frame index 0. The elapsed time [time_offset] is the difference
    [timestamp(k) - timestamp(0)] of the two [unsigned long] values, taken
    modulo 2^64 before it becomes a [double]: it is the elapsed time when
    the timestamp of frame [k] is not before that of frame 0. Whenever the
    call returns, the frame index returned is 0. *)
Theorem get_rnd_coord_back_projects sx sy sk img ts ex ps rd ns (c : Cube.cube)
    (index : Z) (xs ys : double) (x0 y0 k tk t0 : Z) :
  Cube.make sx sy sk img ts ex ps rd ns = Returned c ->
  Cube.u_get_rnd_coord img index = (x0, y0, k) ->
  0 <= k < sk ->
  ts !! Z.to_nat k = Some tk ->
  ts !! 0%nat = Some t0 ->
  let time_offset := d_of_Z ((tk - t0) mod 2 ^ 64) in
  let vx := Fp.round (dsub (d_of_Z x0) (dmul xs time_offset)) in
  let vy := Fp.round (dsub (d_of_Z y0) (dmul ys time_offset)) in
  (forall nx ny : Z,
     Fp.to_Z_exact vx = Some nx -> 0 <= nx < 2 ^ 64 ->
     Fp.to_Z_exact vy = Some ny -> 0 <= ny < 2 ^ 64 ->
     Cube.get_rnd_coord c index xs ys = Returned (nx, ny, 0))
  /\ (0 <= t0 <= tk /\ tk < 2 ^ 64 -> time_offset = d_of_Z (tk - t0))
  /\ (forall x y k', Cube.get_rnd_coord c index xs ys = Returned (x, y, k') ->
        k' = 0).
Proof.
  intros Hmake Hcoord Hk Htk Ht0 time_offset vx vy.
  assert (Hk' : 0 <= snd (Cube.u_get_rnd_coord img index) < sk)
    by (rewrite Hcoord; exact Hk).
  destruct (get_rnd_coord_unfold sx sy sk img ts ex ps rd ns c index xs ys Hmake Hk')
    as (tk' & t0' & Htk' & Ht0' & Hget).
  rewrite Hcoord in Htk', Hget. cbn [fst snd] in Htk', Hget.
  rewrite Htk in Htk'. injection Htk' as <-.
  rewrite Ht0 in Ht0'. injection Ht0' as <-.
  cbv zeta in Hget. unfold Cube.back_projection, wrap64 in Hget.
  fold time_offset in Hget. fold vx vy in Hget.
  split; [| split].
  - intros nx ny Hvx Hnx Hvy Hny. rewrite Hget.
    rewrite (double_to_size_t_in_range _ _ Hvx Hnx).
    cbn [mbind outcome_bind].
    rewrite (double_to_size_t_in_range _ _ Hvy Hny).
    reflexivity.
  - intros Hordered. unfold time_offset. rewrite Z.mod_small by lia. reflexivity.
  - intros x y k'. rewrite Hget. intros Hret.
    apply bind_returned in Hret as (x' & _ & Hret).
    apply bind_returned in Hret as (y' & _ & Hret).
    injection Hret as _ _ <-. reflexivity.
Qed.

(** Pixel 47 of the example store is (3, 3) on frame 2, 200 time units
    after frame 0; with slopes 1/100 and 1/400 it is projected back to
    (round(3 - 2), round(3 - 0.5)) = (1, 3) on frame 0. *)
Lemma get_rnd_coord_back_projects_witness :
  Cube.get_rnd_coord the_cube 47 slope_100 slope_400 = Returned (1, 3, 0).
Proof.
  assert (Hmake : Cube.make 4 4 3 store timestamps exposures psfs ra_decs noises
                  = Returned the_cube) by reflexivity.
  assert (Hk : 0 <= 2 < 3) by lia.
  destruct (get_rnd_coord_back_projects 4 4 3 store timestamps exposures psfs
              ra_decs noises the_cube 47 slope_100 slope_400 3 3 2 300 100 Hmake
              eq_refl Hk eq_refl eq_refl)
    as (Hexact & _ & _).
  apply Hexact.
  - vm_compute. reflexivity.
  - lia.
  - vm_compute. reflexivity.
  - lia.
Defined.

(** C6 as stated fails: it is for every index and every pair of slopes.
    Pixel 37 of the example store is (1, 1) on frame 2, 200 time units
    after frame 0. With the slopes 1/100 and 1/400 the rounded position on
    the x axis is round(1 - 2) = -1, and the x coordinate returned is
    2^64 - 1. *)
Lemma get_rnd_coord_back_projects_counterexample :
  Cube.u_get_rnd_coord store 37 = (1, 1, 2)
  /\ Cube.timestamp the_cube 2 = Returned 300
  /\ Cube.timestamp the_cube 0 = Returned 100
  /\ Fp.to_Z_exact
       (Fp.round (dsub (d_of_Z 1) (dmul slope_100 (d_of_Z (300 - 100)))))
     = Some (-1)
  /\ Cube.get_rnd_coord the_cube 37 slope_100 slope_400
     = Returned (2 ^ 64 - 1, 1, 0)
  /\ 2 ^ 64 - 1 <> -1.
Proof.
  repeat split; try (vm_compute; reflexivity). lia.
Qed.

(** C10. [get_rnd_coord] returns whatever the conversion to [size_t]
    gives, with no check against the sizes of the cube. When the rounded
    position on an axis is negative (the slope times the elapsed time
    exceeds the resolved position), the coordinate returned on that axis
    is the position plus 2^64, at least 2^63, hence beyond the size of the
    cube on that axis. *)
Theorem get_rnd_coord_wraps sx sy sk img ts ex ps rd ns (c : Cube.cube)
    (index : Z) (xs ys : double) (tk t0 x y : Z) :
  Cube.make sx sy sk img ts ex ps rd ns = Returned c ->
  0 <= snd (Cube.u_get_rnd_coord img index) < sk ->
  ts !! Z.to_nat (snd (Cube.u_get_rnd_coord img index)) = Some tk ->
  ts !! 0%nat = Some t0 ->
  let time_offset := d_of_Z (wrap64 (tk - t0)) in
  let vx := Cube.back_projection (fst (fst (Cube.u_get_rnd_coord img index)))
                                 xs time_offset in
  let vy := Cube.back_projection (snd (fst (Cube.u_get_rnd_coord img index)))
                                 ys time_offset in
  double_to_size_t vx = Returned x ->
  double_to_size_t vy = Returned y ->
  sx <= 2 ^ 63 -> sy <= 2 ^ 63 ->
  Cube.get_rnd_coord c index xs ys = Returned (x, y, 0)
  /\ (forall nx, Fp.to_Z_exact vx = Some nx -> - 2 ^ 63 < nx < 0 ->
        x = 2 ^ 64 + nx /\ Cube.m_size_x c <= x)
  /\ (forall ny, Fp.to_Z_exact vy = Some ny -> - 2 ^ 63 < ny < 0 ->
        y = 2 ^ 64 + ny /\ Cube.m_size_y c <= y).
Proof.
  intros Hmake Hk Htk Ht0 time_offset vx vy Hx Hy Hsx Hsy.
  destruct (get_rnd_coord_unfold sx sy sk img ts ex ps rd ns c index xs ys Hmake Hk)
    as (tk' & t0' & Htk' & Ht0' & Hget).
  rewrite Htk in Htk'. injection Htk' as <-.
  rewrite Ht0 in Ht0'. injection Ht0' as <-.
  cbv zeta in Hget. fold time_offset in Hget. fold vx vy in Hget.
  rewrite Hx, Hy in Hget. cbn [mbind outcome_bind] in Hget.
  destruct (make_returned _ _ _ _ _ _ _ _ _ _ Hmake) as (-> & _).
  cbn [Cube.m_size_x Cube.m_size_y].
  split; [exact Hget |]. split.
  - intros nx Hvx Hnx.
    pose proof (double_to_size_t_negative _ _ _ Hvx Hnx Hx) as ->.
    split; [reflexivity | lia].
  - intros ny Hvy Hny.
    pose proof (double_to_size_t_negative _ _ _ Hvy Hny Hy) as ->.
    split; [reflexivity | lia].
Qed.

(** Pixel 37 of the example store is (1, 1) on frame 2. With the positive
    slopes 1/100 and 1/400 the position on the x axis is round(1 - 2) =
    -1, and the x coordinate returned is 2^64 - 1 in a cube 4 pixels
    wide. *)
Lemma get_rnd_coord_wraps_witness :
  SFltb (d_of_Z 0) slope_100 = true /\ SFltb (d_of_Z 0) slope_400 = true
  /\ Cube.get_rnd_coord the_cube 37 slope_100 slope_400
     = Returned (2 ^ 64 - 1, 1, 0)
  /\ Cube.m_size_x the_cube <= 2 ^ 64 - 1.
Proof.
  assert (Hmake : Cube.make 4 4 3 store timestamps exposures psfs ra_decs noises
                  = Returned the_cube) by reflexivity.
  destruct (get_rnd_coord_wraps 4 4 3 store timestamps exposures psfs
              ra_decs noises the_cube 37 slope_100 slope_400 300 100
              (2 ^ 64 - 1) 1 Hmake
              ltac:(change (0 <= 2 < 3); lia)
              ltac:(reflexivity) ltac:(reflexivity)
              ltac:(vm_compute; reflexivity) ltac:(vm_compute; reflexivity)
              ltac:(lia) ltac:(lia))
    as (Hget & Hx & _).
  split; [reflexivity |]. split; [reflexivity |]. split; [exact Hget |].
  destruct (Hx (-1) ltac:(vm_compute; reflexivity) ltac:(lia)) as [_ Hle].
  exact Hle.
Defined.

(** ** Loading the metadata *)

Lemma read_list_mismatch (E : os_env) (variable file : string)
    (default : Z -> double) (contents : list (option double)) (size_k : Z) :
  getenv E variable = Some file ->
  ifstream E file = Some contents ->
  vsize (extract_all contents) <> size_k ->
  read_list E variable default size_k =
    Aborted ("#of lines in " ++ file ++ " is not the same as #of fits files").
Proof.
  intros Hvar Hfile Hsize. unfold read_list. rewrite Hvar, Hfile.
  destruct (vsize (extract_all contents) =? size_k) eqn:Heq.
  - apply Z.eqb_eq in Heq. contradiction.
  - reflexivity.
Qed.

(** A reader returns its list or aborts; it ends in no other way. *)
Lemma read_list_ends (E : os_env) (variable : string) (default : Z -> double)
    (size_k : Z) :
  (exists l, read_list E variable default size_k = Returned l)
  \/ (exists msg, read_list E variable default size_k = Aborted msg).
Proof.
  unfold read_list. destruct (getenv E variable) as [file |]; [| eauto].
  destruct (ifstream E file) as [contents |]; [| eauto].
  destruct (negb _); eauto.
Qed.

Lemma eval_arg_ends (E : os_env) (size_k : Z) (md : metadata) (a : metadata_arg) :
  (exists md', eval_arg E size_k md a = Returned md')
  \/ (exists msg, eval_arg E size_k md a = Aborted msg).
Proof.
  destruct a; unfold eval_arg, read_timestamp, read_exposuretime, read_psf;
    match goal with
    | |- context [read_list ?E ?v ?d ?k] =>
        destruct (read_list_ends E v d k) as [[l ->] | [msg ->]]
    end; cbn [mbind outcome_bind]; eauto.
Qed.

Lemma eval_arg_aborts (E : os_env) (size_k : Z) (md : metadata)
    (a : metadata_arg) (msg : string) :
  read_arg E size_k a = Aborted msg -> eval_arg E size_k md a = Aborted msg.
Proof. destruct a; simpl; intros ->; reflexivity. Qed.

Lemma eval_args_aborts (E : os_env) (size_k : Z) (a : metadata_arg) (msg : string)
    (order : list metadata_arg) :
  read_arg E size_k a = Aborted msg ->
  In a order ->
  forall md, exists msg', eval_args E size_k order md = Aborted msg'.
Proof.
  intros Habort. induction order as [| b rest IH]; intros Hin md.
  - destruct Hin.
  - cbn [eval_args].
    destruct (eval_arg_ends E size_k md b) as [[md' Hb] | [msg' Hb]].
    + destruct Hin as [-> | Hin].
      * rewrite (eval_arg_aborts _ _ md _ _ Habort) in Hb. discriminate.
      * rewrite Hb. cbn [mbind outcome_bind]. apply IH. exact Hin.
    + rewrite Hb. eauto.
Qed.

Lemma read_list_default (E : os_env) (variable : string) (default : Z -> double)
    (size_k : Z) :
  getenv E variable = None ->
  exists l, read_list E variable default size_k = Returned l.
Proof. intros Hvar. unfold read_list. rewrite Hvar. eauto. Qed.

Lemma eval_arg_default (E : os_env) (size_k : Z) (md : metadata) (b : metadata_arg) :
  getenv E (arg_variable b) = None ->
  exists md', eval_arg E size_k md b = Returned md'.
Proof.
  intros Hvar.
  destruct b; unfold eval_arg, read_timestamp, read_exposuretime, read_psf;
    match goal with
    | |- context [read_list ?E ?v ?d ?k] =>
        destruct (read_list_default E v d k Hvar) as [l ->]
    end; cbn [mbind outcome_bind]; eauto.
Qed.

(** When only the mismatched file is configured, the evaluation of the
    arguments ends with its message, in whatever order. *)
Lemma eval_args_reports (E : os_env) (size_k : Z) (a : metadata_arg) (msg : string)
    (order : list metadata_arg) :
  read_arg E size_k a = Aborted msg ->
  (forall b, b <> a -> getenv E (arg_variable b) = None) ->
  In a order ->
  forall md, eval_args E size_k order md = Aborted msg.
Proof.
  intros Habort Hothers. induction order as [| b rest IH]; intros Hin md.
  - destruct Hin.
  - cbn [eval_args].
    assert (Hdec : b = a \/ b <> a) by (destruct a, b; auto; right; discriminate).
    destruct Hdec as [-> | Hne].
    + rewrite (eval_arg_aborts _ _ md _ _ Habort). reflexivity.
    + destruct (eval_arg_default E size_k md b (Hothers b Hne)) as [md' ->].
      cbn [mbind outcome_bind]. apply IH.
      destruct Hin as [-> | Hin]; [contradiction | exact Hin].
Qed.

(** C7. When the variable of a metadata file is set and the file opens,
    but the number of values read from it is not the number of frames, the
    reader aborts with the message that names the file. [main] then ends
    aborted, whatever the order in which it evaluates the three readers,
    before the cube is built and any vector is shot; when no other
    metadata file is configured, it ends with that message. *)
Theorem metadata_count_mismatch_is_fatal `{Platform} (E : os_env)
    (a : metadata_arg) (file : string) (contents : list (option double))
    (size_k : Z) :
  getenv E (arg_variable a) = Some file ->
  ifstream E file = Some contents ->
  vsize (extract_all contents) <> size_k ->
  let message :=
    ("#of lines in " ++ file ++ " is not the same as #of fits files")%string in
  read_arg E size_k a = Aborted message
  /\ forall (filename : string) (size_x size_y : Z) (image_data : Cube.umap_fits_cube)
            (order : list metadata_arg) (chunks : list (list nat))
            (schedule : list nat),
       map_fits E filename = Returned (size_x, size_y, size_k, image_data) ->
       In a order ->
       (exists msg, main E filename order chunks schedule = Aborted msg)
       /\ ((forall b, b <> a -> getenv E (arg_variable b) = None) ->
           main E filename order chunks schedule = Aborted message).
Proof.
  intros Hvar Hfile Hsize message.
  assert (Hread : read_arg E size_k a = Aborted message).
  { destruct a; apply read_list_mismatch with (contents := contents); assumption. }
  split; [exact Hread |].
  intros filename size_x size_y image_data order chunks schedule Hmap Hin.
  unfold main. rewrite Hmap. cbn [mbind outcome_bind].
  split.
  - destruct (eval_args_aborts E size_k a _ order Hread Hin
                {| md_timestamp := None; md_exposuretime := None; md_psf := None |})
      as [msg' ->].
    eexists. reflexivity.
  - intros Hothers.
    rewrite (eval_args_reports E size_k a message order Hread Hothers Hin).
    reflexivity.
Qed.

(** The timestamp file of the example has two values for three frames,
    and no other metadata file is configured. *)
Lemma metadata_count_mismatch_is_fatal_witness :
  read_timestamp env_with_slope_file 3 =
    Aborted "#of lines in times.txt is not the same as #of fits files"
  /\ main env_with_slope_file "cube.fits" [ArgPsf; ArgExposuretime; ArgTimestamp]
          [[0%nat]; [1%nat]] [0; 0; 1; 1]%nat
     = Aborted "#of lines in times.txt is not the same as #of fits files".
Proof.
  destruct (metadata_count_mismatch_is_fatal env_with_slope_file ArgTimestamp
              "times.txt" [Some (d_of_Z 0); Some (d_of_Z 1)] 3
              ltac:(reflexivity) ltac:(reflexivity) ltac:(vm_compute; discriminate))
    as [Hread Hmain].
  split; [exact Hread |].
  destruct (Hmain "cube.fits"%string 4 4 store
              [ArgPsf; ArgExposuretime; ArgTimestamp]
              [[0%nat]; [1%nat]] [0; 0; 1; 1]%nat eq_refl
              ltac:(right; right; left; reflexivity)) as [_ Hmsg].
  apply Hmsg. intros b Hb. destruct b; [contradiction | reflexivity | reflexivity].
Defined.

(** ** The slope distribution the loop calls *)

Section Shooting.

Context `{Platform}.

(** Whatever the [if] declares, the name [slope_distribution] denotes
    the beta distribution where the loop starts. *)
Lemma slope_distribution_in_scope (E : os_env) (sc : scopes) :
  declare_slope_distribution E = Returned sc ->
  lookup_name "slope_distribution" sc = Some (BetaObject (beta_distribution 3 2)).
Proof.
  unfold declare_slope_distribution.
  destruct (getenv E "SLOPE_PDF_FILE") as [file |].
  - destruct (custom_distribution file) as [st | | |]; try discriminate.
    intros [= <-]. reflexivity.
  - intros [= <-]. reflexivity.
Qed.

Lemma worker_start_returned (E : os_env) (sc : scopes) (t : Z)
    (iterations : list nat) :
  declare_slope_distribution E = Returned sc ->
  worker_start E t iterations =
    Returned {| w_engine := mt19937 (123 + t);
                w_slope_distribution := BetaObject (beta_distribution 3 2);
                w_iterations := iterations;
                w_pending_sum := None |}.
Proof.
  intros Hsc. unfold worker_start. rewrite Hsc. cbn [mbind outcome_bind].
  rewrite (slope_distribution_in_scope E sc Hsc). reflexivity.
Qed.

Lemma declare_with_file (E : os_env) (file : string) (st : custom_state) :
  getenv E "SLOPE_PDF_FILE" = Some file ->
  custom_distribution file = Returned st ->
  exists sc, declare_slope_distribution E = Returned sc.
Proof.
  intros Henv Hst. unfold declare_slope_distribution. rewrite Henv, Hst.
  eexists. reflexivity.
Qed.

Lemma declare_without_file (E : os_env) :
  getenv E "SLOPE_PDF_FILE" = None ->
  exists sc, declare_slope_distribution E = Returned sc.
Proof.
  intros Henv. unfold declare_slope_distribution. rewrite Henv.
  eexists. reflexivity.
Qed.

Lemma start_workers_returned (E : os_env) (sc : scopes)
    (chunks : list (list nat)) :
  declare_slope_distribution E = Returned sc ->
  forall t : Z,
    start_workers E t chunks =
      Returned (imap (fun (n : nat) (iterations : list nat) =>
                        {| w_engine := mt19937 (123 + (t + Z.of_nat n));
                           w_slope_distribution := BetaObject (beta_distribution 3 2);
                           w_iterations := iterations;
                           w_pending_sum := None |}) chunks).
Proof.
  intros Hsc. induction chunks as [| its rest IH]; intros t.
  - reflexivity.
  - cbn [start_workers]. rewrite (worker_start_returned E sc t its Hsc).
    cbn [mbind outcome_bind]. rewrite IH. cbn [mbind outcome_bind mret outcome_ret imap].
    f_equal. f_equal.
    + do 3 f_equal. lia.
    + apply imap_ext. intros n its' _. cbn. do 3 f_equal. lia.
Qed.

Lemma without_slope_file_unset (E : os_env) :
  getenv (without_slope_file E) "SLOPE_PDF_FILE" = None.
Proof. reflexivity. Qed.

(** ** The result vector under any schedule *)

Variable cube : Cube.cube.

Lemma thread_step_result_length (st : shared * list worker) (t : nat) :
  length (result (fst (thread_step cube st t))) = length (result (fst st)).
Proof.
  destruct st as [sh ws]. unfold thread_step.
  destruct (ws !! t) as [w |]; [| reflexivity].
  destruct (w_pending_sum w); [reflexivity |].
  destruct (w_iterations w) as [| i rest]; [reflexivity |].
  cbn [fst snd loop_body result]. apply length_insert.
Qed.

Lemma schedule_result_length (schedule : list nat) :
  forall st : shared * list worker,
    length (result (fst (fold_left (thread_step cube) schedule st)))
    = length (result (fst st)).
Proof.
  induction schedule as [| t rest IH]; intros st; [reflexivity |].
  cbn [fold_left]. rewrite IH. apply thread_step_result_length.
Qed.

Lemma shoot_vector_length (E : os_env) (N : Z) (chunks : list (list nat))
    (schedule : list nat) (time : double) (rows : list result_row) :
  shoot_vector cube E N chunks schedule = Returned (time, rows) ->
  length rows = Z.to_nat N.
Proof.
  unfold shoot_vector. intros Hshoot.
  apply bind_returned in Hshoot as (ws & _ & Hshoot).
  injection Hshoot as _ <-.
  rewrite schedule_result_length. cbn [fst result]. apply length_replicate.
Qed.

(** ** The timing sum with one thread *)

Lemma thread_step_draw (sh : shared) (ws : list worker) (t : nat) (w : worker)
    (i : nat) (rest : list nat) :
  ws !! t = Some w -> w_pending_sum w = None -> w_iterations w = i :: rest ->
  thread_step cube (sh, ws) t
  = (snd (loop_body cube w sh i), <[t := fst (loop_body cube w sh i)]> ws).
Proof.
  intros Hw Hpending Hits. unfold thread_step. rewrite Hw, Hpending, Hits.
  reflexivity.
Qed.

Lemma thread_step_write (sh : shared) (ws : list worker) (t : nat) (w : worker)
    (sum : double) :
  ws !! t = Some w -> w_pending_sum w = Some sum ->
  thread_step cube (sh, ws) t
  = ({| total_execution_time := sum; result := result sh |},
     <[t := {| w_engine := w_engine w;
               w_slope_distribution := w_slope_distribution w;
               w_iterations := w_iterations w;
               w_pending_sum := None |}]> ws).
Proof.
  intros Hw Hpending. unfold thread_step. rewrite Hw, Hpending. reflexivity.
Qed.

(** One thread on its own completes each [+=] before it starts the next
    draw: after the two steps of each of its iterations the total is the
    sum, in order, of the times measured. *)
Lemma single_thread_total (iterations : list nat) :
  forall (sh : shared) (w : worker),
    w_iterations w = iterations ->
    w_pending_sum w = None ->
    total_execution_time
      (fst (fold_left (thread_step cube)
                      (replicate (2 * length iterations) 0%nat) (sh, [w])))
    = fold_left (fun acc i => dadd acc (elapsed_time_sec i)) iterations
                (total_execution_time sh).
Proof.
  induction iterations as [| i rest IH]; intros sh w Hits Hpending.
  - reflexivity.
  - replace (2 * length (i :: rest))%nat with (S (S (2 * length rest))) by (simpl; lia).
    cbn [replicate fold_left].
    rewrite (thread_step_draw sh [w] 0 w i rest eq_refl Hpending Hits).
    cbn [insert list_insert].
    rewrite (thread_step_write _ [fst (loop_body cube w sh i)] 0
               (fst (loop_body cube w sh i))
               (dadd (total_execution_time sh) (elapsed_time_sec i))
               eq_refl eq_refl).
    cbn [insert list_insert].
    rewrite IH; [reflexivity | cbn; rewrite Hits; reflexivity | reflexivity].
Qed.

Lemma shoot_vector_serial_total (E : os_env) (N : Z) (time : double)
    (rows : list result_row) :
  shoot_vector_serial cube E N = Returned (time, rows) ->
  N < 2 ^ 31
  /\ time = fold_left (fun acc i => dadd acc (elapsed_time_sec i))
                      (seq 0 (Z.to_nat N)) (d_of_Z 0).
Proof.
  unfold shoot_vector_serial. intros Hshoot.
  destruct (2 ^ 31 <=? N) eqn:Hbound; [discriminate |].
  apply Z.leb_gt in Hbound. split; [exact Hbound |].
  unfold shoot_vector in Hshoot.
  apply bind_returned in Hshoot as (ws & Hws & Hshoot).
  injection Hshoot as <- _.
  cbn [start_workers] in Hws.
  apply bind_returned in Hws as (w & Hw & Hws).
  injection Hws as <-.
  unfold worker_start in Hw.
  apply bind_returned in Hw as (sc & _ & Hw).
  destruct (lookup_name "slope_distribution" sc); [| discriminate].
  injection Hw as <-.
  pose proof (single_thread_total (seq 0 (Z.to_nat N))) as Hsum.
  rewrite length_seq in Hsum. rewrite Hsum by reflexivity. reflexivity.
Qed.

(** ** The start positions under any schedule *)

Context `{!PlatformSpec}.

Hypothesis size_x_fits : 1 <= Cube.m_size_x cube <= 2 ^ 31.
Hypothesis size_y_fits : 1 <= Cube.m_size_y cube <= 2 ^ 31.

Lemma start_upper_bound_fits (size : Z) :
  1 <= size <= 2 ^ 31 -> start_upper_bound size = size - 1.
Proof.
  intros Hs. unfold start_upper_bound, to_int, wrap64.
  rewrite (Z.mod_small (size - 1)) by lia.
  rewrite Z.mod_small by lia. lia.
Qed.

Lemma loop_body_on_grid (w : worker) (sh : shared) (i : nat) :
  Forall (starts_on_grid (Cube.m_size_x cube) (Cube.m_size_y cube)) (result sh) ->
  Forall (starts_on_grid (Cube.m_size_x cube) (Cube.m_size_y cube))
         (result (snd (loop_body cube w sh i))).
Proof.
  intros Hall. cbn [snd loop_body result]. apply Forall_insert; [exact Hall |].
  unfold starts_on_grid. cbn [fst snd x_intercept y_intercept Cube.size].
  rewrite !start_upper_bound_fits by assumption.
  set (x_start := uniform_int_distribution 0 (Cube.m_size_x cube - 1) (w_engine w)).
  set (y_start := uniform_int_distribution 0 (Cube.m_size_y cube - 1) (snd x_start)).
  pose proof (uniform_int_range 0 (Cube.m_size_x cube - 1) (w_engine w) ltac:(lia))
    as Hxi.
  pose proof (uniform_int_range 0 (Cube.m_size_y cube - 1) (snd x_start) ltac:(lia))
    as Hyi.
  fold x_start in Hxi. fold y_start in Hyi.
  exists (fst x_start), (fst y_start).
  split; [lia |]. split; [lia |].
  split; [reflexivity |]. split; [reflexivity |].
  split; apply d_of_Z_exact; lia.
Qed.

Lemma thread_step_on_grid (st : shared * list worker) (t : nat) :
  Forall (starts_on_grid (Cube.m_size_x cube) (Cube.m_size_y cube))
         (result (fst st)) ->
  Forall (starts_on_grid (Cube.m_size_x cube) (Cube.m_size_y cube))
         (result (fst (thread_step cube st t))).
Proof.
  destruct st as [sh ws]. unfold thread_step. cbn [fst]. intros Hall.
  destruct (ws !! t) as [w |]; [| exact Hall].
  destruct (w_pending_sum w); [exact Hall |].
  destruct (w_iterations w) as [| i rest]; [exact Hall |].
  cbn [fst]. apply loop_body_on_grid. exact Hall.
Qed.

Lemma schedule_on_grid (schedule : list nat) :
  forall st : shared * list worker,
    Forall (starts_on_grid (Cube.m_size_x cube) (Cube.m_size_y cube))
           (result (fst st)) ->
    Forall (starts_on_grid (Cube.m_size_x cube) (Cube.m_size_y cube))
           (result (fst (fold_left (thread_step cube) schedule st))).
Proof.
  induction schedule as [| t rest IH]; intros st Hall; [exact Hall |].
  cbn [fold_left]. apply IH. apply thread_step_on_grid. exact Hall.
Qed.

Lemma empty_row_on_grid :
  starts_on_grid (Cube.m_size_x cube) (Cube.m_size_y cube) empty_row.
Proof. exists 0, 0. repeat split; lia. Qed.

End Shooting.

(** C1 fails on the program. With SLOPE_PDF_FILE set and the file loaded,
    the distribution made from the file is declared in the block of the
    [if] and is gone when that statement ends: every thread enters the
    loop with [slope_distribution] naming the beta distribution of
    parameters 3 and 2, and the whole run draws the slopes it would draw
    with the variable not set. *)
Theorem slope_file_is_ignored `{Platform} (cube : Cube.cube) (E : os_env)
    (file : string) (st : custom_state) :
  getenv E "SLOPE_PDF_FILE" = Some file ->
  custom_distribution file = Returned st ->
  (forall (t : Z) (iterations : list nat),
     worker_start E t iterations =
       Returned {| w_engine := mt19937 (123 + t);
                   w_slope_distribution := BetaObject (beta_distribution 3 2);
                   w_iterations := iterations;
                   w_pending_sum := None |})
  /\ (forall (N : Z) (chunks : list (list nat)) (schedule : list nat),
        shoot_vector cube E N chunks schedule =
        shoot_vector cube (without_slope_file E) N chunks schedule).
Proof.
  intros Henv Hst.
  destruct (declare_with_file E file st Henv Hst) as [sc Hsc].
  destruct (declare_without_file (without_slope_file E)
              (without_slope_file_unset E)) as [sc' Hsc'].
  split.
  - intros t iterations. exact (worker_start_returned E sc t iterations Hsc).
  - intros N chunks schedule. unfold shoot_vector.
    rewrite (start_workers_returned E sc chunks Hsc 0).
    rewrite (start_workers_returned (without_slope_file E) sc' chunks Hsc' 0).
    reflexivity.
Qed.

(** In the example the distribution made from the file would return the
    slopes 7 and 8; the vector stored for the draw has the slopes 1 and 2
    of the beta object. *)
Lemma slope_file_is_ignored_witness :
  getenv env_with_slope_file "SLOPE_PDF_FILE" = Some "slopes.txt"%string
  /\ custom_distribution "slopes.txt" = Returned loaded_slopes
  /\ fst (custom_call loaded_slopes) = [d_of_Z 7; d_of_Z 8]
  /\ exists time row,
       shoot_vector the_cube env_with_slope_file 1 [[0%nat]] [0; 0]%nat
       = Returned (time, [row])
       /\ x_slope (fst (fst (fst row))) = d_of_Z 1
       /\ y_slope (fst (fst (fst row))) = d_of_Z 2.
Proof.
  split; [reflexivity |]. split; [reflexivity |]. split; [reflexivity |].
  destruct (slope_file_is_ignored the_cube env_with_slope_file
              "slopes.txt" loaded_slopes eq_refl eq_refl) as [_ Hsame].
  rewrite (Hsame 1 [[0%nat]] [0; 0]%nat).
  eexists _, _. split; [vm_compute; reflexivity |].
  split; reflexivity.
Defined.

(** C4 fails on the program. [total_execution_time] is declared before
    the parallel region and updated by a plain [+=] in the loop. With two
    threads and one draw each, when both threads read the total before
    either writes it back, the region ends with the time of draw 1 alone:
    the time of draw 0 is lost. When the two updates do not overlap the
    total is the sum of both. *)
Theorem timing_sum_loses_an_update `{Platform} (cube : Cube.cube) (E : os_env) :
  getenv E "SLOPE_PDF_FILE" = None ->
  region_done cube E 2 [[0%nat]; [1%nat]] [0; 1; 0; 1]%nat = true
  /\ (exists rows,
        shoot_vector cube E 2 [[0%nat]; [1%nat]] [0; 1; 0; 1]%nat
        = Returned (dadd (d_of_Z 0) (elapsed_time_sec 1), rows))
  /\ (exists rows,
        shoot_vector cube E 2 [[0%nat]; [1%nat]] [0; 0; 1; 1]%nat
        = Returned (dadd (dadd (d_of_Z 0) (elapsed_time_sec 0))
                         (elapsed_time_sec 1), rows)).
Proof.
  intros Henv.
  destruct (declare_without_file E Henv) as [sc Hsc].
  unfold region_done, shoot_vector.
  rewrite (start_workers_returned E sc _ Hsc 0).
  split; [reflexivity |].
  split; eexists; reflexivity.
Qed.

(** With measured times of 1 and 2 seconds the racing schedule reports 2
    seconds, not 3. *)
Lemma timing_sum_loses_an_update_witness :
  (exists rows,
     shoot_vector the_cube env_default 2 [[0%nat]; [1%nat]] [0; 1; 0; 1]%nat
     = Returned (d_of_Z 2, rows))
  /\ dadd (dadd (d_of_Z 0) (elapsed_time_sec 0)) (elapsed_time_sec 1) = d_of_Z 3.
Proof.
  destruct (timing_sum_loses_an_update the_cube env_default eq_refl)
    as (_ & [rows Hrace] & _).
  split; [| vm_compute; reflexivity].
  exists rows. rewrite Hrace. reflexivity.
Defined.

(** ** The catalog *)

Lemma csv_ids_app (a b : list token) : csv_ids (a ++ b) = csv_ids a ++ csv_ids b.
Proof. unfold csv_ids. apply omap_app. Qed.

Lemma csv_rows_app (a b : list token) :
  csv_rows (a ++ b) = (csv_rows a + csv_rows b)%nat.
Proof. unfold csv_rows. rewrite List.filter_app. apply length_app. Qed.

Lemma csv_ids_row (id : Z) (row : result_row) : csv_ids (write_row id row) = [id].
Proof. destruct row as [[[v snr] sum] frames]. reflexivity. Qed.

Lemma csv_rows_row (id : Z) (row : result_row) : csv_rows (write_row id row) = 1%nat.
Proof. destruct row as [[[v snr] sum] frames]. reflexivity. Qed.

(** Writing the rows after the first is writing them with the counter
    one further. *)
Lemma write_rows_shift (rows : list result_row) (id : Z) :
  imap ((fun i row => write_row (id + Z.of_nat i) row) ∘ S) rows
  = imap (fun i row => write_row (id + 1 + Z.of_nat i) row) rows.
Proof.
  apply imap_ext. intros i r _. unfold compose. f_equal. lia.
Qed.

(** The loop of [write_tocsv] from any state of the stream and of the
    counter: row [i] of the vector is written with the counter plus [i]. *)
Lemma write_loop (rows : list result_row) :
  forall (out : list token) (id : Z),
    fold_left
      (fun (st : list token * Z) (row : result_row) =>
         (fst st ++ write_row (snd st) row, snd st + 1))
      rows (out, id)
    = (out ++ concat (imap (fun i row => write_row (id + Z.of_nat i) row) rows),
       id + Z.of_nat (length rows)).
Proof.
  induction rows as [| row rest IH]; intros out id.
  - cbn. rewrite app_nil_r, Z.add_0_r. reflexivity.
  - cbn [fold_left fst snd]. rewrite IH. cbn [imap concat length].
    rewrite write_rows_shift, <- app_assoc, Z.add_0_r. f_equal. lia.
Qed.

Lemma write_tocsv_rows (rows : list result_row) :
  write_tocsv rows =
    Tstring csv_header
    :: concat (imap (fun i row => write_row (Z.of_nat i) row) rows).
Proof. unfold write_tocsv. rewrite write_loop. reflexivity. Qed.

Lemma csv_ids_rows (rows : list result_row) :
  forall id : Z,
    csv_ids (concat (imap (fun i row => write_row (id + Z.of_nat i) row) rows))
    = seqZ id (Z.of_nat (length rows)).
Proof.
  induction rows as [| row rest IH]; intros id; [reflexivity |].
  cbn [imap concat length].
  rewrite write_rows_shift, csv_ids_app, csv_ids_row, Z.add_0_r, IH.
  rewrite (seqZ_cons id) by lia. cbn [app]. do 2 f_equal; lia.
Qed.

Lemma csv_rows_rows (rows : list result_row) :
  forall id : Z,
    csv_rows (concat (imap (fun i row => write_row (id + Z.of_nat i) row) rows))
    = length rows.
Proof.
  induction rows as [| row rest IH]; intros id; [reflexivity |].
  cbn [imap concat length].
  rewrite write_rows_shift, csv_rows_app, csv_rows_row, IH. reflexivity.
Qed.

(** What [write_tocsv] writes, token by token: the header line, then for
    row [i] of the vector the counter [i] and the seven values of the
    row, each followed by a comma, and the end of the line. *)
Lemma write_tocsv_text (rows : list result_row) :
  write_tocsv rows =
    Tstring ("ID,X_INTERCEPT,Y_INTERCEPT,X_SLOPE,Y_SLOPE,SNR,SUM,NUMBER_OF_FRAMES_HIT"
             ++ String "010"%char EmptyString)
    :: concat
         (imap (fun i row =>
                  let '(v, snr, sum, frames) := row in
                  [ Tlonglong (Z.of_nat i); Tchar ","%char;
                    Tdouble (x_intercept v); Tchar ","%char;
                    Tdouble (y_intercept v); Tchar ","%char;
                    Tdouble (x_slope v); Tchar ","%char;
                    Tdouble (y_slope v); Tchar ","%char;
                    Tdouble snr; Tchar ","%char;
                    Tdouble sum; Tchar ","%char;
                    Tint frames; Tchar ","%char;
                    Tchar "010"%char ]) rows).
Proof.
  rewrite write_tocsv_rows. reflexivity.
Qed.

(** C8. Whatever the number of threads, the way the loop is shared out
    and the order of the steps, the vector returned by [shoot_vector] has
    N elements, and the file written from it is the header line with the
    eight column names ID, X_INTERCEPT, Y_INTERCEPT, X_SLOPE, Y_SLOPE, SNR,
    SUM, NUMBER_OF_FRAMES_HIT, followed by one line for each element, in
    the order of the vector: the ID, which is the index of the element,
    then the two intercepts, the two slopes, the SNR, the sum and the
    number of frames hit of that element, each of the eight values
    followed by a comma. There are N such lines and their ID values are
    0, 1, ..., N-1, each once. *)
Theorem catalog_has_one_row_per_draw `{Platform} (cube : Cube.cube) (E : os_env)
    (N : Z) (chunks : list (list nat)) (schedule : list nat)
    (time : double) (rows : list result_row) :
  shoot_vector cube E N chunks schedule = Returned (time, rows) ->
  length rows = Z.to_nat N
  /\ write_tocsv rows =
       Tstring ("ID,X_INTERCEPT,Y_INTERCEPT,X_SLOPE,Y_SLOPE,SNR,SUM,NUMBER_OF_FRAMES_HIT"
                ++ String "010"%char EmptyString)
       :: concat
            (imap (fun i row =>
                     let '(v, snr, sum, frames) := row in
                     [ Tlonglong (Z.of_nat i); Tchar ","%char;
                       Tdouble (x_intercept v); Tchar ","%char;
                       Tdouble (y_intercept v); Tchar ","%char;
                       Tdouble (x_slope v); Tchar ","%char;
                       Tdouble (y_slope v); Tchar ","%char;
                       Tdouble snr; Tchar ","%char;
                       Tdouble sum; Tchar ","%char;
                       Tint frames; Tchar ","%char;
                       Tchar "010"%char ]) rows)
  /\ csv_rows (write_tocsv rows) = Z.to_nat N
  /\ csv_ids (write_tocsv rows) = seqZ 0 N
  /\ NoDup (csv_ids (write_tocsv rows)).
Proof.
  intros Hshoot.
  pose proof (shoot_vector_length cube E N chunks schedule time rows Hshoot) as Hlen.
  assert (Hids : csv_ids (write_tocsv rows) = seqZ 0 N).
  { rewrite write_tocsv_rows.
    change (csv_ids (Tstring csv_header :: ?l)) with (csv_ids l).
    pose proof (csv_ids_rows rows 0) as Hseq.
    change (fun i row => write_row (0 + Z.of_nat i) row)
      with (fun i row => write_row (Z.of_nat i) row) in Hseq.
    rewrite Hseq, Hlen.
    unfold seqZ. rewrite !Nat2Z.id. reflexivity. }
  split; [exact Hlen |]. split; [apply write_tocsv_text |]. split.
  - rewrite write_tocsv_rows.
    change (csv_rows (Tstring csv_header :: ?l)) with (csv_rows l).
    pose proof (csv_rows_rows rows 0) as Hcount.
    change (fun i row => write_row (0 + Z.of_nat i) row)
      with (fun i row => write_row (Z.of_nat i) row) in Hcount.
    rewrite Hcount. exact Hlen.
  - split; [exact Hids |]. rewrite Hids. apply NoDup_seqZ.
Qed.

(** Two draws by two threads whose updates interleave: two rows, with the
    IDs 0 and 1. *)
Lemma catalog_has_one_row_per_draw_witness :
  exists time rows,
    shoot_vector the_cube env_default 2 [[0%nat]; [1%nat]] [0; 1; 0; 1]%nat
    = Returned (time, rows)
    /\ csv_rows (write_tocsv rows) = 2%nat
    /\ csv_ids (write_tocsv rows) = [0; 1].
Proof.
  destruct (shoot_vector the_cube env_default 2 [[0%nat]; [1%nat]] [0; 1; 0; 1]%nat)
    as [[time rows] | | |] eqn:Hshoot; try (vm_compute in Hshoot; discriminate).
  exists time, rows.
  destruct (catalog_has_one_row_per_draw the_cube env_default 2 _ _ time rows Hshoot)
    as (_ & _ & Hrows & Hids & _).
  split; [reflexivity |]. split; [exact Hrows | exact Hids].
Defined.

(** ** The start positions *)

#[export] Instance example_platform_spec : PlatformSpec (H := platform).
Proof.
  constructor. intros a b g Hab. cbn [uniform_int_distribution platform fst].
  pose proof (Z.mod_pos_bound g (b - a + 1) ltac:(lia)). lia.
Qed.

(** C9. In a cube whose width and height are at least 1 and fit an [int],
    under any sharing of the loop and any schedule, every vector stored in
    the result has as [x_intercept] and [y_intercept] the conversions to
    [double] of integers of {0, ..., size_x - 1} and {0, ..., size_y - 1}. *)
Theorem intercepts_are_grid_points `{PlatformSpec} (cube : Cube.cube) (E : os_env)
    (N : Z) (chunks : list (list nat)) (schedule : list nat)
    (time : double) (rows : list result_row) :
  1 <= Cube.m_size_x cube <= 2 ^ 31 ->
  1 <= Cube.m_size_y cube <= 2 ^ 31 ->
  shoot_vector cube E N chunks schedule = Returned (time, rows) ->
  Forall (starts_on_grid (Cube.m_size_x cube) (Cube.m_size_y cube)) rows.
Proof.
  intros Hx Hy Hshoot. unfold shoot_vector in Hshoot.
  apply bind_returned in Hshoot as (ws & _ & Hshoot).
  injection Hshoot as _ <-.
  apply schedule_on_grid; try assumption.
  cbn [fst result]. apply Forall_replicate. apply empty_row_on_grid; lia.
Qed.

Lemma intercepts_are_grid_points_witness :
  exists time rows,
    shoot_vector the_cube env_default 2 [[0%nat]; [1%nat]] [0; 0; 1; 1]%nat
    = Returned (time, rows)
    /\ Forall (starts_on_grid 4 4) rows.
Proof.
  destruct (shoot_vector the_cube env_default 2 [[0%nat]; [1%nat]] [0; 0; 1; 1]%nat)
    as [[time rows] | | |] eqn:Hshoot; try (vm_compute in Hshoot; discriminate).
  exists time, rows. split; [reflexivity |].
  apply (intercepts_are_grid_points the_cube env_default 2
           [[0%nat]; [1%nat]] [0; 0; 1; 1]%nat time rows);
    [cbn; lia | cbn; lia | exact Hshoot].

Defined.

(** * Further properties of the code *)

(** ** The cube: construction and bounds *)

(** X1. The constructor returns a cube exactly when each of the five
    metadata lists has at least [size_k] elements, and the cube it returns
    holds its arguments unchanged; with a shorter list it ends in a failed
    assertion, never in another way. *)
Theorem make_returns_iff sx sy sk img ts ex ps rd ns :
  ((exists c, Cube.make sx sy sk img ts ex ps rd ns = Returned c)
   <-> sk <= vsize ts /\ sk <= vsize ex /\ sk <= vsize ps
       /\ sk <= vsize rd /\ sk <= vsize ns)
  /\ (forall c, Cube.make sx sy sk img ts ex ps rd ns = Returned c ->
        Cube.size c = (sx, sy, sk) /\ Cube.u_cube c = img
        /\ Cube.m_timestamp_list c = ts /\ Cube.m_exposuretime_list c = ex
        /\ Cube.m_psf_list c = ps /\ Cube.m_ra_dec_list c = rd
        /\ Cube.m_noise_list c = ns)
  /\ ((exists c, Cube.make sx sy sk img ts ex ps rd ns = Returned c)
      \/ exists expr, Cube.make sx sy sk img ts ex ps rd ns = AssertionFailed expr).
Proof.
  split; [split |].
  - intros [c Hc]. destruct (make_returned _ _ _ _ _ _ _ _ _ _ Hc) as (_ & H).
    exact H.
  - intros (Hts & Hex & Hps & Hrd & Hns). unfold Cube.make.
    cbn [Cube.m_size_k Cube.m_timestamp_list Cube.m_exposuretime_list
         Cube.m_psf_list Cube.m_ra_dec_list Cube.m_noise_list].
    rewrite !assert_true by (apply Z.leb_le; assumption).
    eexists. reflexivity.
  - split.
    + intros c Hc. destruct (make_returned _ _ _ _ _ _ _ _ _ _ Hc) as (-> & _).
      repeat split.
    + unfold Cube.make.
      cbn [Cube.m_size_k Cube.m_timestamp_list Cube.m_exposuretime_list
           Cube.m_psf_list Cube.m_ra_dec_list Cube.m_noise_list].
      repeat match goal with
      | |- context [assert ?b ?e] =>
          destruct b; cbn [assert mbind outcome_bind];
            [| right; eexists; reflexivity]
      end.
      left. eexists. reflexivity.
Qed.

Lemma checked_access_out {A : Type} (v : list A) (k : Z) (expr : string) :
  vsize v <= k ->
  v !! Z.to_nat k = None
  /\ (assert (k <? vsize v) expr ;; at_index v k) = AssertionFailed expr.
Proof.
  intros Hk. split.
  - apply lookup_ge_None. unfold vsize in Hk. lia.
  - replace (k <? vsize v) with false by (symmetry; apply Z.ltb_ge; exact Hk).
    reflexivity.
Qed.

(** What an accessor does on an unsigned index, read off its list. *)
Lemma checked_access_lookup {A : Type} (v : list A) (k : Z) (expr : string) :
  0 <= k ->
  (assert (k <? vsize v) expr ;; at_index v k)
  = match v !! Z.to_nat k with
    | Some a => Returned a
    | None => AssertionFailed expr
    end.
Proof.
  intros Hk. destruct (Z.lt_ge_cases k (vsize v)) as [Hlt | Hge].
  - destruct (checked_access v k expr ltac:(lia)) as (a & -> & ->). reflexivity.
  - destruct (checked_access_out v k expr Hge) as (-> & ->). reflexivity.
Qed.

(** X2. Each of the five per-frame accessors checks the index against the
    size of its own list, not against [size_k]: on an index below that
    size it returns the element, on any other it ends in its failed
    assertion, and it never reads outside the list. *)
Theorem accessor_bounds (c : Cube.cube) (k : Z) :
  0 <= k ->
  Cube.timestamp c k
  = match Cube.m_timestamp_list c !! Z.to_nat k with
    | Some t => Returned t
    | None => AssertionFailed "k < m_timestamp_list.size()"
    end
  /\ Cube.exposuretime c k
     = match Cube.m_exposuretime_list c !! Z.to_nat k with
       | Some e => Returned e
       | None => AssertionFailed "k < this->m_exposuretime_list.size()"
       end
  /\ Cube.psf c k
     = match Cube.m_psf_list c !! Z.to_nat k with
       | Some p => Returned p
       | None => AssertionFailed "k < this->m_psf_list.size()"
       end
  /\ Cube.ra_dec c k
     = match Cube.m_ra_dec_list c !! Z.to_nat k with
       | Some r => Returned r
       | None => AssertionFailed "k < m_ra_dec_list.size()"
       end
  /\ Cube.noise c k
     = match Cube.m_noise_list c !! Z.to_nat k with
       | Some n => Returned n
       | None => AssertionFailed "k < m_noise_list.size()"
       end.
Proof.
  intros Hk. unfold Cube.timestamp, Cube.exposuretime, Cube.psf, Cube.ra_dec,
    Cube.noise.
  repeat split; apply checked_access_lookup; exact Hk.
Qed.

(** In the sample cube of three frames, frame 2 is read and index 3 is not;
    a cube of two frames over the same lists still reads index 2. *)
Lemma accessor_bounds_witness :
  Cube.timestamp the_cube 2 = Returned 300
  /\ Cube.ra_dec the_cube 3 = AssertionFailed "k < m_ra_dec_list.size()"
  /\ (forall c, Cube.make 4 4 2 store timestamps exposures psfs ra_decs noises
                = Returned c -> Cube.timestamp c 2 = Returned 300).
Proof.
  destruct (accessor_bounds the_cube 2 ltac:(lia)) as (Ht & _).
  destruct (accessor_bounds the_cube 3 ltac:(lia)) as (_ & _ & _ & Hr & _).
  split; [exact Ht |]. split; [exact Hr |].
  intros c Hc. injection Hc as <-.
  destruct (accessor_bounds
              {| Cube.m_size_x := 4; Cube.m_size_y := 4; Cube.m_size_k := 2;
                 Cube.u_cube := store; Cube.m_timestamp_list := timestamps;
                 Cube.m_exposuretime_list := exposures; Cube.m_psf_list := psfs;
                 Cube.m_ra_dec_list := ra_decs; Cube.m_noise_list := noises |}
              2 ltac:(lia)) as (Ht2 & _).
  exact Ht2.
Defined.

(** X3. [cube_size] is the product of the three sizes modulo 2^64: it is
    the number of pixels exactly when that number is below 2^64, and
    otherwise a smaller number, with no fault. *)
Theorem cube_size_wraps (c : Cube.cube) :
  0 <= Cube.m_size_x c -> 0 <= Cube.m_size_y c -> 0 <= Cube.m_size_k c ->
  Cube.cube_size c
  = (Cube.m_size_x c * Cube.m_size_y c * Cube.m_size_k c) mod 2 ^ 64
  /\ (Cube.cube_size c = Cube.m_size_x c * Cube.m_size_y c * Cube.m_size_k c
      <-> Cube.m_size_x c * Cube.m_size_y c * Cube.m_size_k c < 2 ^ 64).
Proof.
  intros Hx Hy Hk.
  assert (Hmod : Cube.cube_size c
                 = (Cube.m_size_x c * Cube.m_size_y c * Cube.m_size_k c) mod 2 ^ 64).
  { unfold Cube.cube_size, wrap64. apply Z.mul_mod_idemp_l. lia. }
  split; [exact Hmod |]. rewrite Hmod.
  assert (0 <= Cube.m_size_x c * Cube.m_size_y c * Cube.m_size_k c) by nia.
  split.
  - intros Heq.
    pose proof (Z.mod_pos_bound
                  (Cube.m_size_x c * Cube.m_size_y c * Cube.m_size_k c)
                  (2 ^ 64) ltac:(lia)). lia.
  - intros Hlt. apply Z.mod_small. lia.
Qed.

(** A cube of 2^32 x 2^32 x 2 pixels reports a size of 0. *)
Lemma cube_size_wraps_witness :
  (forall c, Cube.make (2 ^ 32) (2 ^ 32) 2 store [0; 1] [d_of_Z 40; d_of_Z 40]
                       [d_of_Z 1; d_of_Z 1] [[]; []] [d_of_Z 1; d_of_Z 1]
             = Returned c -> Cube.cube_size c = 0)
  /\ Cube.cube_size the_cube = 48.
Proof.
  split.
  - intros c Hc. injection Hc as <-.
    match goal with |- Cube.cube_size ?big = 0 =>
      rewrite (proj1 (cube_size_wraps big ltac:(cbn; lia) ltac:(cbn; lia)
                       ltac:(cbn; lia)))
    end.
    reflexivity.
  - apply (cube_size_wraps the_cube ltac:(cbn; lia) ltac:(cbn; lia) ltac:(cbn; lia)).
    cbn. lia.
Defined.

(** ** The cube: pixels that project onto themselves *)

(** The [double] of a positive integer below 2^53: a mantissa of 53 bits
    that is the integer shifted to the left. *)
Lemma d_of_Z_normal (z : Z) :
  0 < z < 2 ^ 53 ->
  exists (mz : positive) (ez : Z),
    d_of_Z z = S754_finite false mz ez
    /\ Z.pos (digits2_pos mz) = 53 /\ -52 <= ez <= 0
    /\ Z.pos mz = z * 2 ^ (- ez).
Proof.
  intros Hz. destruct z as [| m | m]; try lia.
  unfold d_of_Z, Fp.of_Z, binary_normalize.
  change (Fp.prec Fp.Float64) with 53. change (Fp.emax Fp.Float64) with 1024.
  pose proof (digits2_pos_bound m 53 ltac:(lia) ltac:(lia)) as Hd.
  unfold binary_round.
  replace (fexp 53 1024 (Z.pos (digits2_pos m) + 0)) with (Z.pos (digits2_pos m) - 53)
    by (unfold fexp, emin; lia).
  unfold shl_align.
  destruct (Z.pos (digits2_pos m) - 53 - 0) as [| p | p] eqn:Hp; try lia.
  - exists m, 0. rewrite binary_round_aux_normal by lia.
    repeat split; lia.
  - exists (Pos.iter xO m p), (Z.pos (digits2_pos m) - 53).
    assert (Hdigits : Z.pos (digits2_pos (Pos.iter xO m p)) = 53)
      by (rewrite digits2_pos_iter_xO; lia).
    rewrite binary_round_aux_normal by lia.
    repeat split; try lia.
    rewrite iter_xO_value. f_equal. f_equal. lia.
Qed.

(** [std::round] leaves the [double] of an integer unchanged. *)
Lemma round_of_integer (z : Z) :
  0 <= z < 2 ^ 53 -> Fp.round (d_of_Z z) = d_of_Z z.
Proof.
  intros Hz. destruct (Z.eq_dec z 0) as [-> | Hnz]; [reflexivity |].
  destruct (d_of_Z_normal z ltac:(lia)) as (mz & ez & Hd & _ & He & Hmz).
  rewrite Hd. unfold Fp.round.
  destruct (0 <=? ez) eqn:H0; [reflexivity |].
  apply Z.leb_gt in H0. cbv zeta.
  rewrite Hmz, Z.mod_mul, Z.div_mul by lia.
  replace (2 ^ (- ez) <=? 2 * 0) with false
    by (symmetry; apply Z.leb_gt; lia).
  cbn [cond_Zopp]. rewrite <- Hd. reflexivity.
Qed.

(** Subtracting a zero from the [double] of an integer leaves it
    unchanged. *)
Lemma sub_zero_of_integer (z : Z) (zero : spec_float) :
  0 <= z < 2 ^ 53 -> is_zero zero = true -> dsub (d_of_Z z) zero = d_of_Z z.
Proof.
  intros Hz Hzero. destruct zero as [s | | |]; try discriminate.
  destruct (Z.eq_dec z 0) as [-> | Hnz]; [destruct s; reflexivity |].
  destruct (d_of_Z_normal z ltac:(lia)) as (mz & ez & -> & _). reflexivity.
Qed.

(** A number times a zero is a zero. *)
Lemma mul_zero_is_zero (x zero : spec_float) :
  is_number x = true -> is_zero zero = true -> is_zero (dmul x zero) = true.
Proof.
  intros Hx Hzero. destruct zero as [s | | |]; try discriminate.
  destruct x as [sx | | | sx m e]; try discriminate; reflexivity.
Qed.

Lemma zero_mul_is_zero (zero x : spec_float) :
  is_zero zero = true -> is_number x = true -> is_zero (dmul zero x) = true.
Proof.
  intros Hzero Hx. destruct zero as [s | | |]; try discriminate.
  destruct x as [sx | | | sx m e]; try discriminate; reflexivity.
Qed.

Lemma d_of_Z_is_number (z : Z) : 0 <= z < 2 ^ 53 -> is_number (d_of_Z z) = true.
Proof.
  intros Hz. destruct (Z.eq_dec z 0) as [-> | Hnz]; [reflexivity |].
  destruct (d_of_Z_normal z ltac:(lia)) as (mz & ez & -> & _). reflexivity.
Qed.

(** A position that is moved by a zero is returned as it is. *)
Lemma back_projection_still (p0 : Z) (slope time_offset : double) :
  0 <= p0 < 2 ^ 53 ->
  is_zero (dmul slope time_offset) = true ->
  double_to_size_t (Cube.back_projection p0 slope time_offset) = Returned p0.
Proof.
  intros Hp Hzero. unfold Cube.back_projection.
  rewrite (sub_zero_of_integer p0 _ Hp Hzero), (round_of_integer p0 Hp).
  apply double_to_size_t_in_range; [apply d_of_Z_exact; lia | lia].
Qed.

(** X4. A pixel of frame 0 is its own back-projection: when the store
    resolves the index to [(x0, y0, 0)], [get_rnd_coord] returns
    [(x0, y0, 0)] for every pair of slopes that are numbers, because the
    elapsed time is 0. *)
Theorem get_rnd_coord_frame_0 sx sy sk img ts ex ps rd ns (c : Cube.cube)
    (index x0 y0 : Z) (xs ys : double) :
  Cube.make sx sy sk img ts ex ps rd ns = Returned c ->
  0 < sk ->
  Cube.u_get_rnd_coord img index = (x0, y0, 0) ->
  0 <= x0 < 2 ^ 53 -> 0 <= y0 < 2 ^ 53 ->
  is_number xs = true -> is_number ys = true ->
  Cube.get_rnd_coord c index xs ys = Returned (x0, y0, 0).
Proof.
  intros Hmake Hsk Hcoord Hx Hy Hxs Hys.
  destruct (get_rnd_coord_unfold sx sy sk img ts ex ps rd ns c index xs ys Hmake
              ltac:(rewrite Hcoord; cbn; lia)) as (tk & t0 & Htk & Ht0 & ->).
  rewrite Hcoord in *. cbn [fst snd] in *. change (Z.to_nat 0) with 0%nat in Htk.
  rewrite Ht0 in Htk. injection Htk as <-.
  cbv zeta. rewrite Z.sub_diag. change (d_of_Z (wrap64 0)) with (S754_zero false).
  rewrite (back_projection_still x0 xs (S754_zero false) Hx
             (mul_zero_is_zero xs (S754_zero false) Hxs eq_refl)).
  cbn [mbind outcome_bind].
  rewrite (back_projection_still y0 ys (S754_zero false) Hy
             (mul_zero_is_zero ys (S754_zero false) Hys eq_refl)).
  reflexivity.
Qed.

(** Pixel 5 of the sample store is (1, 1) on frame 0. *)
Lemma get_rnd_coord_frame_0_witness :
  Cube.get_rnd_coord the_cube 5 slope_100 (d_of_Z (-3)) = Returned (1, 1, 0).
Proof.
  apply (get_rnd_coord_frame_0 4 4 3 store timestamps exposures psfs ra_decs
           noises the_cube 5 1 1 slope_100 (d_of_Z (-3)));
    try reflexivity; lia.
Defined.

(** X5. A pixel that does not move is its own back-projection: with both
    slopes zero, [get_rnd_coord] returns the resolved [(x0, y0)] on frame
    0 from any frame of the cube (for timestamps whose difference a
    [double] holds exactly). *)
Theorem get_rnd_coord_zero_slopes sx sy sk img ts ex ps rd ns (c : Cube.cube)
    (index x0 y0 k tk t0 : Z) (xs ys : double) :
  Cube.make sx sy sk img ts ex ps rd ns = Returned c ->
  Cube.u_get_rnd_coord img index = (x0, y0, k) ->
  0 <= k < sk ->
  ts !! Z.to_nat k = Some tk -> ts !! 0%nat = Some t0 ->
  0 <= wrap64 (tk - t0) < 2 ^ 53 ->
  0 <= x0 < 2 ^ 53 -> 0 <= y0 < 2 ^ 53 ->
  is_zero xs = true -> is_zero ys = true ->
  Cube.get_rnd_coord c index xs ys = Returned (x0, y0, 0).
Proof.
  intros Hmake Hcoord Hk Htk Ht0 Hdt Hx Hy Hxs Hys.
  destruct (get_rnd_coord_unfold sx sy sk img ts ex ps rd ns c index xs ys Hmake
              ltac:(rewrite Hcoord; cbn; lia)) as (tk' & t0' & Htk' & Ht0' & ->).
  rewrite Hcoord in *. cbn [fst snd] in *.
  rewrite Htk in Htk'. injection Htk' as <-.
  rewrite Ht0 in Ht0'. injection Ht0' as <-.
  cbv zeta.
  rewrite (back_projection_still x0 xs _ Hx
             (zero_mul_is_zero xs _ Hxs (d_of_Z_is_number _ Hdt))).
  cbn [mbind outcome_bind].
  rewrite (back_projection_still y0 ys _ Hy
             (zero_mul_is_zero ys _ Hys (d_of_Z_is_number _ Hdt))).
  reflexivity.
Qed.

(** Pixel 47 of the sample store is (3, 3) on frame 2. *)
Lemma get_rnd_coord_zero_slopes_witness :
  Cube.get_rnd_coord the_cube 47 (d_of_Z 0) (S754_zero true) = Returned (3, 3, 0).
Proof.
  apply (get_rnd_coord_zero_slopes 4 4 3 store timestamps exposures psfs ra_decs
           noises the_cube 47 3 3 2 300 100 (d_of_Z 0) (S754_zero true));
    try reflexivity; try (change (wrap64 (300 - 100)) with 200); lia.
Defined.

(** ** The readers of the metadata files *)

(** X6. A list that a reader returns has exactly one value for each frame,
    whether it was read from a file or filled with the default; so the
    lists [main] passes on are never shorter than [size_k]. *)
Theorem readers_return_size_k (E : os_env) (a : metadata_arg) (size_k : Z)
    (l : list double) :
  0 <= size_k ->
  read_arg E size_k a = Returned l ->
  vsize l = size_k.
Proof.
  intros Hk.
  assert (Hlist : forall variable default,
            read_list E variable default size_k = Returned l -> vsize l = size_k).
  { intros variable default. unfold read_list.
    destruct (getenv E variable) as [file |].
    - destruct (ifstream E file) as [contents |]; [| discriminate].
      destruct (vsize (extract_all contents) =? size_k) eqn:Heq; [| discriminate].
      intros [= <-]. apply Z.eqb_eq. exact Heq.
    - intros [= <-]. unfold vsize. rewrite length_map, length_seq. lia. }
  destruct a; apply Hlist.
Qed.

Lemma readers_return_size_k_witness :
  exists l, read_psf env_with_slope_file 3 = Returned l /\ vsize l = 3.
Proof.
  eexists. split; [reflexivity |].
  apply (readers_return_size_k env_with_slope_file ArgPsf 3 _ ltac:(lia) eq_refl).
Defined.

(** X7. When the variable of a metadata file is set and the file cannot
    be opened, the reader aborts with the message [Cannot open] and the
    name of the file; the default values are not used in its place.
    [main] then ends aborted, whatever the order in which it evaluates the
    three readers and whatever the other two variables name, before the
    cube is built; when no other metadata file is configured, it ends with
    that message. *)
Theorem unreadable_metadata_is_fatal `{Platform} (E : os_env) (a : metadata_arg)
    (file : string) (size_k : Z) :
  getenv E (arg_variable a) = Some file ->
  ifstream E file = None ->
  read_arg E size_k a = Aborted ("Cannot open " ++ file)
  /\ forall (filename : string) (size_x size_y : Z) (image_data : Cube.umap_fits_cube)
            (order : list metadata_arg) (chunks : list (list nat))
            (schedule : list nat),
       map_fits E filename = Returned (size_x, size_y, size_k, image_data) ->
       In a order ->
       (exists msg, main E filename order chunks schedule = Aborted msg)
       /\ ((forall b, b <> a -> getenv E (arg_variable b) = None) ->
           main E filename order chunks schedule = Aborted ("Cannot open " ++ file)).
Proof.
  intros Hvar Hfile.
  assert (Hread : read_arg E size_k a = Aborted ("Cannot open " ++ file)).
  { destruct a; unfold read_arg, read_timestamp, read_exposuretime, read_psf,
      read_list; cbn [arg_variable] in Hvar; rewrite Hvar, Hfile; reflexivity. }
  split; [exact Hread |].
  intros filename size_x size_y image_data order chunks schedule Hmap Hin.
  unfold main. rewrite Hmap. cbn [mbind outcome_bind].
  split.
  - destruct (eval_args_aborts E size_k a _ order Hread Hin
                {| md_timestamp := None; md_exposuretime := None; md_psf := None |})
      as [msg' ->].
    eexists. reflexivity.
  - intros Hothers.
    rewrite (eval_args_reports E size_k a _ order Hread Hothers Hin).
    reflexivity.
Qed.

(** A run whose exposure-time file is missing. *)
Lemma unreadable_metadata_is_fatal_witness :
  let E := {| getenv := fun name =>
                if String.eqb name "EXPOSURETIME_FILE" then Some "exp.txt"%string
                else None;
              ifstream := fun _ => None;
              stoll := fun _ => None;
              PerFits_alloc_cube := fun _ => Some (4, 4, 4, 3, store) |} in
  main E "cube.fits" [ArgTimestamp; ArgExposuretime; ArgPsf] [[0%nat]] [0; 0]%nat
  = Aborted "Cannot open exp.txt".
Proof.
  intros E.
  destruct (unreadable_metadata_is_fatal E ArgExposuretime "exp.txt" 3
              eq_refl eq_refl) as [_ Hmain].
  destruct (Hmain "cube.fits"%string 4 4 store
              [ArgTimestamp; ArgExposuretime; ArgPsf] [[0%nat]] [0; 0]%nat
              eq_refl ltac:(right; left; reflexivity)) as [_ Hmsg].
  apply Hmsg.
  intros b Hb. destruct b; [reflexivity | contradiction | reflexivity].
Defined.

Lemma extract_all_numbers (values : list double) :
  extract_all (map Some values) = values.
Proof. induction values as [| v rest IH]; [reflexivity |]. cbn. rewrite IH. reflexivity. Qed.

(** The extraction loop reads the numbers up to the first text that is not
    one, and nothing after it. *)
Lemma extract_all_stops (values : list double) (rest : list (option double)) :
  extract_all (map Some values ++ None :: rest) = values.
Proof. induction values as [| v more IH]; [reflexivity |]. cbn. rewrite IH. reflexivity. Qed.

(** X8. A reader stops at the first text of the file that is not a number
    and counts only the values before it. A file of [size_k] numbers
    followed by anything else is accepted, with what follows ignored; a
    file whose first text that is not a number comes before [size_k]
    values have been read is rejected, however many numbers follow. *)
Theorem reader_stops_at_first_failure (E : os_env) (a : metadata_arg)
    (file : string) (values : list double) (rest : list (option double))
    (size_k : Z) :
  getenv E (arg_variable a) = Some file ->
  ifstream E file = Some (map Some values ++ None :: rest) ->
  read_arg E size_k a
  = if vsize values =? size_k then Returned values
    else Aborted (count_message file).
Proof.
  intros Hvar Hfile.
  destruct a; unfold read_arg, read_timestamp, read_exposuretime, read_psf,
    read_list; cbn [arg_variable] in Hvar; rewrite Hvar, Hfile;
    rewrite extract_all_stops; destruct (vsize values =? size_k); reflexivity.
Qed.

(** Three numbers and a comment are three timestamps; one number, a word
    and three more numbers are not. *)
Lemma reader_stops_at_first_failure_witness :
  let file (contents : list (option double)) :=
    {| getenv := fun name =>
         if String.eqb name "TIMESTAMP_FILE" then Some "t.txt"%string else None;
       ifstream := fun _ => Some contents;
       stoll := fun _ => None;
       PerFits_alloc_cube := fun _ => None |} in
  read_timestamp (file [Some (d_of_Z 0); Some (d_of_Z 5); Some (d_of_Z 9);
                        None; Some (d_of_Z 7)]) 3
  = Returned [d_of_Z 0; d_of_Z 5; d_of_Z 9]
  /\ read_timestamp (file [Some (d_of_Z 0); None; Some (d_of_Z 5);
                           Some (d_of_Z 9); Some (d_of_Z 7)]) 3
     = Aborted (count_message "t.txt").
Proof.
  intros file. split.
  - apply (reader_stops_at_first_failure (file _) ArgTimestamp "t.txt"
             [d_of_Z 0; d_of_Z 5; d_of_Z 9] [Some (d_of_Z 7)] 3 eq_refl eq_refl).
  - apply (reader_stops_at_first_failure (file _) ArgTimestamp "t.txt"
             [d_of_Z 0] [Some (d_of_Z 5); Some (d_of_Z 9); Some (d_of_Z 7)] 3
             eq_refl eq_refl).
Defined.

(** ** The default metadata *)

(** Fifty-two shifts to the right undo fifty-two doublings, with nothing
    lost. *)
Lemma shr_52_doubled (mz : positive) :
  SpecFloat.iter_pos shr_1 52
    {| shr_m := Z.pos (Pos.iter xO mz 52); shr_r := false; shr_s := false |}
  = {| shr_m := Z.pos mz; shr_r := false; shr_s := false |}.
Proof. reflexivity. Qed.

(** Multiplying a normal [double] by 1.0 gives it back. *)
Lemma mul_one_normal (s : bool) (mz : positive) (ez : Z) :
  Z.pos (digits2_pos mz) = 53 -> -1022 <= ez <= 971 ->
  dmul (S754_finite s mz ez) (d_of_Z 1) = S754_finite s mz ez.
Proof.
  intros Hd He.
  change (d_of_Z 1) with (S754_finite false 4503599627370496 (-52)).
  unfold dmul, Fp.mul, SFmul.
  change (Fp.prec Fp.Float64) with 53. change (Fp.emax Fp.Float64) with 1024.
  rewrite Pos.mul_comm.
  change (4503599627370496 * mz)%positive with (Pos.iter xO mz 52).
  replace (xorb s false) with s by (destruct s; reflexivity).
  unfold binary_round_aux.
  assert (Hshift : shr_fexp 53 1024 (Z.pos (Pos.iter xO mz 52)) (ez + -52) loc_Exact
                   = ({| shr_m := Z.pos mz; shr_r := false; shr_s := false |}, ez)).
  { unfold shr_fexp, Zdigits2. rewrite digits2_pos_iter_xO.
    replace (fexp 53 1024 (Z.pos (digits2_pos mz + 52) + (ez + -52)) - (ez + -52))
      with 52 by (unfold fexp, emin; lia).
    unfold shr, shr_record_of_loc. rewrite shr_52_doubled. f_equal. lia. }
  rewrite Hshift. cbn [shr_m loc_of_shr_record round_nearest_even].
  rewrite (shr_fexp_normal mz ez Hd) by lia. cbn [shr_m].
  replace (ez <=? 1024 - 53) with true by (symmetry; apply Z.leb_le; lia).
  reflexivity.
Qed.

(** [i * 1.0] is the integer [i], exactly. *)
Lemma mul_one_of_integer (i : Z) :
  0 <= i < 2 ^ 53 -> dmul (d_of_Z i) (d_of_Z 1) = d_of_Z i.
Proof.
  intros Hi. destruct (Z.eq_dec i 0) as [-> | Hnz]; [reflexivity |].
  destruct (d_of_Z_normal i ltac:(lia)) as (mz & ez & -> & Hd & He & _).
  apply mul_one_normal; [exact Hd | lia].
Qed.

Lemma map_constant_seq {A : Type} (x : A) (n start : nat) :
  map (fun _ : nat => x) (seq start n) = replicate n x.
Proof.
  revert start. induction n as [| n IH]; intros start; [reflexivity |].
  cbn. rewrite IH. reflexivity.
Qed.

(** X9. With no metadata file configured, the readers return, for the
    [size_k] frames, the timestamps 0, 1, ..., [size_k - 1] (each exactly
    the integer, as a [double]), an exposure time of 40 for every frame,
    and a point-spread width of 1 for every frame. *)
Theorem default_metadata (E : os_env) (size_k : Z) :
  0 <= size_k <= 2 ^ 53 ->
  (getenv E "TIMESTAMP_FILE" = None ->
   read_timestamp E size_k
   = Returned (map (fun i : nat => d_of_Z (Z.of_nat i)) (seq 0 (Z.to_nat size_k))))
  /\ (getenv E "EXPOSURETIME_FILE" = None ->
      read_exposuretime E size_k = Returned (replicate (Z.to_nat size_k) (d_of_Z 40)))
  /\ (getenv E "PSF_FILE" = None ->
      read_psf E size_k = Returned (replicate (Z.to_nat size_k) (d_of_Z 1))).
Proof.
  intros Hk. repeat split; intros Hvar;
    unfold read_timestamp, read_exposuretime, read_psf, read_list; rewrite Hvar;
    f_equal.
  - apply map_ext_in. intros i Hi. apply in_seq in Hi.
    apply mul_one_of_integer. lia.
  - apply map_constant_seq.
  - apply map_constant_seq.
Qed.

Lemma default_metadata_witness :
  read_timestamp env_default 3 = Returned [d_of_Z 0; d_of_Z 1; d_of_Z 2]
  /\ read_exposuretime env_default 3 = Returned [d_of_Z 40; d_of_Z 40; d_of_Z 40]
  /\ read_psf env_default 3 = Returned [d_of_Z 1; d_of_Z 1; d_of_Z 1].
Proof.
  destruct (default_metadata env_default 3 ltac:(lia)) as (Ht & He & Hp).
  split; [exact (Ht eq_refl) |]. split; [exact (He eq_refl) | exact (Hp eq_refl)].
Defined.

(** ** The number of vectors *)

(** X10. [get_num_vectors] returns 100000 when NUM_VECTORS is not set.
    When it is set, the number [std::stoll] reads is converted to
    [size_t]: a number that is not negative is returned as it is, and a
    negative one becomes the number plus 2^64, a count of at least 2^63
    vectors. *)
Theorem get_num_vectors_converts (E : os_env) :
  (getenv E "NUM_VECTORS" = None -> get_num_vectors E = Returned 100000)
  /\ (forall buf v,
        getenv E "NUM_VECTORS" = Some buf -> stoll E buf = Some v ->
        - 2 ^ 63 <= v < 2 ^ 63 ->
        get_num_vectors E = Returned (if v <? 0 then v + 2 ^ 64 else v)
        /\ (v < 0 -> exists n, get_num_vectors E = Returned n /\ 2 ^ 63 <= n))
  /\ (forall n, get_num_vectors E = Returned n -> 0 <= n < 2 ^ 64).
Proof.
  split; [| split].
  - intros Hvar. unfold get_num_vectors. rewrite Hvar. reflexivity.
  - intros buf v Hvar Hv Hrange.
    assert (Hget : get_num_vectors E = Returned (if v <? 0 then v + 2 ^ 64 else v)).
    { unfold get_num_vectors, wrap64. rewrite Hvar, Hv. f_equal.
      destruct (v <? 0) eqn:Hneg.
      - apply Z.ltb_lt in Hneg.
        rewrite <- (Z.mod_add v 1 (2 ^ 64)) by lia. apply Z.mod_small. lia.
      - apply Z.ltb_ge in Hneg. apply Z.mod_small. lia. }
    split; [exact Hget |].
    intros Hneg. rewrite Hget.
    replace (v <? 0) with true by (symmetry; apply Z.ltb_lt; exact Hneg).
    eexists. split; [reflexivity | lia].
  - intros n. unfold get_num_vectors, default_num_random_vector, wrap64.
    destruct (getenv E "NUM_VECTORS") as [buf |].
    + destruct (stoll E buf) as [v |]; [| discriminate].
      intros [= <-]. apply Z.mod_pos_bound. lia.
    + intros [= <-]. lia.
Qed.

Lemma get_num_vectors_converts_witness :
  let E := {| getenv := fun name =>
                if String.eqb name "NUM_VECTORS" then Some "-1"%string else None;
              ifstream := fun _ => None;
              stoll := fun _ => Some (-1);
              PerFits_alloc_cube := fun _ => None |} in
  get_num_vectors E = Returned (2 ^ 64 - 1).
Proof.
  intros E.
  destruct (get_num_vectors_converts E) as (_ & Hset & _).
  destruct (Hset "-1"%string (-1) eq_refl eq_refl ltac:(lia)) as [Hget _].
  exact Hget.
Defined.

(** ** The statistics accumulator: steps without data *)

Lemma data_steps_idempotent (steps : list snr_info) :
  data_steps (data_steps steps) = data_steps steps.
Proof.
  unfold data_steps. induction steps as [| info rest IH]; [reflexivity |].
  cbn [List.filter]. destruct (has_data info) eqn:Hd; [| exact IH].
  cbn [List.filter]. rewrite Hd, IH. reflexivity.
Qed.

Lemma data_steps_exists (steps : list snr_info) :
  Exists (fun info => has_data info = true) steps -> data_steps steps <> [].
Proof.
  unfold data_steps. induction 1 as [info rest Hd | info rest _ IH].
  - cbn [List.filter]. rewrite Hd. discriminate.
  - cbn [List.filter]. destruct (has_data info); [discriminate | exact IH].
Qed.

(** X11. The steps without data can be taken out of a sequence without
    changing what [vector_info] returns, as long as one step with data is
    left: the SNR, the sum and the number of frames of a walk are those of
    its data steps alone. *)
Theorem vector_info_of_data_steps (value_type : Fp.fp_type)
    (steps : list snr_info) :
  Exists (fun info => has_data info = true) steps ->
  vector_info value_type steps = vector_info value_type (data_steps steps).
Proof.
  intros Hex.
  rewrite (vector_info_nonempty value_type steps)
    by (intros ->; inversion Hex).
  rewrite (vector_info_nonempty value_type (data_steps steps))
    by (apply data_steps_exists; exact Hex).
  unfold accumulated. rewrite data_steps_idempotent. reflexivity.
Qed.

(** A walk that leaves the image on its second and fourth frame. *)
Lemma vector_info_of_data_steps_witness :
  let step := (f32 10, 1, d_of_Z 40) in
  vector_info Fp.Float32 [step; no_data_step; step; no_data_step; step]
  = vector_info Fp.Float32 three_frames.
Proof.
  intros step.
  apply (vector_info_of_data_steps Fp.Float32
           [step; no_data_step; step; no_data_step; step]).
  left. reflexivity.
Defined.

Lemma data_steps_length (steps : list snr_info) :
  (length (data_steps steps) <= length steps)%nat.
Proof. unfold data_steps. apply List.filter_length_le. Qed.

(** X12. The number of frames hit that [vector_info] returns is the number
    of steps of the sequence whose value is not NaN, for every sequence:
    it is never negative and never more than the number of steps, and it
    is the number of steps exactly when every step has data. *)
Theorem frames_hit_counts_data_steps (value_type : Fp.fp_type)
    (steps : list snr_info) :
  snd (vector_info value_type steps) = Z.of_nat (length (data_steps steps))
  /\ 0 <= snd (vector_info value_type steps) <= Z.of_nat (length steps)
  /\ (snd (vector_info value_type steps) = Z.of_nat (length steps)
      <-> Forall (fun info => has_data info = true) steps).
Proof.
  assert (Hcount : snd (vector_info value_type steps)
                   = Z.of_nat (length (data_steps steps))).
  { destruct steps as [| info rest] eqn:Hsteps; [reflexivity |].
    rewrite <- Hsteps. rewrite vector_info_nonempty by (subst; discriminate).
    reflexivity. }
  pose proof (data_steps_length steps) as Hle.
  split; [exact Hcount |]. split; [lia |].
  rewrite Hcount. clear Hcount Hle. unfold data_steps.
  induction steps as [| info rest IH].
  - split; [constructor | reflexivity].
  - cbn [List.filter length]. destruct (has_data info) eqn:Hd.
    + cbn [length]. split.
      * intros Heq. constructor; [exact Hd |]. apply IH. lia.
      * intros Hall. inversion Hall; subst.
        assert (Z.of_nat (length (List.filter has_data rest))
                = Z.of_nat (length rest)) by (apply IH; assumption).
        lia.
    + split.
      * intros Heq. pose proof (List.filter_length_le has_data rest). lia.
      * intros Hall. inversion Hall; subst. congruence.
Qed.

(** ** The rows of a run and the order of its steps *)

Section ScheduleIndependence.

Context `{Platform}.

Variable cube : Cube.cube.

Lemma loop_body_draw (w : worker) (sh : shared) (i : nat) :
  loop_body cube w sh i
  = ({| w_engine := fst (snd (draw cube (w_engine w) (w_slope_distribution w)));
        w_slope_distribution :=
          snd (snd (draw cube (w_engine w) (w_slope_distribution w)));
        w_iterations := tail (w_iterations w);
        w_pending_sum :=
          Some (dadd (total_execution_time sh) (elapsed_time_sec i)) |},
     {| total_execution_time := total_execution_time sh;
        result := <[i := fst (draw cube (w_engine w) (w_slope_distribution w))]>
                    (result sh) |}).
Proof. reflexivity. Qed.

Lemma thread_rows_indices (iterations : list nat) :
  forall (g : rnd_engine) (d : slope_object),
    map fst (thread_rows cube g d iterations) = iterations.
Proof.
  induction iterations as [| i rest IH]; intros g d; [reflexivity |].
  cbn [thread_rows map fst]. rewrite IH. reflexivity.
Qed.

Lemma remaining_rows_indices (ws : list worker) :
  map fst (remaining_rows cube ws) = concat (map w_iterations ws).
Proof.
  unfold remaining_rows. induction ws as [| w rest IH]; [reflexivity |].
  cbn [map concat]. rewrite map_app, thread_rows_indices, IH. reflexivity.
Qed.

Lemma store_rows_app (a b : list (nat * result_row)) (res : list result_row) :
  store_rows (a ++ b) res = store_rows b (store_rows a res).
Proof. unfold store_rows. apply fold_left_app. Qed.

(** A row stored at an index that the rows that follow do not touch can
    as well be stored after them. *)
Lemma store_rows_insert (rows : list (nat * result_row)) (i : nat) (r : result_row) :
  forall res : list result_row,
    i ∉ map fst rows ->
    store_rows rows (<[i := r]> res) = <[i := r]> (store_rows rows res).
Proof.
  induction rows as [| [j rj] rest IH]; intros res Hi; [reflexivity |].
  cbn [map fst] in Hi. apply not_elem_of_cons in Hi as [Hij Hrest].
  unfold store_rows in *. cbn [fold_left fst snd].
  rewrite <- IH by exact Hrest. f_equal.
  apply list_insert_insert_ne. congruence.
Qed.

Lemma remaining_rows_split (ws : list worker) (t : nat) (w : worker) :
  ws !! t = Some w ->
  remaining_rows cube ws
  = remaining_rows cube (take t ws)
    ++ thread_rows cube (w_engine w) (w_slope_distribution w) (w_iterations w)
    ++ remaining_rows cube (drop (S t) ws).
Proof.
  intros Hw. rewrite <- (take_drop_middle ws t w Hw) at 1.
  unfold remaining_rows. rewrite map_app, concat_app. reflexivity.
Qed.

Lemma remaining_rows_insert (ws : list worker) (t : nat) (w w' : worker) :
  ws !! t = Some w ->
  remaining_rows cube (<[t := w']> ws)
  = remaining_rows cube (take t ws)
    ++ thread_rows cube (w_engine w') (w_slope_distribution w') (w_iterations w')
    ++ remaining_rows cube (drop (S t) ws).
Proof.
  intros Hw. pose proof (lookup_lt_Some ws t w Hw) as Hlt.
  rewrite insert_take_drop by exact Hlt.
  unfold remaining_rows. rewrite map_app, concat_app. reflexivity.
Qed.

Lemma iterations_split (ws : list worker) (t : nat) (w : worker) :
  ws !! t = Some w ->
  concat (map w_iterations ws)
  = concat (map w_iterations (take t ws)) ++ w_iterations w
    ++ concat (map w_iterations (drop (S t) ws)).
Proof.
  intros Hw. rewrite <- (take_drop_middle ws t w Hw) at 1.
  rewrite map_app, concat_app. reflexivity.
Qed.

Lemma iterations_insert (ws : list worker) (t : nat) (w w' : worker) :
  ws !! t = Some w ->
  concat (map w_iterations (<[t := w']> ws))
  = concat (map w_iterations (take t ws)) ++ w_iterations w'
    ++ concat (map w_iterations (drop (S t) ws)).
Proof.
  intros Hw. pose proof (lookup_lt_Some ws t w Hw) as Hlt.
  rewrite insert_take_drop by exact Hlt.
  rewrite map_app, concat_app. reflexivity.
Qed.

(** A step of a thread changes neither what the state amounts to nor the
    fact that no index is left twice. *)
Lemma thread_step_completed (sh : shared) (ws : list worker) (t : nat) :
  NoDup (concat (map w_iterations ws)) ->
  completed cube (thread_step cube (sh, ws) t) = completed cube (sh, ws)
  /\ NoDup (concat (map w_iterations (snd (thread_step cube (sh, ws) t)))).
Proof.
  intros Hnodup. unfold thread_step.
  destruct (ws !! t) as [w |] eqn:Hw; [| split; [reflexivity | exact Hnodup]].
  destruct (w_pending_sum w) as [sum |] eqn:Hpending.
  - unfold completed. cbn [fst snd result].
    rewrite (remaining_rows_insert ws t w _ Hw), (iterations_insert ws t w _ Hw).
    cbn [w_engine w_slope_distribution w_iterations].
    rewrite <- (remaining_rows_split ws t w Hw), <- (iterations_split ws t w Hw).
    split; [reflexivity | exact Hnodup].
  - destruct (w_iterations w) as [| i rest] eqn:Hits;
      [split; [reflexivity | exact Hnodup] |].
    rewrite loop_body_draw. unfold completed. cbn [fst snd result].
    rewrite (remaining_rows_insert ws t w _ Hw), (iterations_insert ws t w _ Hw).
    cbn [w_engine w_slope_distribution w_iterations].
    rewrite (remaining_rows_split ws t w Hw), Hits.
    rewrite (iterations_split ws t w Hw), Hits in Hnodup.
    cbn [thread_rows tail].
    apply NoDup_app in Hnodup as (Hbefore & Hdisjoint & Hrest).
    cbn [app] in Hrest. apply NoDup_cons in Hrest as [Hnotin Hrest].
    split.
    + rewrite !store_rows_app.
      rewrite store_rows_insert.
      * reflexivity.
      * rewrite remaining_rows_indices. intros Hin.
        apply (Hdisjoint i Hin). left.
    + apply NoDup_app. split; [exact Hbefore |]. split; [| exact Hrest].
      intros j Hj Hin. apply (Hdisjoint j Hj). right. exact Hin.
Qed.

Lemma schedule_completed (schedule : list nat) :
  forall (sh : shared) (ws : list worker),
    NoDup (concat (map w_iterations ws)) ->
    completed cube (fold_left (thread_step cube) schedule (sh, ws))
    = completed cube (sh, ws).
Proof.
  induction schedule as [| t rest IH]; intros sh ws Hnodup; [reflexivity |].
  cbn [fold_left].
  destruct (thread_step_completed sh ws t Hnodup) as [Hsame Hnodup'].
  destruct (thread_step cube (sh, ws) t) as [sh' ws'].
  rewrite IH by exact Hnodup'. exact Hsame.
Qed.

(** The threads a region starts with, when it starts. *)
Lemma start_workers_shape (E : os_env) (chunks : list (list nat)) :
  forall (t : Z) (ws : list worker),
    start_workers E t chunks = Returned ws ->
    ws = imap (fun (n : nat) (iterations : list nat) =>
                 {| w_engine := mt19937 (123 + (t + Z.of_nat n));
                    w_slope_distribution := BetaObject (beta_distribution 3 2);
                    w_iterations := iterations;
                    w_pending_sum := None |}) chunks.
Proof.
  destruct chunks as [| its rest]; intros t ws Hws.
  - injection Hws as <-. reflexivity.
  - pose proof Hws as Hfirst. cbn [start_workers] in Hfirst.
    apply bind_returned in Hfirst as (w & Hw & _).
    unfold worker_start in Hw.
    apply bind_returned in Hw as (sc & Hsc & _).
    rewrite (start_workers_returned E sc (its :: rest) Hsc t) in Hws.
    injection Hws as <-. reflexivity.
Qed.

(** When every thread is done, nothing is left to store. *)
Lemma remaining_rows_done (ws : list worker) :
  forallb worker_done ws = true -> remaining_rows cube ws = [].
Proof.
  unfold remaining_rows. induction ws as [| w rest IH]; [reflexivity |].
  cbn [forallb map concat]. intros Hdone.
  apply andb_true_iff in Hdone as [Hw Hrest]. rewrite (IH Hrest).
  unfold worker_done in Hw.
  destruct (w_iterations w); [reflexivity | discriminate].
Qed.

End ScheduleIndependence.

(** A run of the region to its end leaves the expected rows. *)
Lemma complete_run_rows `{Platform} (cube : Cube.cube) (E : os_env)
    (N : Z) (chunks : list (list nat)) (schedule : list nat)
    (time : double) (rows : list result_row) :
  NoDup (concat chunks) ->
  region_done cube E N chunks schedule = true ->
  shoot_vector cube E N chunks schedule = Returned (time, rows) ->
  rows = expected_rows cube N chunks.
Proof.
  intros Hnodup Hdone Hshoot. unfold shoot_vector in Hshoot.
  apply bind_returned in Hshoot as (ws & Hws & Hshoot).
  injection Hshoot as _ <-.
  unfold region_done in Hdone. rewrite Hws in Hdone.
  set (sh := {| total_execution_time := d_of_Z 0;
                result := replicate (Z.to_nat N) empty_row |}) in *.
  apply (start_workers_shape E chunks 0) in Hws. subst ws.
  match type of Hdone with
  | forallb worker_done (snd (fold_left _ _ (_, ?ws0))) = true => set (ws := ws0) in *
  end.
  assert (Hits : map w_iterations ws = chunks).
  { unfold ws. rewrite <- (list_fmap_id chunks) at 2.
    rewrite fmap_imap. rewrite <- (imap_const id chunks).
    apply imap_ext. reflexivity. }
  pose proof (schedule_completed cube schedule sh ws
                ltac:(rewrite Hits; exact Hnodup)) as Hsame.
  unfold completed in Hsame at 1.
  rewrite (remaining_rows_done cube _ Hdone) in Hsame.
  cbn [store_rows fold_left] in Hsame.
  transitivity (completed cube (sh, ws)); [exact Hsame |].
  unfold completed, expected_rows, remaining_rows. cbn [fst snd result sh].
  f_equal. f_equal. unfold ws. rewrite fmap_imap.
  apply imap_ext. intros n its _. reflexivity.
Qed.


(** X13. The rows that [shoot_vector] stores do not depend on the order in
    which the threads take their steps. When no index is given to two
    threads, every schedule that runs the region to its end leaves the
    result vector that the threads leave when they run one after the
    other, each from its own seed: the race on the timing sum does not
    reach the catalog. *)
Theorem rows_do_not_depend_on_schedule `{Platform} (cube : Cube.cube) (E : os_env)
    (N : Z) (chunks : list (list nat)) (schedule : list nat)
    (time : double) (rows : list result_row) :
  NoDup (concat chunks) ->
  region_done cube E N chunks schedule = true ->
  shoot_vector cube E N chunks schedule = Returned (time, rows) ->
  rows = expected_rows cube N chunks.
Proof. apply complete_run_rows. Qed.

(** One draw by each of two threads: the schedule in which the updates of
    the timing sum overlap and the one in which they do not store the same
    two rows, and report different times. *)
Lemma rows_do_not_depend_on_schedule_witness :
  exists time1 time2 rows,
    shoot_vector the_cube env_default 2 [[0%nat]; [1%nat]] [0; 1; 0; 1]%nat
    = Returned (time1, rows)
    /\ shoot_vector the_cube env_default 2 [[0%nat]; [1%nat]] [1; 1; 0; 0]%nat
       = Returned (time2, rows)
    /\ time1 <> time2.
Proof.
  assert (Hnodup : NoDup (concat [[0%nat]; [1%nat]])).
  { cbn. apply NoDup_cons. split; [| apply NoDup_singleton].
    intros Hin. apply list_elem_of_singleton in Hin. discriminate. }
  destruct (shoot_vector the_cube env_default 2 [[0%nat]; [1%nat]] [0; 1; 0; 1]%nat)
    as [[time1 rows1] | | |] eqn:H1; try (vm_compute in H1; discriminate).
  destruct (shoot_vector the_cube env_default 2 [[0%nat]; [1%nat]] [1; 1; 0; 0]%nat)
    as [[time2 rows2] | | |] eqn:H2; try (vm_compute in H2; discriminate).
  pose proof (rows_do_not_depend_on_schedule the_cube env_default 2
                [[0%nat]; [1%nat]] [0; 1; 0; 1]%nat time1 rows1 Hnodup
                ltac:(vm_compute; reflexivity) H1) as Hrows1.
  pose proof (rows_do_not_depend_on_schedule the_cube env_default 2
                [[0%nat]; [1%nat]] [1; 1; 0; 0]%nat time2 rows2 Hnodup
                ltac:(vm_compute; reflexivity) H2) as Hrows2.
  exists time1, time2, rows1. split; [reflexivity |].
  split; [rewrite Hrows1, <- Hrows2; reflexivity |].
  vm_compute in H1. vm_compute in H2.
  injection H1 as <- _. injection H2 as <- _. discriminate.
Defined.

(** ** Where each draw is stored *)

Section StoredRows.

Context `{Platform}.

Variable cube : Cube.cube.

Lemma store_rows_length (rows : list (nat * result_row)) :
  forall res : list result_row, length (store_rows rows res) = length res.
Proof.
  induction rows as [| [j rj] rest IH]; intros res; [reflexivity |].
  unfold store_rows in *. cbn [fold_left fst snd].
  rewrite IH. apply length_insert.
Qed.

Lemma store_rows_lookup (rows : list (nat * result_row)) :
  forall (res : list result_row) (i : nat) (r : result_row),
    NoDup (map fst rows) -> (i, r) ∈ rows -> (i < length res)%nat ->
    store_rows rows res !! i = Some r.
Proof.
  induction rows as [| [j rj] rest IH]; intros res i r Hnodup Hin Hlt.
  - apply elem_of_nil in Hin. destruct Hin.
  - cbn [map fst] in Hnodup. apply NoDup_cons in Hnodup as [Hj Hrest].
    change (store_rows ((j, rj) :: rest) res)
      with (store_rows rest (<[j := rj]> res)).
    apply elem_of_cons in Hin as [[= -> ->] | Hin].
    + rewrite store_rows_insert by exact Hj.
      apply list_lookup_insert_eq. rewrite store_rows_length. exact Hlt.
    + apply IH; [exact Hrest | exact Hin | rewrite length_insert; exact Hlt].
Qed.

Lemma store_rows_lookup_other (rows : list (nat * result_row)) :
  forall (res : list result_row) (i : nat),
    i ∉ map fst rows -> store_rows rows res !! i = res !! i.
Proof.
  induction rows as [| [j rj] rest IH]; intros res i Hi; [reflexivity |].
  cbn [map fst] in Hi. apply not_elem_of_cons in Hi as [Hij Hrest].
  change (store_rows ((j, rj) :: rest) res)
    with (store_rows rest (<[j := rj]> res)).
  rewrite IH by exact Hrest. apply list_lookup_insert_ne. congruence.
Qed.

(** The indices of the rows of all threads are the indices of the
    chunks, whatever the engines the threads start from. *)
Lemma all_thread_rows_indices (chunks : list (list nat)) :
  forall (g : nat -> rnd_engine) (d : nat -> slope_object),
    map fst (concat (imap (fun t its => thread_rows cube (g t) (d t) its) chunks))
    = concat chunks.
Proof.
  induction chunks as [| its rest IH]; intros g d; [reflexivity |].
  cbn [imap concat]. rewrite map_app, thread_rows_indices.
  f_equal. exact (IH (fun t => g (S t)) (fun t => d (S t))).
Qed.

Lemma expected_rows_indices (chunks : list (list nat)) :
  map fst (concat (imap (fun (t : nat) (its : list nat) =>
                           thread_rows cube (mt19937 (123 + Z.of_nat t))
                                       (BetaObject (beta_distribution 3 2)) its)
                        chunks))
  = concat chunks.
Proof.
  exact (all_thread_rows_indices chunks
           (fun t => mt19937 (123 + Z.of_nat t))
           (fun _ => BetaObject (beta_distribution 3 2))).
Qed.

(** Row [i] of the expected result is the row that the thread that owns
    [i] draws for it; a row that no thread owns is left as it was
    created. *)
Lemma expected_rows_lookup (N : Z) (chunks : list (list nat)) :
  NoDup (concat chunks) ->
  (forall (t : nat) (its : list nat) (i : nat) (r : result_row),
     chunks !! t = Some its ->
     (i, r) ∈ thread_rows cube (mt19937 (123 + Z.of_nat t))
                          (BetaObject (beta_distribution 3 2)) its ->
     (i < Z.to_nat N)%nat ->
     expected_rows cube N chunks !! i = Some r)
  /\ (forall i : nat,
        i ∉ concat chunks -> (i < Z.to_nat N)%nat ->
        expected_rows cube N chunks !! i = Some empty_row).
Proof.
  intros Hnodup. unfold expected_rows. split.
  - intros t its i r Ht Hin Hlt. apply store_rows_lookup.
    + rewrite expected_rows_indices. exact Hnodup.
    + apply list_elem_of_In, in_concat.
      exists (thread_rows cube (mt19937 (123 + Z.of_nat t))
                          (BetaObject (beta_distribution 3 2)) its).
      split; [| apply list_elem_of_In; exact Hin].
      apply list_elem_of_In.
      exact (elem_of_lookup_imap_2
               (fun (t : nat) (its : list nat) =>
                  thread_rows cube (mt19937 (123 + Z.of_nat t))
                              (BetaObject (beta_distribution 3 2)) its)
               chunks its t Ht).
    + rewrite length_replicate. exact Hlt.
  - intros i Hi Hlt. rewrite store_rows_lookup_other.
    + apply lookup_replicate_2. exact Hlt.
    + rewrite expected_rows_indices. exact Hi.
Qed.

End StoredRows.

(** X14. After a run of the region to its end in which no index is given
    to two threads, [result[i]] holds, for every index [i] that a thread
    owns, the row that this thread draws for [i] in its own sequence of
    draws, started from the seed [123 + thread number]; and a row whose
    index no thread owns is still the value-initialised row. *)
Theorem every_draw_is_stored_at_its_index `{Platform} (cube : Cube.cube)
    (E : os_env) (N : Z) (chunks : list (list nat)) (schedule : list nat)
    (time : double) (rows : list result_row) :
  NoDup (concat chunks) ->
  region_done cube E N chunks schedule = true ->
  shoot_vector cube E N chunks schedule = Returned (time, rows) ->
  (forall (t : nat) (its : list nat) (i : nat) (r : result_row),
     chunks !! t = Some its ->
     (i, r) ∈ thread_rows cube (mt19937 (123 + Z.of_nat t))
                          (BetaObject (beta_distribution 3 2)) its ->
     (i < Z.to_nat N)%nat ->
     rows !! i = Some r)
  /\ (forall i : nat,
        i ∉ concat chunks -> (i < Z.to_nat N)%nat ->
        rows !! i = Some empty_row).
Proof.
  intros Hnodup Hdone Hshoot.
  pose proof (complete_run_rows cube E N chunks schedule time rows
                Hnodup Hdone Hshoot) as Hrows.
  rewrite Hrows. apply expected_rows_lookup. exact Hnodup.
Qed.

(** Three rows and two threads with one draw each: rows 0 and 1 hold the
    first draws of the engines seeded 123 and 124, row 2 is untouched. *)
Lemma every_draw_is_stored_at_its_index_witness :
  exists time rows,
    shoot_vector the_cube env_default 3 [[0%nat]; [1%nat]] [1; 0; 0; 1]%nat
    = Returned (time, rows)
    /\ rows !! 0%nat
       = Some (fst (draw the_cube (mt19937 123) (BetaObject (beta_distribution 3 2))))
    /\ rows !! 1%nat
       = Some (fst (draw the_cube (mt19937 124) (BetaObject (beta_distribution 3 2))))
    /\ rows !! 2%nat = Some empty_row.
Proof.
  assert (Hnodup : NoDup (concat [[0%nat]; [1%nat]])).
  { cbn. apply NoDup_cons. split; [| apply NoDup_singleton].
    intros Hin. apply list_elem_of_singleton in Hin. discriminate. }
  destruct (shoot_vector the_cube env_default 3 [[0%nat]; [1%nat]] [1; 0; 0; 1]%nat)
    as [[time rows] | | |] eqn:Hshoot; try (vm_compute in Hshoot; discriminate).
  destruct (every_draw_is_stored_at_its_index the_cube env_default 3
              [[0%nat]; [1%nat]] [1; 0; 0; 1]%nat time rows Hnodup
              ltac:(vm_compute; reflexivity) Hshoot) as [Howned Hfree].
  exists time, rows. split; [reflexivity |].
  split; [| split].
  - apply (Howned 0%nat [0%nat]); [reflexivity | left | cbn; lia].
  - apply (Howned 1%nat [1%nat]); [reflexivity | left | cbn; lia].
  - apply Hfree; [| cbn; lia].
    cbn. intros Hin. apply elem_of_cons in Hin as [Heq | Hin]; [discriminate |].
    apply list_elem_of_singleton in Hin. discriminate.
Defined.

(** X15. In the build without OpenMP a call of [shoot_vector] returns
    only for fewer than 2^31 vectors, the range in which the [int] counter
    of its loop does not overflow, and the execution time it returns is
    then the sum of the times measured around the draws 0, 1, ..., N-1,
    added in this order starting from 0. *)
Theorem serial_time_is_the_sum `{Platform} (cube : Cube.cube) (E : os_env)
    (N : Z) (time : double) (rows : list result_row) :
  shoot_vector_serial cube E N = Returned (time, rows) ->
  N < 2 ^ 31
  /\ time = fold_left (fun acc i => dadd acc (elapsed_time_sec i))
                      (seq 0 (Z.to_nat N)) (d_of_Z 0).
Proof. apply shoot_vector_serial_total. Qed.

(** Three draws measured 1, 2 and 3 seconds. *)
Lemma serial_time_is_the_sum_witness :
  exists time rows,
    shoot_vector_serial the_cube env_default 3 = Returned (time, rows)
    /\ time = d_of_Z 6.
Proof.
  destruct (shoot_vector_serial the_cube env_default 3)
    as [[time rows] | | |] eqn:Hshoot; try (vm_compute in Hshoot; discriminate).
  exists time, rows. split; [reflexivity |].
  rewrite (proj2 (serial_time_is_the_sum the_cube env_default 3 time rows Hshoot)).
  vm_compute. reflexivity.
Defined.

(** ** What a run of [main] that returns has done *)

Lemma read_list_size (E : os_env) (variable : string) (default : Z -> double)
    (size_k : Z) (l : list double) :
  0 <= size_k ->
  read_list E variable default size_k = Returned l -> vsize l = size_k.
Proof.
  intros Hk. unfold read_list.
  destruct (getenv E variable) as [file |].
  - destruct (ifstream E file) as [contents |]; [| discriminate].
    destruct (vsize (extract_all contents) =? size_k) eqn:Heq; [| discriminate].
    intros [= <-]. apply Z.eqb_eq. exact Heq.
  - intros [= <-]. unfold vsize. rewrite length_map, length_seq. lia.
Qed.

(** The lists that the evaluation of the arguments leaves are those the
    readers return. *)
Lemma eval_args_loaded (E : os_env) (size_k : Z) (order : list metadata_arg) :
  forall md0 md : metadata,
    eval_args E size_k order md0 = Returned md ->
    ((forall l, md_timestamp md0 = Some l -> read_timestamp E size_k = Returned l)
     /\ (forall l, md_exposuretime md0 = Some l ->
                   read_exposuretime E size_k = Returned l)
     /\ (forall l, md_psf md0 = Some l -> read_psf E size_k = Returned l)) ->
    (forall l, md_timestamp md = Some l -> read_timestamp E size_k = Returned l)
    /\ (forall l, md_exposuretime md = Some l ->
                  read_exposuretime E size_k = Returned l)
    /\ (forall l, md_psf md = Some l -> read_psf E size_k = Returned l).
Proof.
  induction order as [| a rest IH]; intros md0 md Heval Hloaded.
  - injection Heval as <-. exact Hloaded.
  - cbn [eval_args] in Heval.
    apply bind_returned in Heval as (md1 & Harg & Heval).
    apply (IH md1 md Heval).
    destruct Hloaded as (Ht & He & Hp).
    destruct a; unfold eval_arg in Harg;
      apply bind_returned in Harg as (l0 & Hread & Harg);
      injection Harg as <-; cbn [md_timestamp md_exposuretime md_psf];
      repeat split; try assumption; intros l [= <-]; exact Hread.
Qed.

Lemma catalog_of_rows (rows : list result_row) :
  csv_rows (write_tocsv rows) = length rows
  /\ csv_ids (write_tocsv rows) = seqZ 0 (Z.of_nat (length rows)).
Proof.
  rewrite write_tocsv_rows.
  change (csv_rows (Tstring csv_header :: ?l)) with (csv_rows l).
  change (csv_ids (Tstring csv_header :: ?l)) with (csv_ids l).
  pose proof (csv_rows_rows rows 0) as Hcount.
  pose proof (csv_ids_rows rows 0) as Hseq.
  change (fun i row => write_row (0 + Z.of_nat i) row)
    with (fun i row => write_row (Z.of_nat i) row) in Hcount, Hseq.
  split; assumption.
Qed.

(** X16. When [main] returns, the pixel store was mapped with elements of
    4 bytes, each of the three readers returned a list with one value for
    each frame, the number N of vectors was read, [shoot_vector] returned
    a vector of N rows for the cube built from these, and the text that
    [write_tocsv] sends to the stream of vector_output.csv is the text of
    these rows: one line for each of the N vectors, with the IDs 0 to
    N-1. *)
Theorem main_returns_a_full_catalog `{Platform} (E : os_env) (filename : string)
    (order : list metadata_arg) (chunks : list (list nat)) (schedule : list nat)
    (out csv : list token) :
  main E filename order chunks schedule = Returned (out, csv) ->
  exists (size_x size_y size_k N : Z) (image_data : Cube.umap_fits_cube)
         (ts ex ps : list double) (time : double) (rows : list result_row),
    PerFits_alloc_cube E filename = Some (4, size_x, size_y, size_k, image_data)
    /\ read_timestamp E size_k = Returned ts
    /\ read_exposuretime E size_k = Returned ex
    /\ read_psf E size_k = Returned ps
    /\ (0 <= size_k -> vsize ts = size_k /\ vsize ex = size_k /\ vsize ps = size_k)
    /\ get_num_vectors E = Returned N
    /\ shoot_vector (cube_of_main size_x size_y size_k image_data ts ex ps)
                    E N chunks schedule = Returned (time, rows)
    /\ length rows = Z.to_nat N
    /\ csv =
         Tstring ("ID,X_INTERCEPT,Y_INTERCEPT,X_SLOPE,Y_SLOPE,SNR,SUM,NUMBER_OF_FRAMES_HIT"
                  ++ String "010"%char EmptyString)
         :: concat
              (imap (fun i row =>
                       let '(v, snr, sum, frames) := row in
                       [ Tlonglong (Z.of_nat i); Tchar ","%char;
                         Tdouble (x_intercept v); Tchar ","%char;
                         Tdouble (y_intercept v); Tchar ","%char;
                         Tdouble (x_slope v); Tchar ","%char;
                         Tdouble (y_slope v); Tchar ","%char;
                         Tdouble snr; Tchar ","%char;
                         Tdouble sum; Tchar ","%char;
                         Tint frames; Tchar ","%char;
                         Tchar "010"%char ]) rows)
    /\ csv_rows csv = Z.to_nat N
    /\ csv_ids csv = seqZ 0 N.
Proof.
  unfold main. intros Hmain.
  apply bind_returned in Hmain as ([[[sx sy] sk] img] & Hmap & Hmain).
  apply bind_returned in Hmain as (md & Hargs & Hmain).
  destruct (eval_args_loaded E sk order _ md Hargs) as (Ht & He & Hp).
  { cbn. repeat split; intros l [=]. }
  destruct (md_timestamp md) as [ts |]; [| discriminate].
  destruct (md_exposuretime md) as [ex |]; [| discriminate].
  destruct (md_psf md) as [ps |]; [| discriminate].
  apply bind_returned in Hmain as (N & Hnum & Hmain).
  apply bind_returned in Hmain as ([time rows] & Hshoot & Hmain).
  injection Hmain as <- <-.
  pose proof (shoot_vector_length _ E N chunks schedule time rows Hshoot) as Hlen.
  destruct (catalog_of_rows rows) as [Hrows Hids].
  unfold map_fits in Hmap.
  destruct (PerFits_alloc_cube E filename) as [[[[[bpe sx'] sy'] sk'] img'] |];
    [| discriminate].
  destruct (4 =? bpe) eqn:Hbpe; [| discriminate].
  apply Z.eqb_eq in Hbpe. subst bpe. injection Hmap as -> -> -> ->.
  exists sx, sy, sk, N, img, ts, ex, ps, time, rows.
  split; [reflexivity |].
  split; [exact (Ht ts eq_refl) |]. split; [exact (He ex eq_refl) |].
  split; [exact (Hp ps eq_refl) |].
  split.
  { intros Hk. repeat split.
    - exact (read_list_size E _ _ sk ts Hk (Ht ts eq_refl)).
    - exact (read_list_size E _ _ sk ex Hk (He ex eq_refl)).
    - exact (read_list_size E _ _ sk ps Hk (Hp ps eq_refl)). }
  split; [exact Hnum |].
  split; [exact Hshoot |]. split; [exact Hlen |].
  split; [apply write_tocsv_text |].
  split; [rewrite Hrows; exact Hlen |].
  rewrite Hids, Hlen. unfold seqZ. rewrite !Nat2Z.id. reflexivity.
Qed.

(** The sample store, no metadata file, and NUM_VECTORS set to 2. *)
Lemma main_returns_a_full_catalog_witness :
  let E := {| getenv := fun name =>
                if String.eqb name "NUM_VECTORS" then Some "2"%string else None;
              ifstream := fun _ => None;
              stoll := fun _ => Some 2;
              PerFits_alloc_cube := fun _ => Some (4, 4, 4, 3, store) |} in
  exists out csv,
    main E "cube.fits" [ArgPsf; ArgExposuretime; ArgTimestamp]
         [[0%nat]; [1%nat]] [0; 1; 0; 1]%nat = Returned (out, csv)
    /\ csv_rows csv = 2%nat /\ csv_ids csv = [0; 1].
Proof.
  intros E.
  destruct (main E "cube.fits" [ArgPsf; ArgExposuretime; ArgTimestamp]
                 [[0%nat]; [1%nat]] [0; 1; 0; 1]%nat)
    as [[out csv] | | |] eqn:Hmain; try (vm_compute in Hmain; discriminate).
  exists out, csv. split; [reflexivity |].
  destruct (main_returns_a_full_catalog E "cube.fits" _ _ _ out csv Hmain)
    as (sx & sy & sk & N & img & ts & ex & ps & time & rows & _ & _ & _ & _ & _
        & Hnum & _ & _ & _ & Hrows & Hids).
  injection Hnum as <-. split; [exact Hrows | exact Hids].
Defined.

(** * The page benchmark *)

(** ** Integers in memory *)

Lemma encode_le_length (n : nat) : forall v : Z, length (Nvme.encode_le n v) = n.
Proof. induction n as [| n IH]; intros v; [reflexivity |]. cbn. rewrite IH. reflexivity. Qed.

(** Bytes written for an integer are read back as the integer, reduced to
    the number of bytes. *)
Lemma decode_encode_le (n : nat) : forall v : Z,
  Nvme.decode_le (Nvme.encode_le n v) = v mod 256 ^ Z.of_nat n.
Proof.
  induction n as [| n IH]; intros v.
  - cbn. rewrite Z.mod_1_r. reflexivity.
  - cbn [Nvme.encode_le Nvme.decode_le]. rewrite IH.
    rewrite Nat2Z.inj_succ, Z.pow_succ_r by lia.
    rewrite Z.rem_mul_r by lia. reflexivity.
Qed.

Lemma load_store_u64 (v : Z) (buf : list Z) :
  Nvme.load_u64 (Nvme.store_u64 v buf) = v mod 2 ^ 64.
Proof.
  unfold Nvme.load_u64, Nvme.store_u64.
  rewrite take_app_length' by (symmetry; apply encode_le_length).
  apply (decode_encode_le 8).
Qed.

Lemma store_u64_size (v : Z) (buf : list Z) :
  8 <= vsize buf -> vsize (Nvme.store_u64 v buf) = vsize buf.
Proof.
  unfold vsize, Nvme.store_u64. intros Hb.
  rewrite length_app, encode_le_length, length_drop. lia.
Qed.

Lemma page_word_range (pagesize i : Z) : 0 <= Nvme.page_word pagesize i < 2 ^ 64.
Proof.
  unfold Nvme.page_word, wrap64.
  pose proof (Z.mod_pos_bound (i * pagesize) (2 ^ 64) ltac:(lia)) as Hm.
  split; [apply Z.div_pos; lia |].
  apply Z.div_lt_upper_bound; lia.
Qed.

(** ** Bytes in a file *)

Lemma nth_take {A : Type} (l : list A) (d : A) : forall j n : nat,
  (j < n)%nat -> nth j (take n l) d = nth j l d.
Proof.
  induction l as [| x rest IH]; intros j n Hj.
  - destruct n, j; reflexivity.
  - destruct n as [| n]; [lia |]. destruct j as [| j]; [reflexivity |].
    cbn. apply IH. lia.
Qed.

(** The byte at an offset after a write. *)
Lemma byte_at_pwrite (buf : list Z) (off : Z) (f : Nvme.file) (k : Z) :
  0 <= off ->
  Nvme.byte_at (Nvme.pwrite buf off f) k
  = if (off <=? k) && (k <? off + vsize buf)
    then nth (Z.to_nat (k - off)) buf 0
    else Nvme.byte_at f k.
Proof.
  intros Hoff. destruct buf as [| b rest] eqn:Hbuf.
  - cbn [Nvme.pwrite]. unfold vsize. cbn [length].
    replace ((off <=? k) && (k <? off + Z.of_nat 0)) with false; [reflexivity |].
    symmetry. apply andb_false_iff.
    destruct (Z.le_gt_cases off k); [right; apply Z.ltb_ge; lia | left; apply Z.leb_gt; lia].
  - rewrite <- Hbuf. assert (Hlen : 0 < vsize buf) by (subst; unfold vsize; cbn; lia).
    replace (Nvme.pwrite buf off f)
      with {| Nvme.f_size := Z.max (Nvme.f_size f) (off + vsize buf);
              Nvme.f_byte := fun k =>
                if (off <=? k) && (k <? off + vsize buf)
                then nth (Z.to_nat (k - off)) buf 0
                else Nvme.byte_at f k |}
      by (subst; reflexivity).
    unfold Nvme.byte_at at 1. cbn [Nvme.f_size Nvme.f_byte].
    destruct ((off <=? k) && (k <? off + vsize buf)) eqn:Hin.
    + apply andb_true_iff in Hin as [H1 H2].
      apply Z.leb_le in H1. apply Z.ltb_lt in H2.
      replace ((0 <=? k) && (k <? Z.max (Nvme.f_size f) (off + vsize buf))) with true;
        [reflexivity |].
      symmetry. apply andb_true_iff. split; [apply Z.leb_le | apply Z.ltb_lt]; lia.
    + destruct ((0 <=? k) && (k <? Z.max (Nvme.f_size f) (off + vsize buf))) eqn:Hsz;
        [reflexivity |].
      unfold Nvme.byte_at.
      destruct ((0 <=? k) && (k <? Nvme.f_size f)) eqn:Hold; [| reflexivity].
      apply andb_true_iff in Hold as [H1 H2].
      apply Z.leb_le in H1. apply Z.ltb_lt in H2.
      apply andb_false_iff in Hsz as [Hsz | Hsz];
        [apply Z.leb_gt in Hsz | apply Z.ltb_ge in Hsz]; lia.
Qed.

Lemma pwrite_size_eq (buf : list Z) (off : Z) (f : Nvme.file) :
  buf <> [] ->
  Nvme.f_size (Nvme.pwrite buf off f) = Z.max (Nvme.f_size f) (off + vsize buf).
Proof.
  destruct buf as [| b rest]; [congruence | reflexivity].
Qed.

Lemma pwrite_size (buf : list Z) (off : Z) (f : Nvme.file) :
  Nvme.f_size f <= Nvme.f_size (Nvme.pwrite buf off f)
  /\ (buf <> [] -> off + vsize buf <= Nvme.f_size (Nvme.pwrite buf off f)).
Proof.
  destruct buf as [| b rest]; cbn [Nvme.pwrite Nvme.f_size].
  - split; [lia | congruence].
  - split; [lia | intros _; lia].
Qed.

(** What was written is what is read at the same place. *)
Lemma pwrite_read_back (buf : list Z) (off : Z) (f : Nvme.file) (n : nat) :
  0 <= off -> (n <= length buf)%nat ->
  map (Nvme.byte_at (Nvme.pwrite buf off f)) (seqZ off (Z.of_nat n)) = take n buf.
Proof.
  intros Hoff. induction n as [| n IH]; intros Hn; [reflexivity |].
  rewrite seqZ_S, map_app, IH by lia.
  destruct (lookup_lt_is_Some_2 buf n ltac:(lia)) as [x Hx].
  rewrite (take_S_r buf n x Hx). f_equal. cbn [map]. f_equal.
  rewrite byte_at_pwrite by exact Hoff.
  replace ((off <=? off + Z.of_nat n) && (off + Z.of_nat n <? off + vsize buf))
    with true
    by (symmetry; apply andb_true_iff; unfold vsize;
        split; [apply Z.leb_le | apply Z.ltb_lt]; lia).
  replace (Z.to_nat (off + Z.of_nat n - off)) with n by lia.
  rewrite nth_lookup, Hx. reflexivity.
Qed.

(** A write leaves the bytes outside its range as they were. *)
Lemma pwrite_elsewhere (buf : list Z) (off : Z) (f : Nvme.file) (from len : Z) :
  0 <= off -> from + len <= off \/ off + vsize buf <= from ->
  map (Nvme.byte_at (Nvme.pwrite buf off f)) (seqZ from len)
  = map (Nvme.byte_at f) (seqZ from len).
Proof.
  intros Hoff Hout. apply map_ext_in. intros k Hk.
  apply list_elem_of_In, elem_of_seqZ in Hk.
  rewrite byte_at_pwrite by exact Hoff.
  replace ((off <=? k) && (k <? off + vsize buf)) with false; [reflexivity |].
  symmetry. apply andb_false_iff.
  destruct Hout; [left; apply Z.leb_gt | right; apply Z.ltb_ge]; lia.
Qed.

Section PageLoops.

Variable dev : Nvme.device.
Variable pagesize : Z.
Variable threads : nat.

Hypothesis pagesize_fits_a_word : 8 <= pagesize.

Lemma offset_in_range (i : Z) :
  0 <= i -> (i + 1) * pagesize <= 2 ^ 63 ->
  wrap64 (i * pagesize) = i * pagesize
  /\ Nvme.bad_offset (i * pagesize) = false /\ 0 <= i * pagesize.
Proof.
  intros Hi Hend. assert (0 <= i * pagesize) by nia.
  split; [unfold wrap64; apply Z.mod_small; lia |].
  split; [unfold Nvme.bad_offset; apply Z.leb_gt; lia | lia].
Qed.

Lemma buffers_fit_lookup (bufs : list (list Z)) (t : nat) :
  buffers_fit pagesize threads bufs -> (t < threads)%nat ->
  exists buf, bufs !! t = Some buf /\ pagesize <= vsize buf.
Proof.
  intros [Hlen Hall] Ht.
  destruct (lookup_lt_is_Some_2 bufs t ltac:(lia)) as [buf Hbuf].
  exists buf. split; [exact Hbuf |].
  exact (proj1 (Forall_lookup _ _) Hall t buf Hbuf).
Qed.

Lemma buffers_fit_insert (bufs : list (list Z)) (t : nat) (buf : list Z) :
  buffers_fit pagesize threads bufs -> pagesize <= vsize buf ->
  buffers_fit pagesize threads (<[t := buf]> bufs).
Proof.
  intros [Hlen Hall] Hbuf. split; [rewrite length_insert; exact Hlen |].
  apply Forall_insert; assumption.
Qed.

(** One iteration of the writing loop, when nothing fails: the page is
    written, the other pages are as before, and nothing is printed. *)
Lemma write_page_done (st : Nvme.state) (t : nat) (i : Z) :
  0 <= i -> (i + 1) * pagesize <= 2 ^ 63 -> (t < threads)%nat ->
  buffers_fit pagesize threads (Nvme.st_bufs st) ->
  Nvme.write_error dev (i * pagesize) = false ->
  exists st',
    Nvme.write_page dev pagesize st (t, i) = Done st'
    /\ buffers_fit pagesize threads (Nvme.st_bufs st')
    /\ page_written pagesize (Nvme.st_file st') i
    /\ (forall j, 0 <= j -> j <> i ->
          page_written pagesize (Nvme.st_file st) j ->
          page_written pagesize (Nvme.st_file st') j)
    /\ Nvme.st_out st' = Nvme.st_out st /\ Nvme.st_err st' = Nvme.st_err st
    /\ Nvme.f_size (Nvme.st_file st')
       = Z.max (Nvme.f_size (Nvme.st_file st)) ((i + 1) * pagesize).
Proof.
  intros Hi Hend Ht Hfit Hdev.
  destruct (buffers_fit_lookup _ t Hfit Ht) as (buf & Hbuf & Hsize).
  destruct (offset_in_range i Hi Hend) as (Hwrap & Hoff & Hpos).
  unfold Nvme.write_page. cbn [fst snd]. rewrite Hbuf.
  replace ((vsize buf <? 8) || (vsize buf <? pagesize)) with false
    by (symmetry; apply orb_false_iff; split; apply Z.ltb_ge; lia).
  rewrite Hwrap, Hoff, Hdev. cbn [orb].
  set (buf' := Nvme.store_u64 (Nvme.page_word pagesize i) buf).
  assert (Hsize' : vsize buf' = vsize buf) by (apply store_u64_size; lia).
  set (page := take (Z.to_nat pagesize) buf').
  assert (Hpage : vsize page = pagesize).
  { unfold page, vsize in *. rewrite length_take. lia. }
  assert (Hne : page <> []).
  { intros Heq. rewrite Heq in Hpage. unfold vsize in Hpage. cbn in Hpage. lia. }
  eexists. split; [reflexivity |].
  cbn [Nvme.set_file Nvme.set_buf Nvme.st_bufs Nvme.st_file Nvme.st_out Nvme.st_err].
  split; [apply buffers_fit_insert; [exact Hfit | lia] |].
  split; [| split; [| split; [reflexivity | split; [reflexivity |]]]].
  - split.
    + pose proof (proj2 (pwrite_size page (i * pagesize) (Nvme.st_file st)) Hne). lia.
    + unfold first_word.
      rewrite (pwrite_read_back page (i * pagesize) _ 8 Hpos)
        by (unfold vsize in Hpage; lia).
      unfold page. rewrite take_take.
      replace (8 `min` Z.to_nat pagesize)%nat with 8%nat by lia.
      unfold buf', Nvme.store_u64.
      rewrite take_app_length' by (symmetry; apply encode_le_length).
      rewrite (decode_encode_le 8).
      apply Z.mod_small. apply page_word_range.
  - intros j Hj Hne' [Hjsize Hjword]. split.
    + pose proof (proj1 (pwrite_size page (i * pagesize) (Nvme.st_file st))). lia.
    + unfold first_word in *. rewrite <- Hjword.
      f_equal. apply pwrite_elsewhere; [exact Hpos |]. rewrite Hpage.
      destruct (Z.lt_ge_cases j i); [left | right]; nia.
  - rewrite (pwrite_size_eq page _ _ Hne), Hpage. f_equal. lia.
Qed.

(** The writing loop, when nothing fails, goes through: each page of the
    order is written, the pages written before stay written, and nothing
    is printed. *)
Lemma write_loop_done (pages : Z) (order : list (nat * Z)) :
  pages * pagesize <= 2 ^ 63 ->
  (forall off, Nvme.write_error dev off = false) ->
  Forall (fun ti => (fst ti < threads)%nat /\ 0 <= snd ti < pages) order ->
  forall st : Nvme.state,
    buffers_fit pagesize threads (Nvme.st_bufs st) ->
    exists st',
      Nvme.do_write_pages dev pagesize order st = Done st'
      /\ buffers_fit pagesize threads (Nvme.st_bufs st')
      /\ (forall j, 0 <= j < pages ->
            j ∈ map snd order \/ page_written pagesize (Nvme.st_file st) j ->
            page_written pagesize (Nvme.st_file st') j)
      /\ Nvme.st_out st' = Nvme.st_out st /\ Nvme.st_err st' = Nvme.st_err st
      /\ (pages * pagesize <= Nvme.f_size (Nvme.st_file st) ->
          Nvme.f_size (Nvme.st_file st') = Nvme.f_size (Nvme.st_file st)).
Proof.
  intros Hpages Hdev. unfold Nvme.do_write_pages.
  induction 1 as [| [t i] rest [Ht Hi] _ IH]; intros st Hfit.
  - exists st. split; [reflexivity |]. split; [exact Hfit |].
    split; [| repeat split]. intros j _ [Hin | Hw]; [| exact Hw].
    apply elem_of_nil in Hin. destruct Hin.
  - cbn [fst snd] in Ht, Hi.
    destruct (write_page_done st t i ltac:(lia) ltac:(nia) Ht Hfit (Hdev _))
      as (st1 & Hstep & Hfit1 & Hwritten & Hkept & Hout1 & Herr1 & Hsize1).
    destruct (IH st1 Hfit1)
      as (st' & Hloop & Hfit' & Hpagesok & Hout' & Herr' & Hsize').
    exists st'. cbn [run_loop]. rewrite Hstep.
    split; [exact Hloop |]. split; [exact Hfit' |].
    split; [| split; [congruence | split; [congruence |]]];
      [| intros Hfull; assert (Nvme.f_size (Nvme.st_file st1)
                               = Nvme.f_size (Nvme.st_file st)) as Hsame by nia;
         rewrite <- Hsame; apply Hsize'; lia].
    intros j Hj Hcase. apply Hpagesok; [exact Hj |].
    destruct (Z.eq_dec j i) as [-> | Hne]; [right; exact Hwritten |].
    destruct Hcase as [Hin | Hw].
    + cbn [map snd] in Hin. apply elem_of_cons in Hin as [Heq | Hin];
        [contradiction | left; exact Hin].
    + right. apply Hkept; [lia | exact Hne | exact Hw].
Qed.

(** What one iteration of the reading loop finds in its buffer when the
    page is in the file. *)
Lemma read_page_word (f : Nvme.file) (i : Z) (buf : list Z) :
  0 <= i -> (i + 1) * pagesize <= Nvme.f_size f ->
  let data := Nvme.pread pagesize (i * pagesize) f in
  Nvme.load_u64 (data ++ drop (length data) buf) = first_word pagesize f i
  /\ Z.of_nat (length data) = pagesize.
Proof.
  intros Hi Hsize data.
  assert (Hdata : data = map (Nvme.byte_at f) (seqZ (i * pagesize) pagesize)).
  { unfold data, Nvme.pread. do 2 f_equal. lia. }
  assert (Hlen : Z.of_nat (length data) = pagesize).
  { rewrite Hdata, length_map, length_seqZ. lia. }
  split; [| exact Hlen].
  unfold Nvme.load_u64, first_word. f_equal.
  rewrite take_app_le by lia. rewrite Hdata.
  replace (seqZ (i * pagesize) pagesize)
    with (seqZ (i * pagesize) (8 + (pagesize - 8))) by (f_equal; lia).
  rewrite seqZ_app, map_app by lia.
  apply take_app_length'. rewrite length_map, length_seqZ. reflexivity.
Qed.

(** One iteration of the reading loop, when the read does not fail and
    the file has the page: it goes on when the page starts with the
    expected word, and otherwise prints the two words and exits with
    status 1. The file is not changed. *)
Lemma read_page_checks (st : Nvme.state) (t : nat) (i : Z) :
  0 <= i -> (i + 1) * pagesize <= 2 ^ 63 -> (t < threads)%nat ->
  buffers_fit pagesize threads (Nvme.st_bufs st) ->
  Nvme.read_error dev (i * pagesize) = false ->
  (i + 1) * pagesize <= Nvme.f_size (Nvme.st_file st) ->
  exists st',
    Nvme.read_page dev pagesize st (t, i)
    = (if first_word pagesize (Nvme.st_file st) i =? Nvme.page_word pagesize i
       then Done st'
       else Exited 1
              (Nvme.print [Tsize i; Tstring " ";
                           Tsize (first_word pagesize (Nvme.st_file st) i);
                           Tstring " != "; Tsize (Nvme.page_word pagesize i);
                           newline] st'))
    /\ buffers_fit pagesize threads (Nvme.st_bufs st')
    /\ Nvme.st_file st' = Nvme.st_file st
    /\ Nvme.st_out st' = Nvme.st_out st /\ Nvme.st_err st' = Nvme.st_err st.
Proof.
  intros Hi Hend Ht Hfit Hdev Hsize.
  destruct (buffers_fit_lookup _ t Hfit Ht) as (buf & Hbuf & Hbsize).
  destruct (offset_in_range i Hi Hend) as (Hwrap & Hoff & Hpos).
  unfold Nvme.read_page. cbn [fst snd]. rewrite Hbuf, Hwrap, Hoff, Hdev.
  cbn [orb].
  replace ((vsize buf <? 8) || (vsize buf <? pagesize)) with false
    by (symmetry; apply orb_false_iff; split; apply Z.ltb_ge; lia).
  destruct (read_page_word (Nvme.st_file st) i buf Hi Hsize) as [Hword Hlen].
  cbv zeta in Hword, Hlen. rewrite Hword.
  eexists. split; [destruct (_ =? _); reflexivity |].
  cbn [Nvme.set_buf Nvme.st_bufs Nvme.st_file Nvme.st_out Nvme.st_err].
  split; [| repeat split].
  apply buffers_fit_insert; [exact Hfit |].
  unfold vsize in *. rewrite length_app, length_drop. lia.
Qed.

(** The reading loop, when no read fails and the file has all the pages:
    it goes through when each page of the order starts with its word, and
    otherwise it exits with status 1 at a page that does not, after
    printing the page, the word found and the word expected. *)
Lemma read_loop_result (pages : Z) (order : list (nat * Z)) :
  pages * pagesize <= 2 ^ 63 ->
  (forall off, Nvme.read_error dev off = false) ->
  Forall (fun ti => (fst ti < threads)%nat /\ 0 <= snd ti < pages) order ->
  forall st : Nvme.state,
    buffers_fit pagesize threads (Nvme.st_bufs st) ->
    pages * pagesize <= Nvme.f_size (Nvme.st_file st) ->
    exists st',
      buffers_fit pagesize threads (Nvme.st_bufs st')
      /\ Nvme.st_file st' = Nvme.st_file st
      /\ Nvme.st_out st' = Nvme.st_out st /\ Nvme.st_err st' = Nvme.st_err st
      /\ ((Forall (fun ti => first_word pagesize (Nvme.st_file st) (snd ti)
                            = Nvme.page_word pagesize (snd ti)) order
           /\ Nvme.do_read_pages dev pagesize order st = Done st')
          \/ (exists i,
                i ∈ map snd order
                /\ first_word pagesize (Nvme.st_file st) i
                   <> Nvme.page_word pagesize i
                /\ Nvme.do_read_pages dev pagesize order st
                   = Exited 1
                       (Nvme.print
                          [Tsize i; Tstring " ";
                           Tsize (first_word pagesize (Nvme.st_file st) i);
                           Tstring " != "; Tsize (Nvme.page_word pagesize i);
                           newline] st'))).
Proof.
  intros Hpages Hdev. unfold Nvme.do_read_pages.
  induction 1 as [| [t i] rest [Ht Hi] _ IH]; intros st Hfit Hsize.
  - exists st. split; [exact Hfit |]. do 3 (split; [reflexivity |]).
    left. split; [constructor | reflexivity].
  - cbn [fst snd] in Ht, Hi.
    destruct (read_page_checks st t i ltac:(lia) ltac:(nia) Ht Hfit (Hdev _)
                ltac:(nia))
      as (st1 & Hstep & Hfit1 & Hfile1 & Hout1 & Herr1).
    cbn [run_loop]. rewrite Hstep.
    destruct (first_word pagesize (Nvme.st_file st) i =? Nvme.page_word pagesize i)
      eqn:Hword.
    + apply Z.eqb_eq in Hword.
      destruct (IH st1 Hfit1 ltac:(rewrite Hfile1; exact Hsize))
        as (st' & Hfit' & Hfile' & Hout' & Herr' & Hres).
      rewrite Hfile1 in Hres.
      exists st'. split; [exact Hfit' |].
      split; [congruence |]. split; [congruence |]. split; [congruence |].
      destruct Hres as [[Hall Hdone] | (k & Hin & Hbad & Hexit)].
      * left. split; [constructor; [exact Hword | exact Hall] | exact Hdone].
      * right. exists k. split; [cbn [map snd]; apply elem_of_cons; right; exact Hin |].
        split; [exact Hbad | exact Hexit].
    + apply Z.eqb_neq in Hword.
      exists st1. split; [exact Hfit1 |]. split; [exact Hfile1 |].
      split; [exact Hout1 |]. split; [exact Herr1 |].
      right. exists i. split; [cbn [map snd]; apply elem_of_cons; left; reflexivity |].
      split; [exact Hword | reflexivity].
Qed.

End PageLoops.

(** An order of the loop runs pages of the file only. *)
Lemma loop_order_range (pages : Z) (threads : nat) (order : list (nat * Z)) :
  Nvme.loop_order pages threads order ->
  Forall (fun ti => (fst ti < threads)%nat /\ 0 <= snd ti < pages) order.
Proof.
  intros [Hperm Hthreads]. apply Forall_forall. intros ti Hin. split.
  - exact (proj1 (Forall_forall _ _) Hthreads ti Hin).
  - assert (Hsnd : snd ti ∈ map snd order) by (apply list_elem_of_fmap_2; exact Hin).
    rewrite Hperm in Hsnd. apply elem_of_seqZ in Hsnd. lia.
Qed.

Lemma loop_order_all (pages : Z) (threads : nat) (order : list (nat * Z)) (j : Z) :
  Nvme.loop_order pages threads order -> 0 <= j < pages -> j ∈ map snd order.
Proof.
  intros [Hperm _] Hj. rewrite Hperm. apply elem_of_seqZ. lia.
Qed.

(** No step of the reading loop changes the file. *)
Lemma read_page_file (dev : Nvme.device) (pagesize : Z) (st : Nvme.state)
    (ti : nat * Z) :
  Nvme.st_file (reached (Nvme.read_page dev pagesize st ti)) = Nvme.st_file st.
Proof.
  unfold Nvme.read_page.
  destruct (Nvme.st_bufs st !! fst ti); [| reflexivity].
  destruct (_ || _); [reflexivity |].
  destruct (_ || _); [reflexivity |].
  destruct (negb _); reflexivity.
Qed.

Lemma do_read_pages_file (dev : Nvme.device) (pagesize : Z)
    (order : list (nat * Z)) : forall st : Nvme.state,
  Nvme.st_file (reached (Nvme.do_read_pages dev pagesize order st))
  = Nvme.st_file st.
Proof.
  unfold Nvme.do_read_pages.
  induction order as [| ti rest IH]; intros st; [reflexivity |].
  cbn [run_loop]. pose proof (read_page_file dev pagesize st ti) as Hstep.
  destruct (Nvme.read_page dev pagesize st ti) as [st1 | status st1 | what st1];
    cbn [reached] in *; [rewrite IH |..]; exact Hstep.
Qed.

(** The allocation loop of [main] gives every thread its buffer when no
    allocation fails. *)
Lemma allocate_buffers (sur : Nvme.surroundings) (n : nat) : forall k : nat,
  (forall i, (i < n)%nat ->
     exists buf, Nvme.memalign sur (k + i) = Nvme.Buffer buf
                 /\ vsize buf = Nvme.page_size sur) ->
  exists bufs, Nvme.allocate sur n k = inl bufs
               /\ buffers_fit (Nvme.page_size sur) n bufs.
Proof.
  induction n as [| n IH]; intros k Hgiven.
  - exists []. split; [reflexivity |]. split; [reflexivity | constructor].
  - destruct (Hgiven 0%nat ltac:(lia)) as (buf & Hbuf & Hsize).
    rewrite Nat.add_0_r in Hbuf.
    destruct (IH (S k)) as (bufs & Hrest & Hlen & Hall).
    { intros i Hi. destruct (Hgiven (S i) ltac:(lia)) as (b & Hb & Hs).
      exists b. split; [| exact Hs]. rewrite <- Hb. f_equal. lia. }
    exists (buf :: bufs). cbn [Nvme.allocate]. rewrite Hbuf, Hrest.
    split; [reflexivity |]. split; [cbn; lia |].
    constructor; [lia | exact Hall].
Qed.

(** The reading program on a file whose pages all start with their
    words. *)
Lemma read_pages_accepts (dev : Nvme.device) (opts : Nvme.options)
    (sur : Nvme.surroundings) (bufs : list (list Z)) (sys : Nvme.system)
    (f : Nvme.file) :
  8 <= Nvme.page_size sur -> 0 < Nvme.numpages opts ->
  Nvme.numpages opts * Nvme.page_size sur <= 2 ^ 63 ->
  no_error dev ->
  Nvme.loop_order (Nvme.numpages opts) (Z.to_nat (Nvme.numthreads opts))
                  (Nvme.iterations sur) ->
  buffers_fit (Nvme.page_size sur) (Z.to_nat (Nvme.numthreads opts)) bufs ->
  Nvme.sys_file sys = Some f ->
  Nvme.numpages opts * Nvme.page_size sur <= Nvme.f_size f ->
  pages_marked (Nvme.page_size sur) (Nvme.numpages opts) f ->
  Nvme.read_pages dev opts sur bufs sys
  = Done {| Nvme.sys_file := Some f;
            Nvme.sys_out := Nvme.sys_out sys ++ Nvme.report "read," opts sur;
            Nvme.sys_err := Nvme.sys_err sys |}.
Proof.
  intros Hps Hpages Hend [Hopen Hdev] Horder Hfit Hfile Hsize Hmarked.
  unfold Nvme.read_pages. rewrite Hopen, Hfile.
  destruct (read_loop_result dev _ _ Hps _ _ Hend (fun off => proj1 (proj2 (Hdev off)))
              (loop_order_range _ _ _ Horder) (Nvme.opened f bufs sys) Hfit Hsize)
    as (st' & _ & Hfile' & Hout' & Herr' & [[_ Hdone] | (i & Hin & Hbad & _)]).
  - rewrite Hdone. unfold Nvme.finish.
    replace (Nvme.numpages opts =? 0) with false by (symmetry; apply Z.eqb_neq; lia).
    unfold Nvme.closed, Nvme.print. cbn [Nvme.st_file Nvme.st_out Nvme.st_err].
    rewrite Hfile', Hout', Herr'. reflexivity.
  - exfalso. apply Hbad. apply Hmarked.
    destruct Horder as [Hperm _]. rewrite Hperm in Hin.
    apply elem_of_seqZ in Hin. lia.
Qed.

(** ** What the programs do *)

(** The writing program when the system refuses nothing. *)
Lemma write_pages_fills (dev : Nvme.device) (opts : Nvme.options)
    (sur : Nvme.surroundings) (bufs : list (list Z)) (sys : Nvme.system) :
  8 <= Nvme.page_size sur -> 0 < Nvme.numpages opts ->
  Nvme.numpages opts * Nvme.page_size sur < 2 ^ 63 ->
  no_error dev ->
  Nvme.loop_order (Nvme.numpages opts) (Z.to_nat (Nvme.numthreads opts))
                  (Nvme.iterations sur) ->
  buffers_fit (Nvme.page_size sur) (Z.to_nat (Nvme.numthreads opts)) bufs ->
  exists f,
    Nvme.write_pages dev opts sur bufs sys
    = Done {| Nvme.sys_file := Some f;
              Nvme.sys_out := Nvme.sys_out sys ++ Nvme.report "write," opts sur;
              Nvme.sys_err := Nvme.sys_err sys |}
    /\ Nvme.f_size f = Nvme.numpages opts * Nvme.page_size sur
    /\ pages_marked (Nvme.page_size sur) (Nvme.numpages opts) f.
Proof.
  intros Hps Hpages Hend [Hopen Hdev] Horder Hfit.
  unfold Nvme.write_pages. rewrite Hopen.
  assert (Hlen : wrap64 (Nvme.numpages opts * Nvme.page_size sur)
                 = Nvme.numpages opts * Nvme.page_size sur)
    by (unfold wrap64; apply Z.mod_small; nia).
  rewrite Hlen. unfold Nvme.fallocate_fails, Nvme.bad_offset.
  replace (Nvme.numpages opts * Nvme.page_size sur =? 0) with false
    by (symmetry; apply Z.eqb_neq; nia).
  replace (2 ^ 63 <=? Nvme.numpages opts * Nvme.page_size sur) with false
    by (symmetry; apply Z.leb_gt; lia).
  rewrite (proj2 (proj2 (Hdev _))). cbn [orb].
  set (st := Nvme.opened _ bufs sys).
  destruct (write_loop_done dev _ _ Hps (Nvme.numpages opts) _ (Z.lt_le_incl _ _ Hend)
              (fun off => proj1 (Hdev off))
              (loop_order_range _ _ _ Horder) st Hfit)
    as (st' & Hdone & _ & Hwritten & Hout' & Herr' & Hsize').
  rewrite Hdone. unfold Nvme.finish.
  replace (Nvme.numpages opts =? 0) with false by (symmetry; apply Z.eqb_neq; lia).
  exists (Nvme.st_file st'). split; [| split].
  - unfold Nvme.closed, Nvme.print. cbn [Nvme.st_file Nvme.st_out Nvme.st_err].
    rewrite Hout', Herr'. reflexivity.
  - rewrite Hsize'; unfold st; cbn; lia.
  - intros j Hj. apply (Hwritten j Hj). left.
    exact (loop_order_all _ _ _ j Horder Hj).
Qed.

(** X17. The writing program, when the system refuses nothing: whatever
    the order in which the threads take the pages and whatever the file
    held before, it returns after printing its report, and it leaves a
    file of numpages pages in which every page [j] starts with its word,
    [j * pagesize / 8] computed in [uint64_t]. *)
Theorem write_pages_marks_every_page (dev : Nvme.device) (opts : Nvme.options)
    (sur : Nvme.surroundings) (bufs : list (list Z)) (sys : Nvme.system) :
  8 <= Nvme.page_size sur -> 0 < Nvme.numpages opts ->
  Nvme.numpages opts * Nvme.page_size sur < 2 ^ 63 ->
  no_error dev ->
  Nvme.loop_order (Nvme.numpages opts) (Z.to_nat (Nvme.numthreads opts))
                  (Nvme.iterations sur) ->
  buffers_fit (Nvme.page_size sur) (Z.to_nat (Nvme.numthreads opts)) bufs ->
  exists f,
    Nvme.write_pages dev opts sur bufs sys
    = Done {| Nvme.sys_file := Some f;
              Nvme.sys_out := Nvme.sys_out sys ++ Nvme.report "write," opts sur;
              Nvme.sys_err := Nvme.sys_err sys |}
    /\ Nvme.f_size f = Nvme.numpages opts * Nvme.page_size sur
    /\ (forall j, 0 <= j < Nvme.numpages opts ->
          first_word (Nvme.page_size sur) f j
          = wrap64 (j * Nvme.page_size sur) / 8).
Proof.
  apply write_pages_fills.
Qed.

Lemma write_pages_marks_every_page_witness :
  exists f,
    Nvme.write_pages PageSample.quiet PageSample.three_pages PageSample.writing
                     PageSample.two_buffers PageSample.with_zeros
    = Done {| Nvme.sys_file := Some f;
              Nvme.sys_out := Nvme.report "write," PageSample.three_pages
                                          PageSample.writing;
              Nvme.sys_err := [] |}
    /\ Nvme.f_size f = 48
    /\ (forall j, 0 <= j < 3 -> first_word 16 f j = wrap64 (j * 16) / 8).
Proof.
  apply (write_pages_marks_every_page PageSample.quiet PageSample.three_pages
           PageSample.writing PageSample.two_buffers PageSample.with_zeros).
  - cbn. lia.
  - cbn. lia.
  - cbn. lia.
  - split; [reflexivity | intros off; repeat split].
  - split; [reflexivity | repeat constructor].
  - split; [reflexivity | repeat constructor; discriminate].
Defined.

(** X18. The check of the reading loop, when no read fails and the file
    has numpages pages: whatever the order of the iterations and whatever
    the buffers hold, the loop runs to its end exactly when every page
    [j] of the file starts with its word, [j * pagesize / 8] computed in
    [uint64_t]. *)
Theorem read_loop_accepts_marked_files (dev : Nvme.device) (pagesize pages : Z)
    (threads : nat) (order : list (nat * Z)) (st : Nvme.state) :
  8 <= pagesize -> pages * pagesize <= 2 ^ 63 ->
  (forall off, Nvme.read_error dev off = false) ->
  Nvme.loop_order pages threads order ->
  buffers_fit pagesize threads (Nvme.st_bufs st) ->
  pages * pagesize <= Nvme.f_size (Nvme.st_file st) ->
  (exists st', Nvme.do_read_pages dev pagesize order st = Done st')
  <-> (forall j, 0 <= j < pages ->
         first_word pagesize (Nvme.st_file st) j = wrap64 (j * pagesize) / 8).
Proof.
  intros Hps Hend Hdev Horder Hfit Hsize.
  destruct (read_loop_result dev _ _ Hps _ _ Hend Hdev
              (loop_order_range _ _ _ Horder) st Hfit Hsize)
    as (st' & _ & _ & _ & _ & [[Hall Hdone] | (i & Hin & Hbad & Hexit)]).
  - split; [| intros _; exists st'; exact Hdone].
    intros _ j Hj.
    pose proof (loop_order_all _ _ _ j Horder Hj) as Hin.
    apply list_elem_of_fmap in Hin as (ti & -> & Hti).
    exact (proj1 (Forall_forall _ _) Hall ti Hti).
  - split.
    + intros [st'' Hdone]. rewrite Hexit in Hdone. discriminate.
    + intros Hmarked. exfalso. apply Hbad. apply Hmarked.
      destruct Horder as [Hperm _]. rewrite Hperm in Hin.
      apply elem_of_seqZ in Hin. lia.
Qed.

Lemma read_loop_accepts_marked_files_witness :
  (exists st', Nvme.do_read_pages PageSample.quiet 16
                 (Nvme.iterations PageSample.reading) PageSample.reading_state
               = Done st')
  <-> (forall j, 0 <= j < 3 -> first_word 16 PageSample.zeros j = wrap64 (j * 16) / 8).
Proof.
  apply (read_loop_accepts_marked_files PageSample.quiet 16 3 2
           (Nvme.iterations PageSample.reading) PageSample.reading_state).
  - lia.
  - lia.
  - reflexivity.
  - split; [apply (bool_decide_unpack _); vm_compute; reflexivity
           | repeat constructor].
  - split; [reflexivity | repeat constructor; discriminate].
  - cbn. lia.
Defined.

(** X19. The reading program on a file of numpages pages one of which
    does not start with its word, when the system refuses nothing: under
    every order of the iterations the run ends by [exit(1)]; it does not
    return, and the file is as it was. *)
Theorem bad_page_ends_the_run (dev : Nvme.device) (opts : Nvme.options)
    (sur : Nvme.surroundings) (bufs : list (list Z)) (sys : Nvme.system)
    (f : Nvme.file) (j : Z) :
  8 <= Nvme.page_size sur ->
  Nvme.numpages opts * Nvme.page_size sur <= 2 ^ 63 ->
  no_error dev ->
  Nvme.loop_order (Nvme.numpages opts) (Z.to_nat (Nvme.numthreads opts))
                  (Nvme.iterations sur) ->
  buffers_fit (Nvme.page_size sur) (Z.to_nat (Nvme.numthreads opts)) bufs ->
  Nvme.sys_file sys = Some f ->
  Nvme.numpages opts * Nvme.page_size sur <= Nvme.f_size f ->
  0 <= j < Nvme.numpages opts ->
  first_word (Nvme.page_size sur) f j <> wrap64 (j * Nvme.page_size sur) / 8 ->
  exists after,
    Nvme.read_pages dev opts sur bufs sys = Exited 1 after
    /\ Nvme.sys_file after = Some f.
Proof.
  intros Hps Hend [Hopen Hdev] Horder Hfit Hfile Hsize Hj Hbadj.
  unfold Nvme.read_pages. rewrite Hopen, Hfile.
  destruct (read_loop_result dev _ _ Hps _ _ Hend (fun off => proj1 (proj2 (Hdev off)))
              (loop_order_range _ _ _ Horder) (Nvme.opened f bufs sys) Hfit Hsize)
    as (st' & _ & Hfile' & _ & _ & [[Hall _] | (i & _ & _ & Hexit)]).
  - exfalso. apply Hbadj.
    pose proof (loop_order_all _ _ _ j Horder Hj) as Hin.
    apply list_elem_of_fmap in Hin as (ti & -> & Hti).
    exact (proj1 (Forall_forall _ _) Hall ti Hti).
  - rewrite Hexit. eexists. split; [reflexivity |].
    cbn [Nvme.closed Nvme.print Nvme.sys_file Nvme.st_file].
    cbn [Nvme.st_file Nvme.opened] in Hfile'. rewrite Hfile'. reflexivity.
Qed.

Lemma bad_page_ends_the_run_witness :
  exists after,
    Nvme.read_pages PageSample.quiet PageSample.three_pages PageSample.reading
                    PageSample.two_buffers PageSample.with_zeros
    = Exited 1 after
    /\ Nvme.sys_file after = Some PageSample.zeros.
Proof.
  apply (bad_page_ends_the_run PageSample.quiet PageSample.three_pages
           PageSample.reading PageSample.two_buffers PageSample.with_zeros
           PageSample.zeros 1).
  - cbn. lia.
  - cbn. lia.
  - split; [reflexivity | intros off; repeat split].
  - split; [apply (bool_decide_unpack _); vm_compute; reflexivity
           | repeat constructor].
  - split; [reflexivity | repeat constructor; discriminate].
  - reflexivity.
  - cbn. lia.
  - cbn. lia.
  - vm_compute. discriminate.
Defined.

(** X20. A writing run followed by a reading run of the same options,
    when the system refuses nothing and every thread gets its buffer: both
    return, the reading run finds every page as the writing run left it,
    whatever the two orders of the iterations and whatever the buffers
    held, and what was printed is the two reports. *)
Theorem write_then_read_returns (dev : Nvme.device) (opts : Nvme.options)
    (write read : Nvme.surroundings) (sys : Nvme.system) :
  8 <= Nvme.page_size write -> Nvme.page_size read = Nvme.page_size write ->
  0 < Nvme.numpages opts ->
  Nvme.numpages opts * Nvme.page_size write < 2 ^ 63 ->
  no_error dev ->
  buffers_given write (Z.to_nat (Nvme.numthreads opts)) ->
  buffers_given read (Z.to_nat (Nvme.numthreads opts)) ->
  Nvme.loop_order (Nvme.numpages opts) (Z.to_nat (Nvme.numthreads opts))
                  (Nvme.iterations write) ->
  Nvme.loop_order (Nvme.numpages opts) (Z.to_nat (Nvme.numthreads opts))
                  (Nvme.iterations read) ->
  exists after_write,
    Nvme.main dev opts write "nvmebenchmark-write" sys = Done after_write
    /\ Nvme.main dev opts read "nvmebenchmark-read" after_write
       = Done {| Nvme.sys_file := Nvme.sys_file after_write;
                 Nvme.sys_out := Nvme.sys_out sys
                                 ++ Nvme.report "write," opts write
                                 ++ Nvme.report "read," opts read;
                 Nvme.sys_err := Nvme.sys_err sys |}.
Proof.
  intros Hps Hsame Hpages Hend Hdev Hwbufs Hrbufs Hworder Hrorder.
  destruct (allocate_buffers write _ 0 Hwbufs) as (wbufs & Hwalloc & Hwfit).
  destruct (allocate_buffers read _ 0 Hrbufs) as (rbufs & Hralloc & Hrfit).
  destruct (write_pages_fills dev opts write wbufs sys Hps Hpages Hend Hdev
              Hworder Hwfit) as (f & Hwrite & Hsize & Hmarked).
  eexists. unfold Nvme.main. rewrite Hwalloc, Hralloc. cbn [String.eqb Ascii.eqb].
  cbn. rewrite Hwrite. split; [reflexivity |].
  rewrite (read_pages_accepts dev opts read rbufs _ f);
    rewrite ?Hsame; cbn [Nvme.sys_file Nvme.sys_out Nvme.sys_err];
    try assumption; try reflexivity; try lia.
  - rewrite <- app_assoc. reflexivity.
  - rewrite <- Hsame. exact Hrfit.
Qed.

Lemma write_then_read_returns_witness :
  exists after_write,
    Nvme.main PageSample.quiet PageSample.three_pages PageSample.writing
              "nvmebenchmark-write" PageSample.nothing
    = Done after_write
    /\ Nvme.main PageSample.quiet PageSample.three_pages PageSample.reading
                 "nvmebenchmark-read" after_write
       = Done {| Nvme.sys_file := Nvme.sys_file after_write;
                 Nvme.sys_out :=
                   Nvme.report "write," PageSample.three_pages PageSample.writing
                   ++ Nvme.report "read," PageSample.three_pages PageSample.reading;
                 Nvme.sys_err := [] |}.
Proof.
  apply (write_then_read_returns PageSample.quiet PageSample.three_pages
           PageSample.writing PageSample.reading PageSample.nothing).
  - cbn. lia.
  - reflexivity.
  - cbn. lia.
  - cbn. lia.
  - split; [reflexivity | intros off; repeat split].
  - intros i _. eexists. split; reflexivity.
  - intros i _. eexists. split; reflexivity.
  - split; [reflexivity | repeat constructor].
  - split; [apply (bool_decide_unpack _); vm_compute; reflexivity
           | repeat constructor].
Defined.

(** X21. The reading program never changes the file: however the run
    ends, and whatever the system refuses, the file is afterwards what it
    was before, and a file that was not there is not made. *)
Theorem read_pages_keeps_the_file (dev : Nvme.device) (opts : Nvme.options)
    (sur : Nvme.surroundings) (bufs : list (list Z)) (sys : Nvme.system) :
  Nvme.sys_file (reached (Nvme.read_pages dev opts sur bufs sys))
  = Nvme.sys_file sys.
Proof.
  unfold Nvme.read_pages.
  destruct (Nvme.open_error dev); [reflexivity |].
  destruct (Nvme.sys_file sys) as [f |] eqn:Hfile; [| cbn; exact Hfile].
  pose proof (do_read_pages_file dev (Nvme.page_size sur) (Nvme.iterations sur)
                (Nvme.opened f bufs sys)) as Hloop.
  unfold Nvme.finish.
  destruct (Nvme.do_read_pages _ _ _ _) as [st | status st | what st];
    cbn [reached] in Hloop; [destruct (_ =? _) |..]; cbn; f_equal; exact Hloop.
Qed.

(** X22. A run for no pages. The writing program removes the file, makes
    an empty one, and exits with status 1 on the allocation of zero
    bytes, with the message of that failure; the reading program runs no
    iteration and then divides the time by zero. *)
Theorem no_pages_is_an_error (dev : Nvme.device) (opts : Nvme.options)
    (sur : Nvme.surroundings) (bufs : list (list Z)) (sys : Nvme.system)
    (f : Nvme.file) :
  Nvme.numpages opts = 0 -> Nvme.open_error dev = false ->
  Nvme.loop_order 0 (Z.to_nat (Nvme.numthreads opts)) (Nvme.iterations sur) ->
  Nvme.sys_file sys = Some f ->
  Nvme.write_pages dev opts sur bufs sys
  = Exited 1
      {| Nvme.sys_file := Some Nvme.empty_file;
         Nvme.sys_out := Nvme.sys_out sys;
         Nvme.sys_err :=
           Nvme.sys_err sys
           ++ [[Tstring "Failed to pre-allocate "; Tsize 0; Tstring " bytes in ";
                Tstring (Nvme.filename opts); Tstring ": "]] |}
  /\ Nvme.read_pages dev opts sur bufs sys = Crashed "division by zero" sys.
Proof.
  intros Hpages Hopen [Hperm _] Hfile. split.
  - unfold Nvme.write_pages. rewrite Hopen, Hpages. reflexivity.
  - unfold Nvme.read_pages. rewrite Hopen, Hfile.
    apply Permutation_nil_r in Hperm. apply fmap_nil_inv in Hperm.
    rewrite Hperm. cbn. rewrite Hpages. cbn.
    destruct sys as [file out err]. cbn in *. rewrite Hfile. reflexivity.
Qed.

Lemma no_pages_is_an_error_witness :
  Nvme.write_pages PageSample.quiet PageSample.no_pages PageSample.idle
                   PageSample.two_buffers PageSample.with_zeros
  = Exited 1
      {| Nvme.sys_file := Some Nvme.empty_file;
         Nvme.sys_out := [];
         Nvme.sys_err :=
           [[Tstring "Failed to pre-allocate "; Tsize 0; Tstring " bytes in ";
             Tstring "pages"; Tstring ": "]] |}
  /\ Nvme.read_pages PageSample.quiet PageSample.no_pages PageSample.idle
                     PageSample.two_buffers PageSample.with_zeros
     = Crashed "division by zero" PageSample.with_zeros.
Proof.
  apply (no_pages_is_an_error PageSample.quiet PageSample.no_pages PageSample.idle
           PageSample.two_buffers PageSample.with_zeros PageSample.zeros).
  - reflexivity.
  - reflexivity.
  - split; [reflexivity | constructor].
  - reflexivity.
Defined.

(** * The mapping of a file *)

Lemma nonzero_true (v : Z) : v <> 0 -> Umt.nonzero v = true.
Proof.
  intros Hv. unfold Umt.nonzero. apply negb_true_iff, Z.eqb_neq. exact Hv.
Qed.

(** [O_CREAT] is among the options of [open] exactly when [noinit] is
    zero. *)
Lemma open_options_creat (c : Umt.constants) (testops : Umt.umt_optstruct_t) :
  creat_is_apart c ->
  Umt.has_flag (Umt.O_CREAT c) (Umt.open_options c testops)
  = negb (Umt.nonzero (Umt.noinit testops)).
Proof.
  intros (Hbit & Hrdwr & Hdirect & Hlarge).
  unfold Umt.has_flag, Umt.open_options.
  assert (Hbase : forall base,
            Z.land base (Umt.O_CREAT c) = 0 \/ Z.land base (Umt.O_CREAT c) = Umt.O_CREAT c ->
            Z.land (match Umt.O_LARGEFILE c with
                    | Some large => Z.lor base large
                    | None => base
                    end) (Umt.O_CREAT c)
            = Z.land base (Umt.O_CREAT c)).
  { intros base _. destruct (Umt.O_LARGEFILE c) as [large |]; [| reflexivity].
    rewrite Z.land_lor_distr_l, Hlarge, Z.lor_0_r. reflexivity. }
  rewrite Hbase.
  - destruct (Umt.nonzero (Umt.noinit testops)); cbn [negb];
      destruct (Umt.nonzero (Umt.iodirect testops));
      rewrite ?Z.land_lor_distr_l, ?Hrdwr, ?Hdirect, ?Z.land_diag, ?Z.lor_0_l;
      try (apply Z.eqb_refl); apply Z.eqb_neq; congruence.
  - destruct (Umt.nonzero (Umt.noinit testops)); cbn [negb];
      destruct (Umt.nonzero (Umt.iodirect testops));
      rewrite ?Z.land_lor_distr_l, ?Hrdwr, ?Hdirect, ?Z.land_diag, ?Z.lor_0_l;
      auto.
Qed.

Lemma byte_at_fallocate (len : Z) (f : Nvme.file) (k : Z) :
  Nvme.byte_at (Nvme.fallocate len f) k = Nvme.byte_at f k.
Proof.
  unfold Nvme.fallocate. unfold Nvme.byte_at at 1. cbn [Nvme.f_size Nvme.f_byte].
  destruct ((0 <=? k) && (k <? Z.max (Nvme.f_size f) len)) eqn:Hin; [reflexivity |].
  unfold Nvme.byte_at.
  destruct ((0 <=? k) && (k <? Nvme.f_size f)) eqn:Hold; [| reflexivity].
  apply andb_true_iff in Hold as [H0 Hk]. apply Z.leb_le in H0. apply Z.ltb_lt in Hk.
  apply andb_false_iff in Hin as [Hin | Hin];
    [apply Z.leb_gt in Hin | apply Z.ltb_ge in Hin]; lia.
Qed.

Lemma same_content_refl (f : Nvme.file) : same_content f f.
Proof.
  split; reflexivity.
Qed.

Lemma file_kept_refl (f : option Nvme.file) : file_kept f f.
Proof.
  destruct f; [apply same_content_refl | exact I].
Qed.

(** From the allocation on, the file keeps its bytes, and it keeps its
    size when it has the bytes asked for. *)
Lemma allocate_and_map_file (c : Umt.constants) (k : Umt.kernel)
    (testops : Umt.umt_optstruct_t) (numbytes : Z) (st : Umt.state) (f : Nvme.file) :
  Umt.s_file st = Some f -> numbytes <= Nvme.f_size f ->
  file_kept (Some f)
            (Umt.s_file (reached (Umt.allocate_and_map c k testops numbytes st))).
Proof.
  intros Hfile Hsize. unfold Umt.allocate_and_map. rewrite Hfile.
  cbn [Umt.posix_fallocate].
  destruct (_ || _); [cbn; rewrite Hfile; apply same_content_refl |].
  destruct (Umt.map_arguments c testops _) as [flags my_fd].
  assert (Hkept : same_content f (Nvme.fallocate numbytes f)).
  { split; [cbn; lia | intros j; symmetry; apply byte_at_fallocate]. }
  destruct (_ =? _); exact Hkept.
Qed.

(** X23. With [noinit] set, the call does not make the file and does not
    change it: however the call ends and whatever the system does, a file
    that was not there is not there afterwards, and a file that was there
    has the size and the bytes it had. *)
Theorem noinit_keeps_the_file (c : Umt.constants) (k : Umt.kernel)
    (testops : Umt.umt_optstruct_t) (numbytes : Z) (st : Umt.state) :
  creat_is_apart c -> Umt.noinit testops <> 0 ->
  (forall f, Umt.s_file st = Some f -> 0 <= Nvme.f_size f < 2 ^ 63) ->
  file_kept (Umt.s_file st)
            (Umt.s_file (reached (Umt.umt_openandmap c k testops numbytes st))).
Proof.
  intros Hc Hnoinit Hsized. unfold Umt.umt_openandmap, Umt.open.
  rewrite (open_options_creat c testops Hc), (nonzero_true _ Hnoinit). cbn [negb].
  destruct (Umt.open_refused k).
  { cbn. apply file_kept_refl. }
  destruct (Umt.s_file st) as [f |] eqn:Hfile; [| cbn; exact I].
  cbn [Umt.set_fd Umt.s_fd Umt.s_file].
  destruct (Umt.descriptor k =? -1); [cbn; apply same_content_refl |].
  cbn [Umt.fstat].
  destruct (Umt.fstat_refused k); [cbn; apply same_content_refl |].
  destruct (wrap64 (Nvme.f_size f) <? numbytes) eqn:Hsmall;
    [cbn; apply same_content_refl |].
  apply allocate_and_map_file; [reflexivity |].
  apply Z.ltb_ge in Hsmall. unfold wrap64 in Hsmall.
  rewrite Z.mod_small in Hsmall by (specialize (Hsized f eq_refl); lia).
  exact Hsmall.
Qed.

Lemma noinit_keeps_the_file_witness :
  file_kept (Umt.s_file MapSample.small_file)
            (Umt.s_file (reached (Umt.umt_openandmap MapSample.linux MapSample.easy
                                    MapSample.reuse 32 MapSample.small_file))).
Proof.
  apply (noinit_keeps_the_file MapSample.linux MapSample.easy MapSample.reuse 32
           MapSample.small_file).
  - repeat split; discriminate.
  - discriminate.
  - intros f Hf. injection Hf as <-. cbn. lia.
Defined.

(** X24. With [noinit] set, a file that is not there, or that has fewer
    bytes than asked for, ends the process: the call exits with status -1
    whatever the system does, no mapping is made, and the file is not
    touched. *)
Theorem noinit_needs_a_large_file (c : Umt.constants) (k : Umt.kernel)
    (testops : Umt.umt_optstruct_t) (numbytes : Z) (st : Umt.state) :
  creat_is_apart c -> Umt.noinit testops <> 0 -> numbytes < 2 ^ 64 ->
  (forall f, Umt.s_file st = Some f -> 0 <= Nvme.f_size f < numbytes) ->
  exists st',
    Umt.umt_openandmap c k testops numbytes st = Exited (-1) st'
    /\ Umt.s_region st' = Umt.s_region st
    /\ Umt.s_file st' = Umt.s_file st
    /\ length (Umt.s_err st') = S (length (Umt.s_err st)).
Proof.
  intros Hc Hnoinit Hbytes Hsmall. unfold Umt.umt_openandmap, Umt.open.
  rewrite (open_options_creat c testops Hc), (nonzero_true _ Hnoinit). cbn [negb].
  assert (Hlen : forall msg, length (Umt.s_err st ++ [msg]) = S (length (Umt.s_err st)))
    by (intros msg; rewrite length_app; cbn; lia).
  destruct (Umt.open_refused k).
  { eexists. split; [reflexivity |]. cbn. repeat split. apply Hlen. }
  destruct (Umt.s_file st) as [f |] eqn:Hfile;
    [| eexists; split; [reflexivity |]; cbn; repeat split; apply Hlen].
  cbn [Umt.set_fd Umt.s_fd Umt.s_file].
  destruct (Umt.descriptor k =? -1);
    [eexists; split; [reflexivity |]; cbn; repeat split; apply Hlen |].
  cbn [Umt.fstat].
  destruct (Umt.fstat_refused k);
    [eexists; split; [reflexivity |]; cbn; repeat split; apply Hlen |].
  replace (wrap64 (Nvme.f_size f) <? numbytes) with true.
  - eexists; split; [reflexivity |]; cbn; repeat split; apply Hlen.
  - symmetry. apply Z.ltb_lt. unfold wrap64.
    specialize (Hsmall f eq_refl). rewrite Z.mod_small by lia. lia.
Qed.

Lemma noinit_needs_a_large_file_witness :
  exists st',
    Umt.umt_openandmap MapSample.linux MapSample.easy MapSample.reuse 64
                       MapSample.small_file
    = Exited (-1) st'
    /\ Umt.s_region st' = 0
    /\ Umt.s_file st' = Some PageSample.zeros
    /\ length (Umt.s_err st') = 1%nat.
Proof.
  apply (noinit_needs_a_large_file MapSample.linux MapSample.easy MapSample.reuse 64
           MapSample.small_file).
  - repeat split; discriminate.
  - discriminate.
  - lia.
  - intros f Hf. injection Hf as <-. cbn. lia.
Defined.

(** X25. When the system refuses nothing and the size asked for is
    positive, the call returns, provided that with [noinit] set the file
    is there with the bytes asked for. Afterwards the file is there with
    at least the bytes asked for and with the bytes it had, a file made by
    the call holding zeros; [fd] is the descriptor of the file; [region]
    is a shared mapping of the file when [usemmap] is set, and a private
    mapping of no file otherwise; nothing is written. *)
Theorem openandmap_returns (c : Umt.constants) (k : Umt.kernel)
    (testops : Umt.umt_optstruct_t) (numbytes : Z) (st : Umt.state) :
  creat_is_apart c -> willing k -> 0 < numbytes < 2 ^ 63 ->
  (Umt.noinit testops <> 0 ->
   exists f, Umt.s_file st = Some f /\ numbytes <= Nvme.f_size f < 2 ^ 63) ->
  exists st' f',
    Umt.umt_openandmap c k testops numbytes st = Done st'
    /\ Umt.s_file st' = Some f'
    /\ Nvme.f_size f'
       = Z.max (Nvme.f_size (default Nvme.empty_file (Umt.s_file st))) numbytes
    /\ (forall j, Nvme.byte_at f' j
                  = Nvme.byte_at (default Nvme.empty_file (Umt.s_file st)) j)
    /\ Umt.s_fd st' = Umt.descriptor k
    /\ Umt.s_region st'
       = (if Umt.usemmap testops =? 0
          then Umt.mapping k numbytes (Z.lor (Umt.PROT_READ c) (Umt.PROT_WRITE c))
                 (Z.lor (Z.lor (Umt.MAP_PRIVATE c) (Umt.MAP_ANONYMOUS c))
                        (Umt.MAP_NORESERVE c)) (-1)
          else Umt.mapping k numbytes (Z.lor (Umt.PROT_READ c) (Umt.PROT_WRITE c))
                 (Umt.MAP_SHARED c) (Umt.descriptor k))
    /\ Umt.s_err st' = Umt.s_err st.
Proof.
  intros Hc (Hopen & Hfd & Hfstat & Hfallocate & Hmap) Hbytes Hreuse.
  assert (Hfile : exists f, Umt.open c k (Umt.open_options c testops) (Umt.s_file st)
                            = (Umt.descriptor k, Some f)
                            /\ f = default Nvme.empty_file (Umt.s_file st)
                            /\ (Umt.noinit testops <> 0 ->
                                numbytes <= Nvme.f_size f < 2 ^ 63)).
  { unfold Umt.open. rewrite Hopen, (open_options_creat c testops Hc).
    destruct (Umt.s_file st) as [f |] eqn:Hst.
    - exists f. split; [reflexivity |]. split; [reflexivity |].
      intros Hn. destruct (Hreuse Hn) as (g & Hg & Hsize). congruence.
    - destruct (Z.eq_dec (Umt.noinit testops) 0) as [Hzero | Hn].
      + unfold Umt.nonzero. rewrite Hzero. cbn.
        exists Nvme.empty_file. split; [reflexivity |]. split; [reflexivity |].
        intros Hn. contradiction.
      + destruct (Hreuse Hn) as (g & Hg & _). discriminate. }
  destruct Hfile as (f & Hopened & Hf & Hsize).
  assert (Hrest : forall st1,
            Umt.s_file st1 = Some f -> Umt.s_fd st1 = Umt.descriptor k ->
            Umt.s_err st1 = Umt.s_err st ->
            exists st' f',
              Umt.allocate_and_map c k testops numbytes st1 = Done st'
              /\ Umt.s_file st' = Some f'
              /\ Nvme.f_size f' = Z.max (Nvme.f_size f) numbytes
              /\ (forall j, Nvme.byte_at f' j = Nvme.byte_at f j)
              /\ Umt.s_fd st' = Umt.descriptor k
              /\ Umt.s_region st'
                 = (if Umt.usemmap testops =? 0
                    then Umt.mapping k numbytes
                           (Z.lor (Umt.PROT_READ c) (Umt.PROT_WRITE c))
                           (Z.lor (Z.lor (Umt.MAP_PRIVATE c) (Umt.MAP_ANONYMOUS c))
                                  (Umt.MAP_NORESERVE c)) (-1)
                    else Umt.mapping k numbytes
                           (Z.lor (Umt.PROT_READ c) (Umt.PROT_WRITE c))
                           (Umt.MAP_SHARED c) (Umt.descriptor k))
              /\ Umt.s_err st' = Umt.s_err st).
  { intros st1 Hfile1 Hfd1 Herr1. unfold Umt.allocate_and_map.
    rewrite Hfile1. cbn [Umt.posix_fallocate].
    replace (numbytes =? 0) with false by (symmetry; apply Z.eqb_neq; lia).
    replace (Nvme.bad_offset numbytes) with false
      by (symmetry; unfold Nvme.bad_offset; apply Z.leb_gt; lia).
    rewrite Hfallocate. cbn [orb].
    unfold Umt.map_arguments, Umt.nonzero.
    cbn [Umt.set_file Umt.s_fd]. rewrite Hfd1.
    destruct (Umt.usemmap testops =? 0); cbn [negb Umt.set_region Umt.s_region];
      (match goal with
       | |- context [?r =? Umt.MAP_FAILED] =>
           replace (r =? Umt.MAP_FAILED) with false
             by (symmetry; apply Z.eqb_neq; apply Hmap)
       end);
      eexists; eexists; (split; [reflexivity |]);
      cbn [Umt.s_file Umt.s_fd Umt.s_region Umt.s_err];
      (split; [reflexivity |]); (split; [reflexivity |]);
      (split; [intros j; apply byte_at_fallocate |]);
      (split; [exact Hfd1 |]); (split; [reflexivity | exact Herr1]). }
  unfold Umt.umt_openandmap. rewrite Hopened.
  cbn [Umt.set_fd Umt.s_fd Umt.s_file].
  replace (Umt.descriptor k =? -1) with false by (symmetry; apply Z.eqb_neq; exact Hfd).
  rewrite <- Hf.
  destruct (Umt.nonzero (Umt.noinit testops)) eqn:Hn.
  - cbn [Umt.fstat]. rewrite Hfstat.
    assert (Hnz : Umt.noinit testops <> 0).
    { intros Hz. unfold Umt.nonzero in Hn. rewrite Hz in Hn. discriminate. }
    specialize (Hsize Hnz).
    replace (wrap64 (Nvme.f_size f) <? numbytes) with false
      by (symmetry; apply Z.ltb_ge; unfold wrap64; rewrite Z.mod_small; lia).
    apply Hrest; reflexivity.
  - apply Hrest; reflexivity.
Qed.

Lemma openandmap_returns_witness :
  exists st' f',
    Umt.umt_openandmap MapSample.linux MapSample.easy MapSample.fresh 48
                       MapSample.no_file
    = Done st'
    /\ Umt.s_file st' = Some f'
    /\ Nvme.f_size f' = 48
    /\ (forall j, Nvme.byte_at f' j = Nvme.byte_at Nvme.empty_file j)
    /\ Umt.s_fd st' = 3
    /\ Umt.s_region st' = 4096
    /\ Umt.s_err st' = [].
Proof.
  apply (openandmap_returns MapSample.linux MapSample.easy MapSample.fresh 48
           MapSample.no_file).
  - repeat split; discriminate.
  - repeat split; try discriminate; intros; discriminate.
  - lia.
  - intros H. exfalso. apply H. reflexivity.
Defined.
